(** * MolGPT front end: event bus, form components, generation controller
      and results panel

    A shallow embedding of the JavaScript components of the MolGPT front
    end, and the properties of its specification stated over them.

    Conventions of the embedding.
    - A JavaScript string is a [string]; a character beyond ASCII is
      held as the bytes of its UTF-8 encoding, as in the string literals
      of this file.
    - A JavaScript number is a [jsnum]: an exact rational, NaN or one of
      the two infinities.  The code only parses, compares and stores
      numbers.  Numbers are not rounded to doubles: an integer beyond
      2^53 is itself here, and a count is printed in full where
      JavaScript would use an exponent (from 10^21 on).
    - An object property that may be missing is an [option]; [None] is
      [undefined].
    - A method that mutates [this.state] is a function from the old state
      to the new one; events emitted and requests issued are appended to
      an explicit log.
    - A method that may throw returns a [Result]. *)

From stdpp Require Import base option list gmap strings pretty.
From Stdlib Require Import Ascii ZArith QArith Qround Lia Lqa.

Local Close Scope Q_scope.
Local Open Scope string_scope.
Local Open Scope list_scope.

(** ** Thrown errors *)

Inductive Result (A : Type) : Type :=
| Ok (a : A)
| Error (message : string).
Arguments Ok {A} a.
Arguments Error {A} message.

(** * scripts/utils/EventBus.js *)

Module EventBus.

(** Values carried by events.  [VErrorInfo] is the object literal
    [{event, error, listener}] that [emit] builds when a listener throws. *)
Inductive Value : Type :=
| VUndefined
| VBool (b : bool)
| VNum (n : Z)
| VStr (s : string)
| VErrorInfo (event : string) (error : Value) (listener : string).

(** What a call of a listener callback does: it returns or it throws. *)
Inductive Outcome : Type :=
| Returned
| Threw (error : Value).

(** The listener object built by [on].  A callback is named by a number;
    what it does when called is given by the environment (see [Sys]). *)
Record Listener : Type := mkListener {
  callback : nat;
  once_flag : bool;
  context : option nat;
  listenerId : string
}.

Record Options : Type := mkOptions {
  opt_once : bool;
  opt_context : option nat
}.

Definition noOptions : Options := {| opt_once := false; opt_context := None |}.

Record Stats : Type := mkStats {
  eventsEmitted : nat;
  eventsListened : nat;
  errors : nat
}.

(** [this.events] is a [Map] from event name to the array of listeners. *)
Record Bus : Type := mkBus {
  events : gmap string (list Listener);
  debug : bool;
  stats : Stats
}.

Definition constructor : Bus :=
  {| events := ∅; debug := false;
     stats := {| eventsEmitted := 0; eventsListened := 0; errors := 0 |} |}.

Definition set_events (m : gmap string (list Listener)) (b : Bus) : Bus :=
  {| events := m; debug := debug b; stats := stats b |}.

Definition set_stats (s : Stats) (b : Bus) : Bus :=
  {| events := events b; debug := debug b; stats := s |}.

(** [on(eventName, callback, options)].  The identifier produced by
    [generateListenerId] (time stamp and random suffix) is the argument
    [newId].  The returned unsubscribe function is [off eventName (ById
    newId)]; the model returns the identifier. *)
Definition on (eventName : string) (cb : nat) (options : Options)
    (newId : string) (b : Bus) : Result (string * Bus) :=
  if bool_decide (eventName = "") then
    Error "Event name must be a non-empty string"
  else
    let listener :=
      {| callback := cb; once_flag := opt_once options;
         context := opt_context options; listenerId := newId |} in
    let current := default [] (events b !! eventName) in
    let b1 := set_events (<[eventName := current ++ [listener]]> (events b)) b in
    let st := stats b1 in
    Ok (newId,
        set_stats {| eventsEmitted := eventsEmitted st;
                     eventsListened := S (eventsListened st);
                     errors := errors st |} b1).

(** [once(eventName, callback, options)] *)
Definition once (eventName : string) (cb : nat) (options : Options)
    (newId : string) (b : Bus) : Result (string * Bus) :=
  on eventName cb {| opt_once := true; opt_context := opt_context options |}
     newId b.

(** The second argument of [off]: [undefined], a function or an id. *)
Inductive OffTarget : Type :=
| AllListeners
| ByCallback (cb : nat)
| ById (lid : string).

Definition keeps (callbackOrId : OffTarget) (l : Listener) : bool :=
  match callbackOrId with
  | AllListeners => true
  | ByCallback cb => negb (Nat.eqb (callback l) cb)
  | ById lid => negb (bool_decide (listenerId l = lid))
  end.

(** [off(eventName, callbackOrId)] *)
Definition off (eventName : string) (callbackOrId : OffTarget) (b : Bus) : Bus :=
  match events b !! eventName with
  | None => b
  | Some listeners =>
      match callbackOrId with
      | AllListeners => set_events (delete eventName (events b)) b
      | _ =>
          let filteredListeners := List.filter (keeps callbackOrId) listeners in
          if Nat.eqb (length filteredListeners) (length listeners) then b
          else if Nat.eqb (length filteredListeners) 0 then
            set_events (delete eventName (events b)) b
          else set_events (<[eventName := filteredListeners]> (events b)) b
      end
  end.

Definition getListenerCount (eventName : string) (b : Bus) : nat :=
  match events b !! eventName with
  | None => 0
  | Some listeners => length listeners
  end.

Definition hasListeners (eventName : string) (b : Bus) : bool :=
  Nat.ltb 0 (getListenerCount eventName b).

Definition removeAllListeners (b : Bus) : Bus := set_events ∅ b.

(** What a callback may ask of the bus while it runs: to subscribe or to
    unsubscribe listeners.  A callback that emits is outside this
    model; it is within that of [Reentrant] below. *)
Inductive BusCall : Type :=
| CallOn (eventName : string) (cb : nat) (options : Options) (newId : string)
| CallOff (eventName : string) (callbackOrId : OffTarget).

(** The bus after such a call; a call of [on] that throws leaves it as it
    is. *)
Definition perform (b : Bus) (c : BusCall) : Bus :=
  match c with
  | CallOn eventName cb options newId =>
      match on eventName cb options newId b with
      | Ok (_, b') => b'
      | Error _ => b
      end
  | CallOff eventName callbackOrId => off eventName callbackOrId b
  end.

(** What happened, in order: every entry into [emit] and every call of a
    listener callback with its outcome. *)
Inductive LogEntry : Type :=
| Emitted (eventName : string) (args : list Value)
| Invoked (eventName : string) (lid : string) (args : list Value) (out : Outcome).

(** The listeners registered for an event. *)
Definition registry (eventName : string) (b : Bus) : list Listener :=
  default [] (events b !! eventName).

(** The calls of the listeners of [eventName] in a log, oldest first:
    listener and arguments. *)
Definition invocations (eventName : string) (l : list LogEntry)
    : list (string * list Value) :=
  omap (fun e =>
          match e with
          | Invoked n lid args _ =>
              if bool_decide (n = eventName) then Some (lid, args) else None
          | Emitted _ _ => None
          end) l.

(** For each call of a listener of [eventName] that threw, the arguments
    of the 'error' event that reports it. *)
Definition failures (eventName : string) (l : list LogEntry)
    : list (list Value) :=
  omap (fun e =>
          match e with
          | Invoked n lid _ (Threw error) =>
              if bool_decide (n = eventName)
              then Some [VErrorInfo n error lid] else None
          | _ => None
          end) l.

(** The arguments of the 'error' events emitted. *)
Definition reemissions (l : list LogEntry) : list (list Value) :=
  omap (fun e =>
          match e with
          | Emitted n args =>
              if bool_decide (n = "error") then Some args else None
          | Invoked _ _ _ _ => None
          end) l.

Section Emit.

(** The state the callbacks act on, and what calling callback [cb] with
    context [ctx] and arguments [args] does: it returns or throws, leaves
    a new state, and has made some calls of [on] and [off] on the way. *)
Context {W : Type}.
Variable call :
  nat → option nat → list Value → W → Outcome * W * list BusCall.

Record Sys : Type := mkSys {
  bus : Bus;
  world : W;
  log : list LogEntry
}.

Definition with_bus (f : Bus → Bus) (s : Sys) : Sys :=
  {| bus := f (bus s); world := world s; log := log s |}.

Definition count_error (b : Bus) : Bus :=
  let st := stats b in
  set_stats {| eventsEmitted := eventsEmitted st;
               eventsListened := eventsListened st;
               errors := S (errors st) |} b.

Definition count_emitted (b : Bus) : Bus :=
  let st := stats b in
  set_stats {| eventsEmitted := S (eventsEmitted st);
               eventsListened := eventsListened st;
               errors := errors st |} b.

(** The body of [listeners.forEach(listener => { try ... catch ... })].
    [reemit] is what the catch block does after counting the error. *)
Fixpoint forEach (reemit : Listener → Value → Sys → Sys)
    (eventName : string) (args : list Value) (listeners : list Listener)
    (listenersTriggered : nat) (s : Sys) : nat * Sys :=
  match listeners with
  | [] => (listenersTriggered, s)
  | listener :: rest =>
      let '(out, w, calls) :=
        call (callback listener) (context listener) args (world s) in
      let s1 := {| bus := fold_left perform calls (bus s); world := w;
                   log := log s ++ [Invoked eventName (listenerId listener) args out] |} in
      match out with
      | Returned =>
          let s2 :=
            if once_flag listener
            then with_bus (off eventName (ById (listenerId listener))) s1
            else s1 in
          forEach reemit eventName args rest (S listenersTriggered) s2
      | Threw error =>
          let s2 := with_bus count_error s1 in
          forEach reemit eventName args rest listenersTriggered
                  (reemit listener error s2)
      end
  end.

(** [emit] with the catch block's re-emission left as a parameter. *)
Definition emitWith (reemit : Listener → Value → Sys → Sys)
    (eventName : string) (args : list Value) (s : Sys) : Result (bool * Sys) :=
  if bool_decide (eventName = "") then
    Error "Event name must be a non-empty string"
  else
    let s0 := {| bus := bus s; world := world s;
                 log := log s ++ [Emitted eventName args] |} in
    match events (bus s0) !! eventName with
    | None => Ok (false, s0)
    | Some current =>
        let listeners := current in
        let '(listenersTriggered, s1) :=
          forEach reemit eventName args listeners 0 s0 in
        Ok (Nat.ltb 0 listenersTriggered, with_bus count_emitted s1)
    end.

(** [this.emit('error', ...)] from inside the catch block: the event is
    'error', so a listener that throws there is not re-emitted. *)
Definition emitError (args : list Value) (s : Sys) : Sys :=
  match emitWith (fun _ _ s' => s') "error" args s with
  | Ok (_, s') => s'
  | Error _ => s
  end.

(** [emit(eventName, ...args)] *)
Definition emit (eventName : string) (args : list Value) (s : Sys)
    : Result (bool * Sys) :=
  emitWith
    (fun listener error s' =>
       if bool_decide (eventName = "error") then s'
       else emitError [VErrorInfo eventName error (listenerId listener)] s')
    eventName args s.

End Emit.

(** [getTotalListenerCount()]: the lengths of [this.events.values()]
    added up. *)
Definition getTotalListenerCount (b : Bus) : nat :=
  map_fold (fun _ listeners total => total + length listeners) 0 (events b).

(** [destroy()] *)
Definition destroy (b : Bus) : Bus :=
  set_stats {| eventsEmitted := 0; eventsListened := 0; errors := 0 |}
    (removeAllListeners b).

(** The name [`${namespace}:${eventName}`] that a namespaced bus passes
    on. *)
Definition namespaced (namespace eventName : string) : string :=
  namespace +:+ ":" +:+ eventName.

(** The object returned by [namespace(namespace)]; its [emit] is
    [namespace_emit] below. *)
Record NamespacedBus : Type := mkNamespacedBus {
  ns_on : string → nat → Options → string → Bus → Result (string * Bus);
  ns_once : string → nat → Options → string → Bus → Result (string * Bus);
  ns_off : string → OffTarget → Bus → Bus;
  ns_hasListeners : string → Bus → bool;
  ns_getListenerCount : string → Bus → nat
}.

(** [namespace(namespace)] *)
Definition namespace (namespace : string) : Result NamespacedBus :=
  if bool_decide (namespace = "") then
    Error "Namespace must be a non-empty string"
  else
    Ok {| ns_on := fun eventName => on (namespaced namespace eventName);
          ns_once := fun eventName => once (namespaced namespace eventName);
          ns_off := fun eventName => off (namespaced namespace eventName);
          ns_hasListeners :=
            fun eventName => hasListeners (namespaced namespace eventName);
          ns_getListenerCount :=
            fun eventName => getListenerCount (namespaced namespace eventName) |}.

Section NamespaceEmit.

Context {W : Type}.
Variable call :
  nat → option nat → list Value → W → Outcome * W * list BusCall.

(** The [emit] of the object returned by [namespace(namespace)]. *)
Definition namespace_emit (namespace eventName : string) (args : list Value)
    (s : @Sys W) : Result (bool * @Sys W) :=
  emit call (namespaced namespace eventName) args s.

End NamespaceEmit.

(** The listeners of [eventName] whose call returned, as a log shows
    them. *)
Definition returned (eventName : string) (l : list LogEntry) : list string :=
  omap (fun e =>
          match e with
          | Invoked n lid _ Returned =>
              if bool_decide (n = eventName) then Some lid else None
          | _ => None
          end) l.

(** The number of calls in a log that threw, whatever the event. *)
Definition thrown (l : list LogEntry) : nat :=
  length (List.filter
            (fun e => match e with
                      | Invoked _ _ _ (Threw _) => true
                      | _ => false
                      end) l).

(** ** [emit] with callbacks that use the bus freely

    Above, a callback can only subscribe and unsubscribe.  Here what a
    call of a callback does is any function of the bus and of the state
    of the page: the callback may subscribe, unsubscribe, emit events of
    its own or clear the bus, and whatever it does is done when the call
    ends.  Callbacks are taken to end. *)

Module Reentrant.
Section Emit.

Context {W : Type}.

(** What the callbacks see and change: the bus and the state of the
    page. *)
Record Sys : Type := mkSys {
  bus : Bus;
  world : W
}.

(** What calling callback [cb] with context [ctx] and arguments [args]
    does: it returns or throws, and leaves the bus and the page in a new
    state. *)
Variable call : nat → option nat → list Value → Sys → Outcome * Sys.

Definition with_bus (f : Bus → Bus) (s : Sys) : Sys :=
  {| bus := f (bus s); world := world s |}.

(** One turn of the loop of [emit], kept for the observer: the listener,
    the state in which its callback was called, what the call did, and
    the state in which the loop goes on ([left]), that is after the
    removal of a one-time listener or after the catch block. *)
Record Call : Type := mkCall {
  listener : Listener;
  before : Sys;
  out : Outcome;
  after : Sys;
  left : Sys
}.

(** The body of [listeners.forEach(listener => { try ... catch ... })].
    [reemit] is what the catch block does after counting the error. *)
Fixpoint forEach (reemit : Listener → Value → Sys → Sys)
    (eventName : string) (args : list Value) (listeners : list Listener)
    (listenersTriggered : nat) (s : Sys) : nat * Sys * list Call :=
  match listeners with
  | [] => (listenersTriggered, s, [])
  | listener :: rest =>
      let '(out, s1) := call (callback listener) (context listener) args s in
      match out with
      | Returned =>
          let s2 :=
            if once_flag listener
            then with_bus (off eventName (ById (listenerId listener))) s1
            else s1 in
          let '(n, s3, calls) :=
            forEach reemit eventName args rest (S listenersTriggered) s2 in
          (n, s3, mkCall listener s out s1 s2 :: calls)
      | Threw error =>
          let s2 := reemit listener error (with_bus count_error s1) in
          let '(n, s3, calls) :=
            forEach reemit eventName args rest listenersTriggered s2 in
          (n, s3, mkCall listener s out s1 s2 :: calls)
      end
  end.

(** [emit] with the catch block's re-emission left as a parameter; the
    calls made are returned with the result. *)
Definition emitWith (reemit : Listener → Value → Sys → Sys)
    (eventName : string) (args : list Value) (s : Sys)
    : Result (bool * Sys * list Call) :=
  if bool_decide (eventName = "") then
    Error "Event name must be a non-empty string"
  else
    match events (bus s) !! eventName with
    | None => Ok (false, s, [])
    | Some current =>
        let listeners := current in
        let '(listenersTriggered, s1, calls) :=
          forEach reemit eventName args listeners 0 s in
        Ok (Nat.ltb 0 listenersTriggered, with_bus count_emitted s1, calls)
    end.

(** [this.emit('error', ...)] from inside the catch block: the event is
    'error', so a listener that throws there is not re-emitted. *)
Definition emitError (args : list Value) (s : Sys) : Sys :=
  match emitWith (fun _ _ s' => s') "error" args s with
  | Ok (_, s', _) => s'
  | Error _ => s
  end.

(** [emit(eventName, ...args)] *)
Definition emit (eventName : string) (args : list Value) (s : Sys)
    : Result (bool * Sys * list Call) :=
  emitWith
    (fun listener error s' =>
       if bool_decide (eventName = "error") then s'
       else emitError [VErrorInfo eventName error (listenerId listener)] s')
    eventName args s.

(** The call returned: it is one of those that [listenersTriggered]
    counts. *)
Definition returnedCall (c : Call) : bool :=
  match out c with
  | Returned => true
  | Threw _ => false
  end.

(** The calls of a list follow one another: the first callback is called
    in state [first], each later one in the state in which the loop left
    the call before it, and the loop ends in state [last]. *)
Fixpoint chained (first : Sys) (calls : list Call) (last : Sys) : Prop :=
  match calls with
  | [] => last = first
  | c :: rest => before c = first ∧ chained (left c) rest last
  end.

(** The step from [s] to [s'] leaves the registration of [l] for the
    event alone: it does not unsubscribe [l], and it subscribes no
    listener under the identifier of [l]. *)
Definition leavesAlone (eventName : string) (l : Listener) (s s' : Sys)
    : Prop :=
  (l ∈ registry eventName (bus s) → l ∈ registry eventName (bus s'))
  ∧ (listenerId l ∉ map listenerId (registry eventName (bus s)) →
     listenerId l ∉ map listenerId (registry eventName (bus s'))).

End Emit.

(** A callback of the first model seen as one of this model: its calls
    of [on] and [off] are made on the bus. *)
Definition ofCalls {W : Type}
    (call : nat → option nat → list Value → W → Outcome * W * list BusCall)
    (cb : nat) (ctx : option nat) (args : list Value) (s : @Sys W)
    : Outcome * @Sys W :=
  let '(out, w, calls) := call cb ctx args (world s) in
  (out, {| bus := fold_left perform calls (bus s); world := w |}).

(** The bus and the page of a state of the first model. *)
Definition forget {W : Type} (s : @EventBus.Sys W) : @Sys W :=
  {| bus := EventBus.bus s; world := EventBus.world s |}.

End Reentrant.

End EventBus.

(** * JavaScript numbers and the built-ins the components use *)

Module Js.

(** A number is an exact rational, NaN or an infinity. *)
Inductive jsnum : Type :=
| Fin (q : Q)
| NaN
| PosInf
| NegInf.

Definition isNaN (n : jsnum) : bool :=
  match n with NaN => true | _ => false end.

(** [a < b] *)
Definition lt (a b : jsnum) : bool :=
  match a, b with
  | NaN, _ | _, NaN => false
  | Fin x, Fin y => negb (Qle_bool y x)
  | NegInf, NegInf => false
  | NegInf, _ => true
  | _, NegInf => false
  | PosInf, _ => false
  | Fin _, PosInf => true
  end.

(** [a > b] *)
Definition gt (a b : jsnum) : bool := lt b a.

(** [a >= b] and [a <= b] *)
Definition le (a b : jsnum) : bool :=
  match a, b with
  | NaN, _ | _, NaN => false
  | Fin x, Fin y => Qle_bool x y
  | NegInf, _ => true
  | _, PosInf => true
  | _, NegInf => false
  | PosInf, _ => false
  end.

Definition ge (a b : jsnum) : bool := le b a.

(** [a === b] on numbers; [a !== b] is its negation. *)
Definition strictEq (a b : jsnum) : bool :=
  match a, b with
  | Fin x, Fin y => Qeq_bool x y
  | PosInf, PosInf => true
  | NegInf, NegInf => true
  | _, _ => false
  end.

(** Truthiness of a number: 0 and NaN are falsy. *)
Definition truthy (n : jsnum) : bool :=
  match n with
  | Fin q => negb (Qeq_bool q 0)
  | NaN => false
  | _ => true
  end.

(** [Math.min(a, b)] and [Math.max(a, b)] *)
Definition Math_min (a b : jsnum) : jsnum :=
  if isNaN a || isNaN b then NaN else if lt b a then b else a.

Definition Math_max (a b : jsnum) : jsnum :=
  if isNaN a || isNaN b then NaN else if lt a b then b else a.

(** [Number.isInteger(n)] *)
Definition isInteger (n : jsnum) : bool :=
  match n with
  | Fin q => Z.eqb (Z.modulo (Qnum q) (Zpos (Qden q))) 0
  | _ => false
  end.

(** A value read from an object that may lack the property: [undefined]
    converts to NaN in a comparison and is falsy. *)
Definition toNumber (o : option jsnum) : jsnum := default NaN o.

Definition truthyOpt (o : option jsnum) : bool :=
  match o with Some n => truthy n | None => false end.

(** The number lies in the closed interval [lo, hi]. *)
Definition inRange (lo hi : Q) (n : jsnum) : Prop :=
  match n with
  | Fin q => (lo <= q)%Q ∧ (q <= hi)%Q
  | _ => False
  end.

(** *** White space

    What [parseInt] and [trim] skip: the white space and the line
    terminators of the language.  Those of ASCII are the characters 9 to
    13 and 32; the others are U+00A0, U+1680, U+2000 to U+200A, U+2028,
    U+2029, U+202F, U+205F, U+3000 and U+FEFF, which take two or three
    bytes. *)

Definition isWhiteSpace (c : ascii) : bool :=
  let n := nat_of_ascii c in
  Nat.eqb n 9 || Nat.eqb n 10 || Nat.eqb n 11 || Nat.eqb n 12
  || Nat.eqb n 13 || Nat.eqb n 32.

(** The two bytes of U+00A0. *)
Definition isWhiteSpace2 (c1 c2 : ascii) : bool :=
  Nat.eqb (nat_of_ascii c1) 194 && Nat.eqb (nat_of_ascii c2) 160.

(** The three bytes of one of the others. *)
Definition isWhiteSpace3 (c1 c2 c3 : ascii) : bool :=
  let a := nat_of_ascii c1 in
  let b := nat_of_ascii c2 in
  let c := nat_of_ascii c3 in
  Nat.eqb a 225 && Nat.eqb b 154 && Nat.eqb c 128
  || Nat.eqb a 226 && Nat.eqb b 128
     && (Nat.leb 128 c && Nat.leb c 138
         || Nat.eqb c 168 || Nat.eqb c 169 || Nat.eqb c 175)
  || Nat.eqb a 226 && Nat.eqb b 129 && Nat.eqb c 159
  || Nat.eqb a 227 && Nat.eqb b 128 && Nat.eqb c 128
  || Nat.eqb a 239 && Nat.eqb b 187 && Nat.eqb c 191.

(** The string without its leading white space. *)
Fixpoint skipWhiteSpace (s : string) : string :=
  match s with
  | String c1 rest1 =>
      if isWhiteSpace c1 then skipWhiteSpace rest1
      else
        match rest1 with
        | String c2 rest2 =>
            if isWhiteSpace2 c1 c2 then skipWhiteSpace rest2
            else
              match rest2 with
              | String c3 rest3 =>
                  if isWhiteSpace3 c1 c2 c3 then skipWhiteSpace rest3 else s
              | EmptyString => s
              end
        | EmptyString => s
        end
  | EmptyString => s
  end.

(** The same for a string whose bytes are in reverse order. *)
Fixpoint skipWhiteSpaceBackwards (s : string) : string :=
  match s with
  | String c1 rest1 =>
      if isWhiteSpace c1 then skipWhiteSpaceBackwards rest1
      else
        match rest1 with
        | String c2 rest2 =>
            if isWhiteSpace2 c2 c1 then skipWhiteSpaceBackwards rest2
            else
              match rest2 with
              | String c3 rest3 =>
                  if isWhiteSpace3 c3 c2 c1
                  then skipWhiteSpaceBackwards rest3 else s
              | EmptyString => s
              end
        | EmptyString => s
        end
  | EmptyString => s
  end.

(** *** [parseInt] *)

(** The value of [c] as a digit in radix [r], if it is one. *)
Definition digitValue (r : Z) (c : ascii) : option Z :=
  let n := Z.of_nat (nat_of_ascii c) in
  let v :=
    if (48 <=? n)%Z && (n <=? 57)%Z then Some (n - 48)%Z
    else if (97 <=? n)%Z && (n <=? 122)%Z then Some (n - 87)%Z
    else if (65 <=? n)%Z && (n <=? 90)%Z then Some (n - 55)%Z
    else None in
  match v with
  | Some d => if (d <? r)%Z then Some d else None
  | None => None
  end.

(** The longest prefix of digits, as a number; [None] when it is empty. *)
Fixpoint parseDigits (r : Z) (s : string) (acc : option Z) : option Z :=
  match s with
  | String c rest =>
      match digitValue r c with
      | Some d => parseDigits r rest (Some (r * default 0%Z acc + d)%Z)
      | None => acc
      end
  | EmptyString => acc
  end.

Definition stripSign (s : string) : bool * string :=
  match s with
  | String c rest =>
      if Nat.eqb (nat_of_ascii c) 45 then (true, rest)
      else if Nat.eqb (nat_of_ascii c) 43 then (false, rest)
      else (false, s)
  | EmptyString => (false, s)
  end.

Definition stripHexPrefix (s : string) : option string :=
  match s with
  | String c0 (String c1 rest) =>
      if Nat.eqb (nat_of_ascii c0) 48
         && (Nat.eqb (nat_of_ascii c1) 120 || Nat.eqb (nat_of_ascii c1) 88)
      then Some rest else None
  | _ => None
  end.

(** [parseInt(s, radix)]; [radix = None] is the call with one argument.
    Only radix 10 and the missing radix occur in the code.  The result is
    the integer that the digits write, also where JavaScript, beyond
    2^53, rounds it to the nearest double. *)
Definition parseInt (s : string) (radix : option Z) : jsnum :=
  let '(negative, body) := stripSign (skipWhiteSpace s) in
  let '(r, digits) :=
    match radix with
    | Some r => (r, body)
    | None =>
        match stripHexPrefix body with
        | Some rest => (16%Z, rest)
        | None => (10%Z, body)
        end
    end in
  match parseDigits r digits None with
  | None => NaN
  | Some z => Fin (inject_Z (if negative then (- z)%Z else z))
  end.

(** *** String built-ins *)

Fixpoint startsWith (s prefix : string) : bool :=
  match prefix, s with
  | EmptyString, _ => true
  | String a p, String b r => Ascii.eqb a b && startsWith r p
  | String _ _, EmptyString => false
  end.

Fixpoint includes (s sub : string) : bool :=
  startsWith s sub
  || match s with
     | String _ r => includes r sub
     | EmptyString => false
     end.

(** [s.trim()] *)
Definition trim (s : string) : string :=
  String.rev (skipWhiteSpaceBackwards (String.rev (skipWhiteSpace s))).

End Js.

(** * components/PropertyForm.js (src/unnamed/part_001) *)

Module PropertyForm.
Import Js.

Record State : Type := mkState {
  samples : jsnum;
  temperature : jsnum;
  isValid : bool;
  errors : list string
}.

(** [this.config] *)
Definition samples_min : jsnum := Fin 1.
Definition samples_max : jsnum := Fin 500.
Definition samples_default : jsnum := Fin 1.
Definition temperature_min : jsnum := Fin 0.
Definition temperature_max : jsnum := Fin 2.
Definition temperature_default : jsnum := Fin 1.0.

(** The component: its state and the payloads [{samples, temperature}]
    it has emitted as 'form:dataChanged', oldest first.  The writes to the
    DOM (display value, CSS classes) are left out. *)
Record Component : Type := mkComponent {
  state : State;
  emitted : list (jsnum * jsnum)
}.

(** The state set by the constructor. *)
Definition constructor : Component :=
  {| state := {| samples := Fin 0; temperature := Fin 1.0;
                 isValid := false; errors := [] |};
     emitted := [] |}.

Definition set_samples (v : jsnum) (c : Component) : Component :=
  {| state := {| samples := v; temperature := temperature (state c);
                 isValid := isValid (state c); errors := errors (state c) |};
     emitted := emitted c |}.

Definition set_temperature (v : jsnum) (c : Component) : Component :=
  {| state := {| samples := samples (state c); temperature := v;
                 isValid := isValid (state c); errors := errors (state c) |};
     emitted := emitted c |}.

Definition validationErrors (st : State) : list string :=
  (if negb (isInteger (samples st)) || lt (samples st) samples_min
   then ["Samples must be at least 1"] else [])
  ++ (if gt (samples st) samples_max
      then ["Samples cannot exceed 500"] else [])
  ++ (if lt (temperature st) temperature_min
         || gt (temperature st) temperature_max
      then ["Temperature must be between 0 and 2"] else []).

(** [validate()] *)
Definition validate (c : Component) : Component :=
  let errs := validationErrors (state c) in
  {| state := {| samples := samples (state c);
                 temperature := temperature (state c);
                 isValid := Nat.eqb (length errs) 0;
                 errors := errs |};
     emitted := emitted c |}.

(** [getFormData()] and [emitFormChange()] *)
Definition getFormData (c : Component) : jsnum * jsnum :=
  (samples (state c), temperature (state c)).

Definition emitFormChange (c : Component) : Component :=
  {| state := state c; emitted := emitted c ++ [getFormData c] |}.

(** The first half of [handleSamplesChange]: [numericValue] and
    [sanitizedValue] computed from [rawValue]. *)
Definition sanitizedValue (rawValue : string) : jsnum :=
  let numericValue := parseInt rawValue (Some 10%Z) in
  if isNaN numericValue || lt numericValue samples_min then samples_min
  else if gt numericValue samples_max then samples_max
  else numericValue.

(** [handleSamplesChange(event)]; [rawValue] is [event.target.value]. *)
Definition handleSamplesChange (rawValue : string) (c : Component) : Component :=
  if negb (strictEq (samples (state c)) (sanitizedValue rawValue)) then
    emitFormChange (validate (set_samples (sanitizedValue rawValue) c))
  else c.

(** [handleSamplesBlur(event)]; [value] is [event.target.value]. *)
Definition handleSamplesBlur (value : string) (c : Component) : Component :=
  if bool_decide (value = "") || lt (parseInt value None) samples_min then
    emitFormChange (validate (set_samples samples_min c))
  else c.

(** [handleTemperatureChange(event)]; [value] is
    [parseFloat(event.target.value)].  On the page the event comes from
    the slider, whose value is bounded: see [temperatureInput]. *)
Definition handleTemperatureChange (value : jsnum) (c : Component) : Component :=
  if negb (strictEq (temperature (state c)) value) then
    emitFormChange (validate (set_temperature value c))
  else c.

(** The temperature control of index.html,
    [<input type="range" min="0" max="2" step="0.1" value="1">].  A range
    input keeps its value among min, min + step, ..., max: a value given
    to it that is no number becomes the default, half way between min
    and max; one below min becomes min, one above max becomes max, and
    any other one is rounded to the nearest step, upwards when it lies
    half way.  [sliderValue submitted] is the value that the control
    holds, and that the handler reads, when [submitted] has been given
    to it. *)
Definition slider_min : Q := 0.
Definition slider_max : Q := 2.
Definition slider_step : Q := 1 # 10.

Definition sliderValue (submitted : jsnum) : jsnum :=
  match submitted with
  | Fin q =>
      if Qle_bool slider_min q then
        if Qle_bool q slider_max then
          Fin (slider_min
               + slider_step
                 * inject_Z (Qfloor ((q - slider_min) / slider_step + (1 # 2))))%Q
        else Fin slider_max
      else Fin slider_min
  | _ => Fin (slider_min + (slider_max - slider_min) / 2)%Q
  end.

(** An input event of the temperature control to which [submitted] has
    been given. *)
Definition temperatureInput (submitted : jsnum) (c : Component) : Component :=
  handleTemperatureChange (sliderValue submitted) c.

(** The argument of [handleFormDataSet]: a property is [Some n] when
    [typeof data.x === 'number']. *)
Record FormValues : Type := mkFormValues {
  data_samples : option jsnum;
  data_temperature : option jsnum
}.

(** [handleFormDataSet(data)] *)
Definition handleFormDataSet (data : FormValues) (c : Component) : Component :=
  let '(c1, changed1) :=
    match data_samples data with
    | Some n =>
        if negb (strictEq n (samples (state c)))
        then (set_samples (Math_max samples_min (Math_min samples_max n)) c, true)
        else (c, false)
    | None => (c, false)
    end in
  let '(c2, changed2) :=
    match data_temperature data with
    | Some n =>
        if negb (strictEq n (temperature (state c1)))
        then (set_temperature
                (Math_max temperature_min (Math_min temperature_max n)) c1, true)
        else (c1, false)
    | None => (c1, false)
    end in
  if changed1 || changed2 then validate c2 else c2.

(** [setFormData(data)] *)
Definition setFormData (data : FormValues) (c : Component) : Component :=
  handleFormDataSet data c.

(** [reset()] *)
Definition reset (c : Component) : Component :=
  emitFormChange
    (validate (set_temperature temperature_default
                 (set_samples samples_default c))).

(** [validateSamples()] and [validateTemperature()], which style the two
    fields. *)
Definition validateSamples (c : Component) : bool :=
  isInteger (samples (state c))
  && ge (samples (state c)) samples_min
  && le (samples (state c)) samples_max.

Definition validateTemperature (c : Component) : bool :=
  ge (temperature (state c)) temperature_min
  && le (temperature (state c)) temperature_max.

(** [setupInitialValues()]; [samplesValue] is the value of the samples
    input and [temperatureValue] is [parseFloat] of the value of the
    slider.  [x || d] is [d] when [x] is 0 or NaN. *)
Definition setupInitialValues (samplesValue : string) (temperatureValue : jsnum)
    (c : Component) : Component :=
  let n := parseInt samplesValue None in
  set_temperature
    (if truthy temperatureValue then temperatureValue else temperature_default)
    (set_samples (if truthy n then n else samples_default) c).

(** The constructor followed by [init()], on a page whose inputs hold
    these values. *)
Definition init (samplesValue : string) (temperatureValue : jsnum) : Component :=
  validate (setupInitialValues samplesValue temperatureValue constructor).

End PropertyForm.

(** * Form data shared by the components *)

Module Form.
Import Js.

(** A [File] chosen in a file input: its name and what reading it as text
    gives (the text, or the reader's error). *)
Record File : Type := mkFile {
  fileName : string;
  fileText : Result string
}.

(** The [formData] object.  A property is [None] when it is missing,
    [undefined] or [null]; the code only tests these for truthiness. *)
Record FormData : Type := mkFormData {
  samples : option jsnum;
  temperature : option jsnum;
  scaffold : option string;
  fragment1 : option string;
  fragment2 : option string;
  startingMolecule : option string;
  similarity : option string;
  scaffoldFile : option File;
  fragmentFile : option File;
  transformationFile : option File
}.

(** The object literal [{}]. *)
Definition empty : FormData :=
  {| samples := None; temperature := None; scaffold := None;
     fragment1 := None; fragment2 := None; startingMolecule := None;
     similarity := None; scaffoldFile := None; fragmentFile := None;
     transformationFile := None |}.

(** One property of the payload of a 'form:dataChanged' event. *)
Inductive Change : Type :=
| SetSamples (v : jsnum)
| SetTemperature (v : jsnum)
| SetScaffold (v : string)
| SetFragment1 (v : string)
| SetFragment2 (v : string)
| SetStartingMolecule (v : string)
| SetSimilarity (v : string)
| SetScaffoldFile (f : option File)
| SetFragmentFile (f : option File)
| SetTransformationFile (f : option File).

Definition assign (fd : FormData) (ch : Change) : FormData :=
  match ch with
  | SetSamples v =>
      {| samples := Some v; temperature := temperature fd;
         scaffold := scaffold fd; fragment1 := fragment1 fd;
         fragment2 := fragment2 fd; startingMolecule := startingMolecule fd;
         similarity := similarity fd; scaffoldFile := scaffoldFile fd;
         fragmentFile := fragmentFile fd;
         transformationFile := transformationFile fd |}
  | SetTemperature v =>
      {| samples := samples fd; temperature := Some v;
         scaffold := scaffold fd; fragment1 := fragment1 fd;
         fragment2 := fragment2 fd; startingMolecule := startingMolecule fd;
         similarity := similarity fd; scaffoldFile := scaffoldFile fd;
         fragmentFile := fragmentFile fd;
         transformationFile := transformationFile fd |}
  | SetScaffold v =>
      {| samples := samples fd; temperature := temperature fd;
         scaffold := Some v; fragment1 := fragment1 fd;
         fragment2 := fragment2 fd; startingMolecule := startingMolecule fd;
         similarity := similarity fd; scaffoldFile := scaffoldFile fd;
         fragmentFile := fragmentFile fd;
         transformationFile := transformationFile fd |}
  | SetFragment1 v =>
      {| samples := samples fd; temperature := temperature fd;
         scaffold := scaffold fd; fragment1 := Some v;
         fragment2 := fragment2 fd; startingMolecule := startingMolecule fd;
         similarity := similarity fd; scaffoldFile := scaffoldFile fd;
         fragmentFile := fragmentFile fd;
         transformationFile := transformationFile fd |}
  | SetFragment2 v =>
      {| samples := samples fd; temperature := temperature fd;
         scaffold := scaffold fd; fragment1 := fragment1 fd;
         fragment2 := Some v; startingMolecule := startingMolecule fd;
         similarity := similarity fd; scaffoldFile := scaffoldFile fd;
         fragmentFile := fragmentFile fd;
         transformationFile := transformationFile fd |}
  | SetStartingMolecule v =>
      {| samples := samples fd; temperature := temperature fd;
         scaffold := scaffold fd; fragment1 := fragment1 fd;
         fragment2 := fragment2 fd; startingMolecule := Some v;
         similarity := similarity fd; scaffoldFile := scaffoldFile fd;
         fragmentFile := fragmentFile fd;
         transformationFile := transformationFile fd |}
  | SetSimilarity v =>
      {| samples := samples fd; temperature := temperature fd;
         scaffold := scaffold fd; fragment1 := fragment1 fd;
         fragment2 := fragment2 fd; startingMolecule := startingMolecule fd;
         similarity := Some v; scaffoldFile := scaffoldFile fd;
         fragmentFile := fragmentFile fd;
         transformationFile := transformationFile fd |}
  | SetScaffoldFile f =>
      {| samples := samples fd; temperature := temperature fd;
         scaffold := scaffold fd; fragment1 := fragment1 fd;
         fragment2 := fragment2 fd; startingMolecule := startingMolecule fd;
         similarity := similarity fd; scaffoldFile := f;
         fragmentFile := fragmentFile fd;
         transformationFile := transformationFile fd |}
  | SetFragmentFile f =>
      {| samples := samples fd; temperature := temperature fd;
         scaffold := scaffold fd; fragment1 := fragment1 fd;
         fragment2 := fragment2 fd; startingMolecule := startingMolecule fd;
         similarity := similarity fd; scaffoldFile := scaffoldFile fd;
         fragmentFile := f;
         transformationFile := transformationFile fd |}
  | SetTransformationFile f =>
      {| samples := samples fd; temperature := temperature fd;
         scaffold := scaffold fd; fragment1 := fragment1 fd;
         fragment2 := fragment2 fd; startingMolecule := startingMolecule fd;
         similarity := similarity fd; scaffoldFile := scaffoldFile fd;
         fragmentFile := fragmentFile fd;
         transformationFile := f |}
  end.

(** [{ ...formData, ...changes }] *)
Definition merge (fd : FormData) (changes : list Change) : FormData :=
  fold_left assign changes fd.

(** Truthiness of a string property: missing and empty are falsy. *)
Definition truthyStr (o : option string) : bool :=
  match o with
  | Some s => negb (bool_decide (s = ""))
  | None => false
  end.

Definition truthyFile (o : option File) : bool :=
  match o with Some _ => true | None => false end.

(** [errors.join('; ')] *)
Definition join (sep : string) (l : list string) : string :=
  String.concat sep l.

(** The validation rules that [GenerationController.validateForm] and
    [MolGPTApp.validateFormData] both implement, line for line. *)
Definition validationErrors (currentMode : string) (fd : FormData) : list string :=
  (if negb (truthyOpt (samples fd)) || lt (toNumber (samples fd)) (Fin 1)
   then ["Please enter a sample size ≥ 1"] else [])
  ++ (if gt (toNumber (samples fd)) (Fin 500)
      then ["Sample size cannot exceed 500"] else [])
  ++ (if lt (toNumber (temperature fd)) (Fin 0)
         || gt (toNumber (temperature fd)) (Fin 2)
      then ["Temperature must be between 0 and 2"] else [])
  ++ (if bool_decide (currentMode = "Select Mode")
      then ["Please choose a generator mode"] else [])
  ++ (if bool_decide (currentMode = "Scaffold Decoration")
      then (if negb (truthyStr (scaffold fd)) && negb (truthyFile (scaffoldFile fd))
            then ["Please provide a scaffold SMILES or upload a scaffold file"]
            else [])
      else [])
  ++ (if bool_decide (currentMode = "Fragment Linking")
      then (if negb (truthyFile (fragmentFile fd))
               && (negb (truthyStr (fragment1 fd)) || negb (truthyStr (fragment2 fd)))
            then ["Please provide two fragment SMILES or upload a fragment file"]
            else [])
      else []).

Record Validation : Type := mkValidation {
  isValid : bool;
  errors : list string
}.

Definition validation (currentMode : string) (fd : FormData) : Validation :=
  let errs := validationErrors currentMode fd in
  {| isValid := Nat.eqb (length errs) 0; errors := errs |}.

(** The JSON body of the response of the generation service. *)
Record Molecule : Type := mkMolecule {
  smiles : string;
  valid : option bool
}.

Record GenerationResult : Type := mkGenerationResult {
  generated_molecules : option (list Molecule);
  total_generated : option Z;
  valid_molecules : option Z;
  requestParams_samples : option Z;
  csv_url : option string
}.

End Form.

(** * scripts/components/GenerationController.js *)

Module GenerationController.
Import Js Form.

(** [this.state].  An [AbortController] is named by a number. *)
Record State : Type := mkState {
  isGenerating : bool;
  currentMode : string;
  formData : FormData;
  abortController : option nat
}.

(** The generate button, [this.element]. *)
Record Element : Type := mkElement {
  textContent : string;
  classList : list string;
  disabled : bool;
  ariaBusy : string;
  ariaDescribedby : option string;
  title : string
}.

Definition classList_remove (c : string) (l : list string) : list string :=
  List.filter (fun x => negb (bool_decide (x = c))) l.

Definition classList_add (c : string) (l : list string) : list string :=
  if bool_decide (c ∈ l) then l else l ++ [c].

Definition classList_toggle (c : string) (force : bool) (l : list string)
    : list string :=
  if force then classList_add c l else classList_remove c l.

(** The body sent to the service. *)
Record RequestPayload : Type := mkRequestPayload {
  p_samples : option jsnum;
  p_temperature : option jsnum;
  p_mode : string;
  p_scaffold : option string;
  p_fragment1 : option string;
  p_fragment2 : option string;
  scaffold_file_text : option string;
  fragment_file_text : option string
}.

(** How the race between [fetch] and the timer settles for the code that
    awaits it. *)
Inductive Settled : Type :=
| ResponseOk (data : GenerationResult)
| ResponseNotOk (status statusText errorText : string)
| Rejected (name message : string).

Inductive Payload : Type :=
| NoPayload
| Results (data : GenerationResult)
| Failure (message : string).

(** What the controller does to the outside, in order: an event emitted
    on the bus, a call of [fetch] made by activation [request] with the
    signal of a controller, a call of [abort()]. *)
Inductive Effect : Type :=
| Emit (eventName : string) (payload : Payload)
| Fetch (request : nat) (signal : nat) (body : RequestPayload)
| Abort (controller : nat).

(** Where a call of [startGeneration] is suspended. *)
Inductive Stage : Type :=
| Preparing
| ReadingScaffold (f : File)
| ReadingFragment (f : File)
| Racing.

(** A suspended call of [startGeneration], named by the number of the
    [AbortController] it created. *)
Record Activation : Type := mkActivation {
  act_id : nat;
  act_payload : RequestPayload;
  act_stage : Stage
}.

(** A promise reaction queued for when the running handler returns:
    [makeApiRequest] goes on after [await prepareRequestWithFiles], or the
    race has settled. *)
Inductive Microtask : Type :=
| Continue (a : nat) (body : RequestPayload)
| Settle (a : nat) (r : Settled).

(** The controller in its environment.
    - [suspended]: the calls of [startGeneration] that are waiting;
    - [outstanding]: the requests handed to [fetch] that have neither been
      answered nor aborted, each with the controller of its signal;
    - [aborted]: the controllers whose [abort()] has been called;
    - [microtasks]: promise reactions queued for when the running handler
      returns. *)
Record World : Type := mkWorld {
  state : State;
  element : Element;
  effects : list Effect;
  nextController : nat;
  suspended : list Activation;
  outstanding : list (nat * nat);
  aborted : list nat;
  microtasks : list Microtask
}.

(** The state set by the constructor, before [init]. *)
Definition initialState : State :=
  {| isGenerating := false; currentMode := "Select Mode";
     formData := Form.empty; abortController := None |}.

Definition set_state (st : State) (w : World) : World :=
  {| state := st; element := element w; effects := effects w;
     nextController := nextController w; suspended := suspended w;
     outstanding := outstanding w; aborted := aborted w;
     microtasks := microtasks w |}.

Definition set_element (el : Element) (w : World) : World :=
  {| state := state w; element := el; effects := effects w;
     nextController := nextController w; suspended := suspended w;
     outstanding := outstanding w; aborted := aborted w;
     microtasks := microtasks w |}.

Definition add_effect (e : Effect) (w : World) : World :=
  {| state := state w; element := element w; effects := effects w ++ [e];
     nextController := nextController w; suspended := suspended w;
     outstanding := outstanding w; aborted := aborted w;
     microtasks := microtasks w |}.

Definition set_suspended (l : list Activation) (w : World) : World :=
  {| state := state w; element := element w; effects := effects w;
     nextController := nextController w; suspended := l;
     outstanding := outstanding w; aborted := aborted w;
     microtasks := microtasks w |}.

Definition set_isGenerating (b : bool) (st : State) : State :=
  {| isGenerating := b; currentMode := currentMode st;
     formData := formData st; abortController := abortController st |}.

Definition set_abortController (c : option nat) (st : State) : State :=
  {| isGenerating := isGenerating st; currentMode := currentMode st;
     formData := formData st; abortController := c |}.

(** [validateForm()] *)
Definition validateForm (st : State) : Validation :=
  Form.validation (currentMode st) (formData st).

(** [updateButtonState()] *)
Definition updateButtonState (st : State) (el : Element) : Element :=
  let validation := validateForm st in
  let canGenerate := isValid validation && negb (isGenerating st) in
  let text := if isGenerating st then "Cancel" else "Generate" in
  let classes1 :=
    if isGenerating st
    then classList_add "generate-button--generating" (classList el)
    else classList_remove "generate-button--generating" (classList el) in
  let dis := negb canGenerate && negb (isGenerating st) in
  {| textContent := text;
     classList := classList_toggle "generate-button--disabled" dis classes1;
     disabled := dis;
     ariaBusy := if isGenerating st then "true" else "false";
     ariaDescribedby :=
       if isValid validation then None else Some "generation-errors";
     title :=
       if isValid validation then "" else join "; " (errors validation) |}.

Definition refreshButton (w : World) : World :=
  set_element (updateButtonState (state w) (element w)) w.

(** [handleModeChange(newMode)] *)
Definition handleModeChange (newMode : string) (w : World) : World :=
  refreshButton
    (set_state {| isGenerating := isGenerating (state w);
                  currentMode := newMode;
                  formData := formData (state w);
                  abortController := abortController (state w) |} w).

(** [handleFormDataChange(data)] *)
Definition handleFormDataChange (data : list Change) (w : World) : World :=
  refreshButton
    (set_state {| isGenerating := isGenerating (state w);
                  currentMode := currentMode (state w);
                  formData := merge (formData (state w)) data;
                  abortController := abortController (state w) |} w).

(** [x || ''] for a string property. *)
Definition orEmpty (o : option string) : string :=
  if truthyStr o then default "" o else "".

(** [buildRequestPayload()] *)
Definition buildRequestPayload (st : State) : RequestPayload :=
  let fd := formData st in
  {| p_samples := samples fd;
     p_temperature := temperature fd;
     p_mode := currentMode st;
     p_scaffold :=
       if bool_decide (currentMode st = "Scaffold Decoration")
       then Some (orEmpty (scaffold fd)) else None;
     p_fragment1 :=
       if bool_decide (currentMode st = "Fragment Linking")
       then Some (orEmpty (fragment1 fd)) else None;
     p_fragment2 :=
       if bool_decide (currentMode st = "Fragment Linking")
       then Some (orEmpty (fragment2 fd)) else None;
     scaffold_file_text := None;
     fragment_file_text := None |}.

Definition with_scaffold_text (t : string) (p : RequestPayload) : RequestPayload :=
  {| p_samples := p_samples p; p_temperature := p_temperature p;
     p_mode := p_mode p; p_scaffold := p_scaffold p;
     p_fragment1 := p_fragment1 p; p_fragment2 := p_fragment2 p;
     scaffold_file_text := Some t;
     fragment_file_text := fragment_file_text p |}.

Definition with_fragment_text (t : string) (p : RequestPayload) : RequestPayload :=
  {| p_samples := p_samples p; p_temperature := p_temperature p;
     p_mode := p_mode p; p_scaffold := p_scaffold p;
     p_fragment1 := p_fragment1 p; p_fragment2 := p_fragment2 p;
     scaffold_file_text := scaffold_file_text p;
     fragment_file_text := Some t |}.

(** [handleGenerationSuccess(results)] and [handleGenerationError(error)] *)
Definition handleGenerationSuccess (results : GenerationResult) (w : World) : World :=
  add_effect (Emit "generation:complete" (Results results)) w.

Definition handleGenerationError (message : string) (w : World) : World :=
  add_effect (Emit "generation:error" (Failure message)) w.

(** The [finally] block of [startGeneration]. *)
Definition cleanUp (w : World) : World :=
  refreshButton
    (set_state {| isGenerating := false;
                  currentMode := currentMode (state w);
                  formData := formData (state w);
                  abortController := None |} w).

Definition removeActivation (a : nat) (w : World) : World :=
  set_suspended
    (List.filter (fun x => negb (Nat.eqb (act_id x) a)) (suspended w)) w.

(** [startGeneration] ends by throwing [message]: its catch block, its
    finally block, then the catch block of [handleClick]. *)
Definition fail (a : nat) (message : string) (w : World) : World :=
  handleGenerationError message
    (cleanUp (handleGenerationError message (removeActivation a w))).

(** The rest of [makeApiRequest] and of [startGeneration] once the race
    has settled. *)
Definition resume (a : nat) (r : Settled) (w : World) : World :=
  match r with
  | ResponseOk data =>
      cleanUp (handleGenerationSuccess data (removeActivation a w))
  | ResponseNotOk status statusText errorText =>
      fail a ("API request failed: " +:+ status +:+ " " +:+ statusText
              +:+ " - " +:+ errorText) w
  | Rejected name message =>
      if bool_decide (name = "AbortError")
      then fail a "Generation was cancelled" w
      else fail a message w
  end.

Definition setStage (a : nat) (body : RequestPayload) (stage : Stage)
    (w : World) : World :=
  set_suspended
    (map (fun x => if Nat.eqb (act_id x) a
                   then {| act_id := a; act_payload := body; act_stage := stage |}
                   else x) (suspended w)) w.

Definition add_microtask (t : Microtask) (w : World) : World :=
  {| state := state w; element := element w; effects := effects w;
     nextController := nextController w; suspended := suspended w;
     outstanding := outstanding w; aborted := aborted w;
     microtasks := microtasks w ++ [t] |}.

(** The part of [makeApiRequest] after [await prepareRequestWithFiles]:
    the signal is read from [this.state.abortController] at that moment. *)
Definition issueRequest (a : nat) (body : RequestPayload) (w : World) : World :=
  match abortController (state w) with
  | None =>
      fail a "Cannot read properties of null (reading 'signal')" w
  | Some signal =>
      let w1 := add_effect (Fetch a signal body) w in
      if bool_decide (signal ∈ aborted w) then
        resume a (Rejected "AbortError" "The user aborted a request.") w1
      else
        {| state := state w1; element := element w1; effects := effects w1;
           nextController := nextController w1;
           suspended := suspended (setStage a body Racing w1);
           outstanding := outstanding w1 ++ [(a, signal)];
           aborted := aborted w1;
           microtasks := microtasks w1 |}
  end.

(** [prepareRequestWithFiles], from the test of the fragment file on:
    the reader is started, or the function returns and [makeApiRequest]
    goes on in a reaction. *)
Definition prepareFragment (a : nat) (body : RequestPayload) (w : World) : World :=
  match fragmentFile (formData (state w)) with
  | Some f => setStage a body (ReadingFragment f) w
  | None => add_microtask (Continue a body) (setStage a body Preparing w)
  end.

(** [startGeneration()], up to the first point where it waits. *)
Definition startGeneration (w : World) : World :=
  let validation := validateForm (state w) in
  if negb (isValid validation) then
    (* thrown here, caught by [handleClick] *)
    handleGenerationError (join "; " (errors validation)) w
  else
    let w1 := refreshButton (set_state (set_isGenerating true (state w)) w) in
    let w2 := add_effect (Emit "generation:start" NoPayload) w1 in
    let payload := buildRequestPayload (state w2) in
    let a := nextController w2 in
    let w3 :=
      {| state := set_abortController (Some a) (state w2);
         element := element w2; effects := effects w2;
         nextController := S a;
         suspended := suspended w2;
         outstanding := outstanding w2; aborted := aborted w2;
         microtasks := microtasks w2 |} in
    let w4 :=
      set_suspended
        (suspended w3 ++ [{| act_id := a; act_payload := payload;
                             act_stage := Preparing |}]) w3 in
    match scaffoldFile (formData (state w4)) with
    | Some f => setStage a payload (ReadingScaffold f) w4
    | None => prepareFragment a payload w4
    end.

(** [abortController.abort()]: the requests made with this signal are
    rejected; the calls waiting for them resume after the handler. *)
Definition abort (c : nat) (w : World) : World :=
  let hit := List.filter (fun r => Nat.eqb (snd r) c) (outstanding w) in
  {| state := state w; element := element w;
     effects := effects w ++ [Abort c];
     nextController := nextController w;
     suspended := suspended w;
     outstanding := List.filter (fun r => negb (Nat.eqb (snd r) c)) (outstanding w);
     aborted := aborted w ++ [c];
     microtasks :=
       microtasks w
       ++ map (fun r => Settle (fst r)
                          (Rejected "AbortError" "The user aborted a request."))
              hit |}.

(** [cancelGeneration()] *)
Definition cancelGeneration (w : World) : World :=
  let w1 :=
    match abortController (state w) with
    | Some c => abort c w
    | None => w
    end in
  let w2 := refreshButton (set_state (set_isGenerating false (state w1)) w1) in
  add_effect (Emit "generation:cancelled" NoPayload) w2.

(** [handleClick(event)], up to the point where the handler returns. *)
Definition handleClick (w : World) : World :=
  if isGenerating (state w) then cancelGeneration w
  else startGeneration w.

Definition isRacing (a : nat) (w : World) : bool :=
  existsb (fun x => Nat.eqb (act_id x) a
                    && match act_stage x with Racing => true | _ => false end)
          (suspended w).

Definition isPreparing (a : nat) (w : World) : bool :=
  existsb (fun x => Nat.eqb (act_id x) a
                    && match act_stage x with Preparing => true | _ => false end)
          (suspended w).

Definition react (w : World) (t : Microtask) : World :=
  match t with
  | Continue a body => if isPreparing a w then issueRequest a body w else w
  | Settle a r => if isRacing a w then resume a r w else w
  end.

(** Run the queued promise reactions. *)
Definition drain (w : World) : World :=
  fold_left react (microtasks w)
    {| state := state w; element := element w; effects := effects w;
       nextController := nextController w; suspended := suspended w;
       outstanding := outstanding w; aborted := aborted w;
       microtasks := [] |}.

(** What the event loop delivers to the controller. *)
Inductive Event : Type :=
| Click
| ModeChanged (newMode : string)
| FormDataChanged (data : list Change)
| FileRead (a : nat)
| TimeoutFires (a : nat)
| ResponseArrives (a : nat) (r : Settled).

Definition stageOf (a : nat) (w : World) : option Activation :=
  List.find (fun x => Nat.eqb (act_id x) a) (suspended w).

(** The reader of activation [a] has finished. *)
Definition fileRead (a : nat) (w : World) : World :=
  match stageOf a w with
  | Some x =>
      match act_stage x with
      | ReadingScaffold f =>
          let body :=
            match fileText f with
            | Ok t => with_scaffold_text t (act_payload x)
            | Error _ => act_payload x
            end in
          prepareFragment a body w
      | ReadingFragment f =>
          let body :=
            match fileText f with
            | Ok t => with_fragment_text t (act_payload x)
            | Error _ => act_payload x
            end in
          issueRequest a body w
      | Preparing | Racing => w
      end
  | None => w
  end.

(** One turn of the event loop: the handler, then the queued reactions.
    A response is delivered with its body read. *)
Definition step (e : Event) (w : World) : World :=
  match e with
  | Click => drain (handleClick w)
  | ModeChanged newMode => handleModeChange newMode w
  | FormDataChanged data => handleFormDataChange data w
  | FileRead a => drain (fileRead a w)
  | TimeoutFires a =>
      if isRacing a w then resume a (Rejected "Error" "Request timeout") w
      else w
  | ResponseArrives a r =>
      if bool_decide (a ∈ map fst (outstanding w)) then
        let w1 :=
          {| state := state w; element := element w; effects := effects w;
             nextController := nextController w; suspended := suspended w;
             outstanding :=
               List.filter (fun x => negb (Nat.eqb (fst x) a)) (outstanding w);
             aborted := aborted w; microtasks := microtasks w |} in
        if isRacing a w1 then resume a r w1 else w1
      else w
  end.

(** The events of a list, delivered in order. *)
Definition run (es : list Event) (w : World) : World :=
  fold_left (fun w' e => step e w') es w.

(** The calls of [fetch] that a log shows. *)
Definition fetches (l : list Effect) : list Effect :=
  List.filter (fun e => match e with Fetch _ _ _ => true | _ => false end) l.

(** The button shows what [updateButtonState] makes of the current
    state: another call of it would change nothing. *)
Definition upToDate (w : World) : Prop :=
  element w = updateButtonState (state w) (element w).

End GenerationController.

(** * main.js, the application (src/unnamed/part_004) *)

Module MolGPTApp.
Import Js Form.

Record State : Type := mkState {
  currentMode : string;
  isGenerating : bool;
  formData : FormData
}.

(** [getDefaultFormData()] *)
Definition getDefaultFormData : FormData :=
  {| samples := Some (Fin 0);
     temperature := Some (Fin 1.0);
     scaffold := Some "";
     fragment1 := Some "";
     fragment2 := Some "";
     startingMolecule := None;
     similarity := None;
     scaffoldFile := None;
     fragmentFile := None;
     transformationFile := None |}.

(** What the application passes on: updates of the UI state manager and
    events on the bus. *)
Inductive Effect : Type :=
| UpdateMode (mode previousMode : string)
| UpdateValidity (formValid : bool) (formErrors : list string)
| EmitModeChanged (current previous : string) (formData : FormData).

Record App : Type := mkApp {
  state : State;
  effects : list Effect
}.

(** The state set by the constructor. *)
Definition constructor : App :=
  {| state := {| currentMode := "Select Mode"; isGenerating := false;
                 formData := getDefaultFormData |};
     effects := [] |}.

(** [handleModeChange(newMode)] *)
Definition handleModeChange (newMode : string) (app : App) : App :=
  let previousMode := currentMode (state app) in
  let old := formData (state app) in
  let d := getDefaultFormData in
  (* { ...this.getDefaultFormData(), ...preservedData } *)
  let fd :=
    {| samples := samples old;
       temperature := temperature old;
       scaffold := scaffold d;
       fragment1 := fragment1 d;
       fragment2 := fragment2 d;
       startingMolecule := startingMolecule d;
       similarity := similarity d;
       scaffoldFile := scaffoldFile d;
       fragmentFile := fragmentFile d;
       transformationFile := transformationFile d |} in
  {| state := {| currentMode := newMode;
                 isGenerating := isGenerating (state app);
                 formData := fd |};
     effects := effects app
                ++ [UpdateMode newMode previousMode;
                    EmitModeChanged newMode previousMode fd] |}.

(** [validateFormData()] *)
Definition validateFormData (st : State) : Validation :=
  Form.validation (currentMode st) (formData st).

(** [handleFormDataChange(changes)] *)
Definition handleFormDataChange (changes : list Change) (app : App) : App :=
  let st := {| currentMode := currentMode (state app);
               isGenerating := isGenerating (state app);
               formData := merge (formData (state app)) changes |} in
  let validation := validateFormData st in
  {| state := st;
     effects := effects app
                ++ [UpdateValidity (isValid validation) (errors validation)] |}.

End MolGPTApp.

(** * The elements the mode manager works on *)

Module Dom.

(** A text input: its [data-input] attribute, its value and its classes. *)
Record Input : Type := mkInput {
  dataInput : option string;
  value : string;
  classList : list string
}.

Definition classList_remove (c : string) (l : list string) : list string :=
  List.filter (fun x => negb (bool_decide (x = c))) l.

Definition classList_add (c : string) (l : list string) : list string :=
  if bool_decide (c ∈ l) then l else l ++ [c].

(** [this.elements]: an element the page lacks is [None].  A file input
    is represented by its value, a label by its text, the similarity
    select by its selected index. *)
Record Elements : Type := mkElements {
  scaffoldSmilesInput : option Input;
  fragment1Input : option Input;
  fragment2Input : option Input;
  startingMoleculeInput : option Input;
  scaffoldFileInput : option string;
  fragmentFileInput : option string;
  transformationFileInput : option string;
  scaffoldLabel : option string;
  fragmentLabel : option string;
  transformationLabel : option string;
  similaritySelect : option nat
}.

Record State : Type := mkState {
  currentMode : string;
  formData : Form.FormData
}.

(** The component, with the payloads of the 'form:dataChanged' events it
    has emitted. *)
Record Component : Type := mkComponent {
  state : State;
  elements : Elements;
  emitted : list (list Form.Change)
}.

(** [input.value = ''; input.classList.remove(valid, invalid)] *)
Definition clearInput (i : Input) : Input :=
  {| dataInput := dataInput i;
     value := "";
     classList :=
       classList_remove "input-group__input--invalid"
         (classList_remove "input-group__input--valid" (classList i)) |}.

(** The argument of [handleModeChange]: a mode string, or the object
    [{current, previous, formData}] of 'app:modeChanged'. *)
Inductive ModeArg : Type :=
| ModeString (mode : string)
| ModeObject (current previous : string).

Definition modeOf (a : ModeArg) : string :=
  match a with
  | ModeString m => m
  | ModeObject current _ => current
  end.

(** The test [/^[...]+$/.test(value)]: the value is not empty and each of
    its characters belongs to the class. *)
Fixpoint allChars (p : ascii → bool) (s : string) : bool :=
  match s with
  | EmptyString => true
  | String c r => p c && allChars p r
  end.

Definition matchesClass (p : ascii → bool) (s : string) : bool :=
  Nat.ltb 0 (String.length s) && allChars p s.

Definition isLetterOrDigit (c : ascii) : bool :=
  let n := nat_of_ascii c in
  (Nat.leb 65 n && Nat.leb n 90) || (Nat.leb 97 n && Nat.leb n 122)
  || (Nat.leb 48 n && Nat.leb n 57).

(** The class [A-Za-z0-9\(\)\[\]@=#\-\+\.\\\/:] *)
Definition smilesChar (c : ascii) : bool :=
  isLetterOrDigit c
  || existsb (Nat.eqb (nat_of_ascii c))
       [40; 41; 91; 93; 64; 61; 35; 45; 43; 46; 92; 47; 58].

(** The class [A-Za-z0-9\(\)\[\]@=#\-\+\.\\\/:*] *)
Definition smilesCharOrStar (c : ascii) : bool :=
  smilesChar c || Nat.eqb (nat_of_ascii c) 42.

(** [validateInput(input, value)] for a given character class. *)
Definition validateInputWith (class : ascii → bool) (input : Input)
    (v : string) : Input :=
  let classes :=
    classList_remove "input-group__input--invalid"
      (classList_remove "input-group__input--valid" (classList input)) in
  let isValid :=
    match dataInput input with
    | Some inputType =>
        if Js.includes inputType "smiles"
        then Nat.ltb 0 (String.length v) && matchesClass class v
        else true
    | None => true
    end in
  {| dataInput := dataInput input;
     value := value input;
     classList :=
       if Nat.ltb 0 (String.length v)
       then classList_add (if isValid then "input-group__input--valid"
                           else "input-group__input--invalid") classes
       else classes |}.

End Dom.

(** * scripts/components/ModeManager.js *)

Module ModeManager.
Import Dom.

(** [validateInput(input, value)] *)
Definition validateInput (input : Input) (v : string) : Input :=
  validateInputWith smilesChar input v.

(** [clearFormData()].  This copy knows the scaffold and fragment inputs
    only. *)
Definition clearFormData (c : Component) : Component :=
  let e := elements c in
  {| state := {| currentMode := currentMode (state c);
                 formData := Form.empty |};
     elements :=
       {| scaffoldSmilesInput := clearInput <$> scaffoldSmilesInput e;
          fragment1Input := clearInput <$> fragment1Input e;
          fragment2Input := clearInput <$> fragment2Input e;
          startingMoleculeInput := startingMoleculeInput e;
          scaffoldFileInput := (fun _ => "") <$> scaffoldFileInput e;
          fragmentFileInput := (fun _ => "") <$> fragmentFileInput e;
          transformationFileInput := transformationFileInput e;
          scaffoldLabel := (fun _ => "No file chosen") <$> scaffoldLabel e;
          fragmentLabel := (fun _ => "No file chosen") <$> fragmentLabel e;
          transformationLabel := transformationLabel e;
          similaritySelect := similaritySelect e |};
     emitted := emitted c |}.

(** [handleModeChange(newMode)]; the change of the instructions and of
    the visible form is left out. *)
Definition handleModeChange (newMode : ModeArg) (c : Component) : Component :=
  let mode := modeOf newMode in
  if bool_decide (mode = currentMode (state c)) then c
  else
    clearFormData
      {| state := {| currentMode := mode; formData := formData (state c) |};
         elements := elements c;
         emitted := emitted c |}.

End ModeManager.

(** * The copy of ModeManager.js with the transformation form
      (src/unnamed/part_003) *)

Module ModeManagerTransformation.
Import Dom.

(** [validateInput(input, value)] *)
Definition validateInput (input : Input) (v : string) : Input :=
  validateInputWith smilesCharOrStar input v.

(** [clearFormData()] *)
Definition clearFormData (c : Component) : Component :=
  let e := elements c in
  {| state := {| currentMode := currentMode (state c);
                 formData := Form.empty |};
     elements :=
       {| scaffoldSmilesInput := clearInput <$> scaffoldSmilesInput e;
          fragment1Input := clearInput <$> fragment1Input e;
          fragment2Input := clearInput <$> fragment2Input e;
          startingMoleculeInput := clearInput <$> startingMoleculeInput e;
          scaffoldFileInput := (fun _ => "") <$> scaffoldFileInput e;
          fragmentFileInput := (fun _ => "") <$> fragmentFileInput e;
          transformationFileInput := (fun _ => "") <$> transformationFileInput e;
          scaffoldLabel := (fun _ => "No file chosen") <$> scaffoldLabel e;
          fragmentLabel := (fun _ => "No file chosen") <$> fragmentLabel e;
          transformationLabel := (fun _ => "No file chosen") <$> transformationLabel e;
          similaritySelect := (fun _ => 0) <$> similaritySelect e |};
     emitted := emitted c |}.

(** [handleModeChange(newMode)]; the change of the instructions and of
    the visible form is left out. *)
Definition handleModeChange (newMode : ModeArg) (c : Component) : Component :=
  let mode := modeOf newMode in
  if bool_decide (mode = currentMode (state c)) then c
  else
    clearFormData
      {| state := {| currentMode := mode; formData := formData (state c) |};
         elements := elements c;
         emitted := emitted c |}.

(** The text inputs that carry a listener. *)
Inductive Field : Type :=
| ScaffoldSmiles
| Fragment1Smiles
| Fragment2Smiles
| StartingMoleculeSmiles.

(** [fieldMapping[inputType]] as a property of the payload. *)
Definition fieldChange (f : Field) (v : string) : Form.Change :=
  match f with
  | ScaffoldSmiles => Form.SetScaffold v
  | Fragment1Smiles => Form.SetFragment1 v
  | Fragment2Smiles => Form.SetFragment2 v
  | StartingMoleculeSmiles => Form.SetStartingMolecule v
  end.

Definition inputOf (f : Field) (e : Elements) : option Input :=
  match f with
  | ScaffoldSmiles => scaffoldSmilesInput e
  | Fragment1Smiles => fragment1Input e
  | Fragment2Smiles => fragment2Input e
  | StartingMoleculeSmiles => startingMoleculeInput e
  end.

Definition setInput (f : Field) (i : Input) (e : Elements) : Elements :=
  {| scaffoldSmilesInput :=
       match f with ScaffoldSmiles => Some i | _ => scaffoldSmilesInput e end;
     fragment1Input :=
       match f with Fragment1Smiles => Some i | _ => fragment1Input e end;
     fragment2Input :=
       match f with Fragment2Smiles => Some i | _ => fragment2Input e end;
     startingMoleculeInput :=
       match f with StartingMoleculeSmiles => Some i | _ => startingMoleculeInput e end;
     scaffoldFileInput := scaffoldFileInput e;
     fragmentFileInput := fragmentFileInput e;
     transformationFileInput := transformationFileInput e;
     scaffoldLabel := scaffoldLabel e;
     fragmentLabel := fragmentLabel e;
     transformationLabel := transformationLabel e;
     similaritySelect := similaritySelect e |}.

(** [handleInputChange(event)] for an 'input' or 'blur' event on the text
    input [f], which holds [typed]. *)
Definition handleInputChange (f : Field) (typed : string) (c : Component)
    : Component :=
  match inputOf f (elements c) with
  | None => c
  | Some input0 =>
      let input := {| dataInput := dataInput input0; value := typed;
                      classList := classList input0 |} in
      let v := Js.trim typed in
      let change := fieldChange f v in
      {| state := {| currentMode := currentMode (state c);
                     formData := Form.assign (formData (state c)) change |};
         elements := setInput f (validateInput input v) (elements c);
         emitted := emitted c ++ [[change]] |}
  end.

(** An entry of [this.modeConfigs], without its texts. *)
Record Config : Type := mkConfig {
  hasForm : bool;
  formType : option string
}.

(** [this.modeConfigs[mode]] *)
Definition modeConfigs (mode : string) : option Config :=
  if bool_decide (mode = "Select Mode") then
    Some {| hasForm := false; formType := None |}
  else if bool_decide (mode = "De Novo Generation") then
    Some {| hasForm := false; formType := None |}
  else if bool_decide (mode = "Scaffold Decoration") then
    Some {| hasForm := true; formType := Some "scaffold" |}
  else if bool_decide (mode = "Fragment Linking") then
    Some {| hasForm := true; formType := Some "fragment" |}
  else if bool_decide (mode = "Molecular Transformation") then
    Some {| hasForm := true; formType := Some "transformation" |}
  else if bool_decide (mode = "Peptide Design") then
    Some {| hasForm := false; formType := None |}
  else None.

(** [getFormModeKey(formType)] *)
Definition getFormModeKey (formType : string) : string :=
  if bool_decide (formType = "scaffold") then "Scaffold Decoration"
  else if bool_decide (formType = "fragment") then "Fragment Linking"
  else if bool_decide (formType = "transformation")
       then "Molecular Transformation"
  else "".

(** The mode forms of the page, each named by its [data-mode-form]
    attribute: those the page has, those that carry the class
    'mode-form--active', and the timers set by [updateFormVisibility]
    that have not fired yet, oldest first, each with the form it will
    activate. *)
Record Forms : Type := mkForms {
  present : list string;
  active : list string;
  timers : list string
}.

(** [updateFormVisibility(config)], up to the call of [setTimeout]. *)
Definition updateFormVisibility (config : Config) (v : Forms) : Forms :=
  let hidden := {| present := present v; active := []; timers := timers v |} in
  match formType config with
  | Some ft =>
      if hasForm config && negb (bool_decide (ft = "")) then
        let key := getFormModeKey ft in
        if bool_decide (key ∈ present v) then
          {| present := present v; active := [];
             timers := timers v ++ [key] |}
        else hidden
      else hidden
  | None => hidden
  end.

(** [updateModeContent(mode)], as far as the forms go. *)
Definition updateModeContent (mode : string) (v : Forms) : Forms :=
  match modeConfigs mode with
  | None => v
  | Some config => updateFormVisibility config v
  end.

(** The oldest timer fires: [targetForm.classList.add('mode-form--active')]. *)
Definition timerFires (v : Forms) : Forms :=
  match timers v with
  | [] => v
  | key :: rest =>
      {| present := present v; active := classList_add key (active v);
         timers := rest |}
  end.

(** The component with its forms. *)
Record Manager : Type := mkManager {
  component : Component;
  forms : Forms
}.

(** [handleModeChange(newMode)] with the change of the visible form. *)
Definition handleModeChangeWithForms (newMode : ModeArg) (m : Manager) : Manager :=
  let mode := modeOf newMode in
  if bool_decide (mode = currentMode (state (component m))) then m
  else
    {| component := handleModeChange newMode (component m);
       forms := updateModeContent mode (forms m) |}.

(** What happens to the mode manager: a mode is announced, or the oldest
    timer fires. *)
Inductive FormEvent : Type :=
| ModeAnnounced (newMode : ModeArg)
| TimerFired.

Definition formStep (m : Manager) (e : FormEvent) : Manager :=
  match e with
  | ModeAnnounced newMode => handleModeChangeWithForms newMode m
  | TimerFired => {| component := component m; forms := timerFires (forms m) |}
  end.

End ModeManagerTransformation.

(** * components/ResultsDisplay.js (src/unnamed/part_002, the copy with
      the download link) *)

Module ResultsDisplay.
Import Form.

(** The double quote and the line feed, and a quoted attribute value. *)
Definition dq : string := String (ascii_of_nat 34) EmptyString.
Definition nl : string := String (ascii_of_nat 10) EmptyString.
Definition q (s : string) : string := dq +:+ s +:+ dq.

(** [s.replace(/c/g, by)] for a one-character pattern. *)
Fixpoint replaceAll (c : ascii) (by_ : string) (s : string) : string :=
  match s with
  | EmptyString => EmptyString
  | String a r =>
      if Ascii.eqb a c then by_ +:+ replaceAll c by_ r
      else String a (replaceAll c by_ r)
  end.

(** [escapeHtml(unsafe)] *)
Definition escapeHtml (unsafe : string) : string :=
  replaceAll (ascii_of_nat 39) "&#039;"
    (replaceAll (ascii_of_nat 34) "&quot;"
       (replaceAll (ascii_of_nat 62) "&gt;"
          (replaceAll (ascii_of_nat 60) "&lt;"
             (replaceAll (ascii_of_nat 38) "&amp;" unsafe)))).

Record State : Type := mkState {
  isLoading : bool;
  results : option GenerationResult;
  error : option string;
  lastGeneration : option string
}.

(** [this.elements.content] *)
Record Content : Type := mkContent {
  innerHTML : string;
  ariaLive : option string;
  ariaLabel : option string;
  scrollTop : nat
}.

Record Component : Type := mkComponent {
  state : State;
  content : Content
}.

(** The origin the download link is resolved against; the code takes it
    from [process.env.API_BASE] when that is set. *)
Definition API_BASE : string := "https://molgpt-be.onrender.com".

(** [createGenerationTimestamp(csvUrl)]; [lastGeneration] holds the time
    as [toLocaleTimeString] prints it. *)
Definition createGenerationTimestamp (st : State) (csvUrl : option string)
    : string :=
  match lastGeneration st with
  | None => ""
  | Some timestamp =>
      let fullCsvUrl :=
        match csvUrl with
        | Some u =>
            if bool_decide (u = "") then None
            else Some (if Js.startsWith u "/" then API_BASE +:+ u else u)
        | None => None
        end in
      let downloadButton :=
        match fullCsvUrl with
        | Some u =>
            if bool_decide (u = "") then ""
            else
              nl +:+ "            <a href=" +:+ q u +:+ " download class="
              +:+ q "results__download-button" +:+ ">" +:+ nl
              +:+ "                Download CSV" +:+ nl
              +:+ "            </a>" +:+ nl
              +:+ "        "
        | None => ""
        end in
      nl +:+ "            <div class=" +:+ q "results__timestamp-container"
      +:+ ">" +:+ nl
      +:+ "                <p class=" +:+ q "results__timestamp" +:+ ">" +:+ nl
      +:+ "                    Generated at " +:+ timestamp +:+ nl
      +:+ "                </p>" +:+ nl
      +:+ "                " +:+ downloadButton +:+ nl
      +:+ "            </div>" +:+ nl
      +:+ "        "
  end.

(** [createResultsSummary(total, valid, requestParams, csvUrl)]; the
    counts are printed in full, as JavaScript prints them below 10^21. *)
Definition createResultsSummary (st : State) (total valid : Z)
    (samples : Z) (csvUrl : option string) : string :=
  let summaryMessage :=
    "Generated: " +:+ pretty total +:+ ", Valid: " +:+ pretty valid in
  let contextMessage :=
    if (0 <? samples)%Z && negb (total =? samples)%Z
    then " (Expected " +:+ pretty samples +:+ " samples)"
    else "" in
  nl +:+ "            <div class=" +:+ q "results__summary" +:+ ">" +:+ nl
  +:+ "                <p class=" +:+ q "results__status" +:+ ">" +:+ nl
  +:+ "                    <strong>Generation Complete!</strong> " +:+ nl
  +:+ "                    " +:+ summaryMessage +:+ contextMessage +:+ nl
  +:+ "                </p>" +:+ nl
  +:+ "                " +:+ createGenerationTimestamp st csvUrl +:+ nl
  +:+ "            </div>" +:+ nl
  +:+ "        ".

(** [createMoleculeItem(molecule, index)] *)
Definition createMoleculeItem (molecule : Molecule) (index : nat) : string :=
  let isValid := default true (valid molecule) in
  let validityClass :=
    if isValid then "results__molecule-item--valid"
    else "results__molecule-item--invalid" in
  let validityLabel :=
    if isValid then ""
    else "<span class=" +:+ q "results__validity-indicator"
         +:+ ">(invalid)</span>" in
  nl +:+ "            <div class="
  +:+ q ("results__molecule-item " +:+ validityClass) +:+ ">" +:+ nl
  +:+ "                <span class=" +:+ q "results__molecule-index" +:+ ">"
  +:+ pretty (S index) +:+ ":</span>" +:+ nl
  +:+ "                <code class=" +:+ q "results__molecule-code" +:+ ">"
  +:+ escapeHtml (smiles molecule) +:+ "</code>" +:+ nl
  +:+ "                " +:+ validityLabel +:+ nl
  +:+ "            </div>" +:+ nl
  +:+ "        ".

(** [molecules.map((molecule, index) => ...).join('')] *)
Fixpoint moleculeItems (molecules : list Molecule) (index : nat) : string :=
  match molecules with
  | [] => ""
  | m :: rest => createMoleculeItem m index +:+ moleculeItems rest (S index)
  end.

(** [createMoleculesList(molecules)] *)
Definition createMoleculesList (molecules : list Molecule) : string :=
  match molecules with
  | [] =>
      nl +:+ "                <div class=" +:+ q "results__empty" +:+ ">" +:+ nl
      +:+ "                    <p>No molecules generated. Please try adjusting your parameters.</p>"
      +:+ nl
      +:+ "                </div>" +:+ nl
      +:+ "            "
  | _ =>
      nl +:+ "            <div class=" +:+ q "results__molecule-list"
      +:+ " id=" +:+ q "mol-list" +:+ ">" +:+ nl
      +:+ "                " +:+ moleculeItems molecules 0 +:+ nl
      +:+ "            </div>" +:+ nl
      +:+ "        "
  end.

(** [renderResults(results)] *)
Definition renderResults (r : GenerationResult) (c : Component) : Component :=
  let molecules := default [] (generated_molecules r) in
  let total := default 0%Z (total_generated r) in
  let valid := default 0%Z (valid_molecules r) in
  let samples := default 0%Z (requestParams_samples r) in
  let summaryHTML :=
    createResultsSummary (state c) total valid samples (csv_url r) in
  let moleculesHTML := createMoleculesList molecules in
  let resultsHTML :=
    nl +:+ "            " +:+ summaryHTML +:+ nl
    +:+ "            " +:+ moleculesHTML +:+ nl
    +:+ "        " in
  {| state := state c;
     content :=
       {| innerHTML := resultsHTML;
          ariaLive := Some "polite";
          ariaLabel :=
            Some ("Generation results: Generated: " +:+ pretty total
                  +:+ ", Valid: " +:+ pretty valid);
          scrollTop := 0 |} |}.

(** [renderProgress(message)] *)
Definition renderProgress (message : string) (c : Component) : Component :=
  let progressHTML :=
    nl +:+ "            <div class=" +:+ q "results__loading" +:+ ">" +:+ nl
    +:+ "                <div class=" +:+ q "results__loading-indicator" +:+ ">" +:+ nl
    +:+ "                    <div class=" +:+ q "results__spinner" +:+ "></div>" +:+ nl
    +:+ "                    <p class=" +:+ q "results__loading-text" +:+ ">"
    +:+ escapeHtml message +:+ "</p>" +:+ nl
    +:+ "                </div>" +:+ nl
    +:+ "            </div>" +:+ nl
    +:+ "        " in
  {| state := state c;
     content :=
       {| innerHTML := progressHTML;
          ariaLive := Some "polite";
          ariaLabel := Some message;
          scrollTop := scrollTop (content c) |} |}.

(** [renderError(errorMessage)] *)
Definition renderError (errorMessage : string) (c : Component) : Component :=
  let errorHTML :=
    nl +:+ "            <div class=" +:+ q "results__error" +:+ ">" +:+ nl
    +:+ "                <div class=" +:+ q "results__error-icon" +:+ ">⚠️</div>" +:+ nl
    +:+ "                <div class=" +:+ q "results__error-content" +:+ ">" +:+ nl
    +:+ "                    <h3 class=" +:+ q "results__error-title"
    +:+ ">Generation Error</h3>" +:+ nl
    +:+ "                    <p class=" +:+ q "results__error-message" +:+ ">"
    +:+ escapeHtml errorMessage +:+ "</p>" +:+ nl
    +:+ "                    <p class=" +:+ q "results__error-suggestion" +:+ ">" +:+ nl
    +:+ "                        Please check your inputs and try again. If the problem persists, "
    +:+ nl
    +:+ "                        ensure the API server is running and accessible."
    +:+ nl
    +:+ "                    </p>" +:+ nl
    +:+ "                </div>" +:+ nl
    +:+ "            </div>" +:+ nl
    +:+ "        " in
  {| state := state c;
     content :=
       {| innerHTML := errorHTML;
          ariaLive := Some "assertive";
          ariaLabel := Some ("Error: " +:+ errorMessage);
          scrollTop := scrollTop (content c) |} |}.

(** [clearContent()] *)
Definition clearContent (c : Component) : Component :=
  {| state := state c;
     content := {| innerHTML := ""; ariaLive := None; ariaLabel := None;
                   scrollTop := scrollTop (content c) |} |}.

(** [handleResultsDisplay(results)]; [now] is [new Date()] as
    [toLocaleTimeString] prints it. *)
Definition handleResultsDisplay (r : GenerationResult) (now : string)
    (c : Component) : Component :=
  renderResults r
    {| state := {| isLoading := false; results := Some r; error := None;
                   lastGeneration := Some now |};
       content := content c |}.

(** [handleShowProgress(message)] *)
Definition handleShowProgress (message : string) (c : Component) : Component :=
  renderProgress message
    {| state := {| isLoading := true; results := results (state c);
                   error := None;
                   lastGeneration := lastGeneration (state c) |};
       content := content c |}.

(** [handleShowError(error)], for an error whose message is
    [errorMessage]. *)
Definition handleShowError (errorMessage : string) (c : Component) : Component :=
  renderError errorMessage
    {| state := {| isLoading := false; results := None;
                   error := Some errorMessage;
                   lastGeneration := lastGeneration (state c) |};
       content := content c |}.

(** [handleClearResults()] *)
Definition handleClearResults (c : Component) : Component :=
  clearContent
    {| state := {| isLoading := false; results := None; error := None;
                   lastGeneration := lastGeneration (state c) |};
       content := content c |}.

(** The same response with every SMILES string emptied. *)
Definition withoutSmiles (r : GenerationResult) : GenerationResult :=
  {| generated_molecules :=
       map (fun m => {| smiles := ""; valid := valid m |})
         <$> generated_molecules r;
     total_generated := total_generated r;
     valid_molecules := valid_molecules r;
     requestParams_samples := requestParams_samples r;
     csv_url := csv_url r |}.

(** The characters that open or close markup: [<], [>], the double and
    the single quote. *)
Definition isMarkup (c : ascii) : bool :=
  let n := nat_of_ascii c in
  Nat.eqb n 60 || Nat.eqb n 62 || Nat.eqb n 34 || Nat.eqb n 39.

Fixpoint markup (s : string) : list ascii :=
  match s with
  | EmptyString => []
  | String c r => if isMarkup c then c :: markup r else markup r
  end.

(** [c] does not occur in [s]. *)
Fixpoint absent (c : ascii) (s : string) : Prop :=
  match s with
  | EmptyString => True
  | String a r => a ≠ c ∧ absent c r
  end.

(** A rendering function leaves the markup of the page alone when the
    text it is given contributes none of these characters. *)
Definition inert (render : string → string) : Prop :=
  ∀ text, markup (render text) = markup (render "").

(** The entity that stands for one character in escaped text, and a text
    escaped character by character in one pass. *)
Definition escapeChar (c : ascii) : string :=
  if Ascii.eqb c (ascii_of_nat 38) then "&amp;"
  else if Ascii.eqb c (ascii_of_nat 60) then "&lt;"
  else if Ascii.eqb c (ascii_of_nat 62) then "&gt;"
  else if Ascii.eqb c (ascii_of_nat 34) then "&quot;"
  else if Ascii.eqb c (ascii_of_nat 39) then "&#039;"
  else String c EmptyString.

Fixpoint escapeEach (s : string) : string :=
  match s with
  | EmptyString => EmptyString
  | String c r => escapeChar c +:+ escapeEach r
  end.

End ResultsDisplay.

(** * scripts/utils/UIStateManager.js *)

Module UIStateManager.

(** [this.state]; [error] is [null] or the message. *)
Record State : Type := mkState {
  loading : bool;
  error : option string;
  mode : string;
  formValid : bool;
  formErrors : list string;
  previousMode : option string
}.

(** The argument of [updateState]: for each property, its new value when
    the object has it. *)
Record Updates : Type := mkUpdates {
  new_loading : option bool;
  new_error : option (option string);
  new_mode : option string;
  new_formValid : option bool;
  new_formErrors : option (list string);
  new_previousMode : option (option string)
}.

(** The object literal [{}]. *)
Definition nothing : Updates :=
  {| new_loading := None; new_error := None; new_mode := None;
     new_formValid := None; new_formErrors := None;
     new_previousMode := None |}.

(** What the manager writes on the page: the classes of [document.body],
    the [aria-busy] attribute of the element [.app], the text of the
    element [#form-errors-announcement] when there is one, and the title
    of the document.  The page has an element [.app]. *)
Record Page : Type := mkPage {
  bodyClasses : list string;
  appAriaBusy : option string;
  announcement : option string;
  title : string
}.

(** The manager; its listeners are left out. *)
Record Manager : Type := mkManager {
  state : State;
  page : Page
}.

(** The state set by the constructor. *)
Definition initialState : State :=
  {| loading := false; error := None; mode := "Select Mode";
     formValid := false; formErrors := []; previousMode := None |}.

(** [{ ...this.state, ...updates }] *)
Definition merge (st : State) (updates : Updates) : State :=
  {| loading := default (loading st) (new_loading updates);
     error := default (error st) (new_error updates);
     mode := default (mode st) (new_mode updates);
     formValid := default (formValid st) (new_formValid updates);
     formErrors := default (formErrors st) (new_formErrors updates);
     previousMode := default (previousMode st) (new_previousMode updates) |}.

(** [hasError()], that is [!!this.state.error] *)
Definition hasError (st : State) : bool := Form.truthyStr (error st).

(** [toggleUIClass(element, className, condition)] on a list of
    classes *)
Definition toggleUIClass (className : string) (condition : bool)
    (classes : list string) : list string :=
  if condition then Dom.classList_add className classes
  else Dom.classList_remove className classes.

Definition baseTitle : string := "MolGPT - Molecular Generation Platform".

(** [updatePageTitle()] *)
Definition updatePageTitle (st : State) : string :=
  if loading st then "⏳ Generating... - " +:+ baseTitle
  else if hasError st then "❌ Error - " +:+ baseTitle
  else if negb (bool_decide (mode st = "Select Mode"))
       then mode st +:+ " - " +:+ baseTitle
  else baseTitle.

(** [applyStateToUI()], with [updateAriaStates] and
    [updateFormAriaStates] *)
Definition applyStateToUI (st : State) (p : Page) : Page :=
  {| bodyClasses :=
       toggleUIClass "form-invalid" (negb (formValid st))
         (toggleUIClass "ui-state--error" (hasError st)
            (toggleUIClass "ui-state--loading" (loading st) (bodyClasses p)));
     appAriaBusy := Some (if loading st then "true" else "false");
     announcement :=
       if Nat.ltb 0 (length (formErrors st))
       then Some ("Form validation errors: "
                  +:+ Form.join "; " (formErrors st))
       else None;
     title := updatePageTitle st |}.

(** [updateState(updates)] for an object [updates] *)
Definition updateState (updates : Updates) (m : Manager) : Manager :=
  let st := merge (state m) updates in
  {| state := st; page := applyStateToUI st (page m) |}.

(** [showLoading(message)], [hideLoading()], [showError(error)] for an
    error whose message is [errorMessage], [clearError()],
    [setFormValidation(isValid, errors)] and [reset()] *)
Definition showLoading (m : Manager) : Manager :=
  updateState
    {| new_loading := Some true; new_error := Some None; new_mode := None;
       new_formValid := None; new_formErrors := None;
       new_previousMode := None |} m.

Definition hideLoading (m : Manager) : Manager :=
  updateState
    {| new_loading := Some false; new_error := None; new_mode := None;
       new_formValid := None; new_formErrors := None;
       new_previousMode := None |} m.

Definition showError (errorMessage : string) (m : Manager) : Manager :=
  updateState
    {| new_loading := Some false; new_error := Some (Some errorMessage);
       new_mode := None; new_formValid := None; new_formErrors := None;
       new_previousMode := None |} m.

Definition clearError (m : Manager) : Manager :=
  updateState
    {| new_loading := None; new_error := Some None; new_mode := None;
       new_formValid := None; new_formErrors := None;
       new_previousMode := None |} m.

Definition setFormValidation (isValid : bool) (errors : list string)
    (m : Manager) : Manager :=
  updateState
    {| new_loading := None; new_error := None; new_mode := None;
       new_formValid := Some isValid; new_formErrors := Some errors;
       new_previousMode := None |} m.

Definition reset (m : Manager) : Manager :=
  updateState
    {| new_loading := Some false; new_error := Some None;
       new_mode := Some "Select Mode"; new_formValid := Some false;
       new_formErrors := Some []; new_previousMode := Some None |} m.

(** A call of one of these methods. *)
Inductive Call : Type :=
| ShowLoading
| HideLoading
| ShowError (errorMessage : string)
| ClearError
| SetFormValidation (isValid : bool) (errors : list string)
| Reset.

Definition perform (m : Manager) (c : Call) : Manager :=
  match c with
  | ShowLoading => showLoading m
  | HideLoading => hideLoading m
  | ShowError errorMessage => showError errorMessage m
  | ClearError => clearError m
  | SetFormValidation isValid errors => setFormValidation isValid errors m
  | Reset => reset m
  end.

End UIStateManager.

(** * scripts/components/ModeSelector.js *)

Module ModeSelector.

Record State : Type := mkState {
  isOpen : bool;
  currentMode : string
}.

(** [this.state.availableModes] *)
Definition availableModes : list string :=
  ["De Novo Generation"; "Scaffold Decoration"; "Fragment Linking";
   "Molecular Transformation"; "Peptide Design"].

(** Where the focus of the document is: on the option of a given index,
    or somewhere else. *)
Inductive Focus : Type :=
| OnOption (index : Z)
| Elsewhere.

(** The elements of the selector: the [aria-expanded] attribute of the
    trigger and of the menu, the classes of the container, the text of
    the trigger, and the options, each with its [data-mode] and
    [aria-selected] attributes. *)
Record View : Type := mkView {
  triggerExpanded : string;
  menuExpanded : option string;
  classList : list string;
  currentText : string;
  options : list (option string * option string);
  focus : Focus
}.

(** The component, with the payloads of the 'mode:changed' events it has
    emitted. *)
Record Component : Type := mkComponent {
  state : State;
  view : View;
  emitted : list string
}.

Definition set_focus (f : Focus) (c : Component) : Component :=
  {| state := state c;
     view := {| triggerExpanded := triggerExpanded (view c);
                menuExpanded := menuExpanded (view c);
                classList := classList (view c);
                currentText := currentText (view c);
                options := options (view c);
                focus := f |};
     emitted := emitted c |}.

(** [focusOption(index)] *)
Definition focusOption (index : Z) (c : Component) : Component :=
  if (0 <=? index)%Z && (index <? Z.of_nat (length (options (view c))))%Z
  then set_focus (OnOption index) c
  else c.

(** [navigateOptions(direction)]; [%] is the remainder of the truncated
    division. *)
Definition navigateOptions (direction : Z) (c : Component) : Component :=
  let n := Z.of_nat (length (options (view c))) in
  let currentIndex :=
    match focus (view c) with
    | OnOption i => i
    | Elsewhere => (-1)%Z
    end in
  let nextIndex :=
    if (currentIndex =? -1)%Z then
      if (0 <? direction)%Z then 0%Z else (n - 1)%Z
    else Z.rem (currentIndex + direction + n) n in
  focusOption nextIndex c.

(** [open()] *)
Definition open (c : Component) : Component :=
  if isOpen (state c) then c
  else
    focusOption 0
      {| state := {| isOpen := true; currentMode := currentMode (state c) |};
         view := {| triggerExpanded := "true";
                    menuExpanded := Some "true";
                    classList :=
                      Dom.classList_add "mode-selector--open"
                        (classList (view c));
                    currentText := currentText (view c);
                    options := options (view c);
                    focus := focus (view c) |};
         emitted := emitted c |}.

(** [close()] *)
Definition close (c : Component) : Component :=
  if negb (isOpen (state c)) then c
  else
    {| state := {| isOpen := false; currentMode := currentMode (state c) |};
       view := {| triggerExpanded := "false";
                  menuExpanded := Some "false";
                  classList :=
                    Dom.classList_remove "mode-selector--open"
                      (classList (view c));
                  currentText := currentText (view c);
                  options := options (view c);
                  focus := focus (view c) |};
       emitted := emitted c |}.

(** [toggle()] *)
Definition toggle (c : Component) : Component :=
  if isOpen (state c) then close c else open c.

(** [setCurrentMode(mode, emitEvent)] *)
Definition setCurrentMode (mode : string) (emitEvent : bool) (c : Component)
    : Component :=
  if negb (bool_decide (mode ∈ availableModes))
     && negb (bool_decide (mode = "Select Mode"))
  then c
  else
    {| state := {| isOpen := isOpen (state c); currentMode := mode |};
       view := {| triggerExpanded := triggerExpanded (view c);
                  menuExpanded := menuExpanded (view c);
                  classList := classList (view c);
                  currentText := mode;
                  options :=
                    map (fun o => (fst o,
                                   Some (if bool_decide (fst o = Some mode)
                                         then "true" else "false")))
                        (options (view c));
                  focus := focus (view c) |};
       emitted := if emitEvent then emitted c ++ [mode] else emitted c |}.

(** [handleOptionClick(event)] on the option of index [index] *)
Definition handleOptionClick (index : nat) (c : Component) : Component :=
  match options (view c) !! index with
  | Some (Some selectedMode, _) =>
      if negb (bool_decide (selectedMode = ""))
         && negb (bool_decide (selectedMode = currentMode (state c)))
      then close (setCurrentMode selectedMode true c)
      else c
  | _ => c
  end.

(** [handleTriggerClick(event)] *)
Definition handleTriggerClick (c : Component) : Component := toggle c.

(** [handleClickOutside(event)] for a click on a target outside the
    selector, [handleEscapeKey(event)] for the Escape key, and
    [reset()].  The move of the focus to the trigger is written
    [Elsewhere]. *)
Definition handleClickOutside (c : Component) : Component :=
  if isOpen (state c) then close c else c.

Definition handleEscapeKey (c : Component) : Component :=
  if isOpen (state c) then set_focus Elsewhere (close c) else c.

Definition reset (c : Component) : Component :=
  setCurrentMode "Select Mode" true (close c).

(** [handleKeyDown(event)]; [onTrigger] tells whether the target of the
    event is the trigger. *)
Definition handleKeyDown (key : string) (onTrigger : bool) (c : Component)
    : Component :=
  if negb (isOpen (state c)) then
    if (bool_decide (key = "Enter") || bool_decide (key = " ")) && onTrigger
    then open c else c
  else if bool_decide (key = "ArrowDown") then navigateOptions 1 c
  else if bool_decide (key = "ArrowUp") then navigateOptions (-1) c
  else if bool_decide (key = "Enter") || bool_decide (key = " ") then
    match focus (view c) with
    | OnOption i => handleOptionClick (Z.to_nat i) c
    | Elsewhere => c
    end
  else if bool_decide (key = "Escape") then set_focus Elsewhere (close c)
  else if bool_decide (key = "Home") then focusOption 0 c
  else if bool_decide (key = "End")
       then focusOption (Z.of_nat (length (options (view c))) - 1) c
  else c.

(** What reaches the selector: a click on the trigger or on an option, a
    key pressed inside the selector or elsewhere on the page, a click
    outside, the event 'mode:setInitial', a call of [reset]. *)
Inductive Event : Type :=
| TriggerClick
| OptionClick (index : nat)
| KeyDown (key : string) (onTrigger : bool)
| KeyDownElsewhere (key : string)
| ClickOutside
| SetInitial (mode : string)
| ResetSelector.

Definition step (c : Component) (e : Event) : Component :=
  match e with
  | TriggerClick => handleTriggerClick c
  | OptionClick index => handleOptionClick index c
  | KeyDown key onTrigger =>
      let c1 := handleKeyDown key onTrigger c in
      (* the event bubbles to the document, where [handleEscapeKey]
         listens *)
      if bool_decide (key = "Escape") then handleEscapeKey c1 else c1
  | KeyDownElsewhere key =>
      if bool_decide (key = "Escape") then handleEscapeKey c else c
  | ClickOutside => handleClickOutside c
  | SetInitial mode => setCurrentMode mode false c
  | ResetSelector => reset c
  end.

(** The constructor and [init()] on a page whose selector shows [v]:
    [setupAccessibility] marks the trigger as not expanded. *)
Definition init (v : View) : Component :=
  {| state := {| isOpen := false; currentMode := "Select Mode" |};
     view := {| triggerExpanded := "false";
                menuExpanded := menuExpanded v;
                classList := classList v;
                currentText := currentText v;
                options := options v;
                focus := focus v |};
     emitted := [] |}.

(** The selector in step with its state: the attributes and the class
    say open exactly when [isOpen] holds, and the mode is one of those
    that can be chosen. *)
Definition consistent (c : Component) : Prop :=
  (isOpen (state c) = true ↔ triggerExpanded (view c) = "true")
  ∧ (isOpen (state c) = true ↔ "mode-selector--open" ∈ classList (view c))
  ∧ currentMode (state c) ∈ "Select Mode" :: availableModes.

End ModeSelector.

(** * main.js: the handlers of the generation events
      (src/unnamed/part_004) *)

Module Application.
Import Form.

(** The application with the UI state manager it holds and the results
    panel, which is the one listener of the 'results:...' events that the
    application emits. *)
Record System : Type := mkSystem {
  app : MolGPTApp.State;
  ui : UIStateManager.Manager;
  results : ResultsDisplay.Component
}.

Definition set_isGenerating (b : bool) (st : MolGPTApp.State)
    : MolGPTApp.State :=
  {| MolGPTApp.currentMode := MolGPTApp.currentMode st;
     MolGPTApp.isGenerating := b;
     MolGPTApp.formData := MolGPTApp.formData st |}.

(** The objects [{loading, error}] that the handlers give to
    [updateState]. *)
Definition loadingAndError (l : bool) (e : option string)
    : UIStateManager.Updates :=
  {| UIStateManager.new_loading := Some l;
     UIStateManager.new_error := Some e;
     UIStateManager.new_mode := None;
     UIStateManager.new_formValid := None;
     UIStateManager.new_formErrors := None;
     UIStateManager.new_previousMode := None |}.

(** [handleError(error)] for an error whose message is [errorMessage] *)
Definition handleError (errorMessage : string) (s : System) : System :=
  {| app := set_isGenerating false (app s);
     ui := UIStateManager.updateState
             (loadingAndError false (Some errorMessage)) (ui s);
     results := ResultsDisplay.handleShowError errorMessage (results s) |}.

(** [handleGenerationComplete(results)]; [now] is the time at which the
    panel shows them. *)
Definition handleGenerationComplete (r : GenerationResult) (now : string)
    (s : System) : System :=
  {| app := set_isGenerating false (app s);
     ui := UIStateManager.updateState (loadingAndError false None) (ui s);
     results := ResultsDisplay.handleResultsDisplay r now (results s) |}.

(** [handleGeneration()] *)
Definition handleGeneration (s : System) : System :=
  let validation := MolGPTApp.validateFormData (app s) in
  if negb (isValid validation) then
    (* thrown and caught in the same function *)
    handleError (join "; " (errors validation)) s
  else
    {| app := set_isGenerating true (app s);
       ui := UIStateManager.updateState (loadingAndError true None) (ui s);
       results :=
         ResultsDisplay.handleShowProgress "Generating molecules... ⏳"
           (ResultsDisplay.handleClearResults (results s)) |}.

(** What the application does with an event that the generation
    controller emits: [setupEventListeners] subscribes the three handlers
    to 'generation:start', 'generation:complete' and 'generation:error';
    nothing listens to 'generation:cancelled'. *)
Definition deliver (now : string) (s : System)
    (e : GenerationController.Effect) : System :=
  match e with
  | GenerationController.Emit eventName payload =>
      if bool_decide (eventName = "generation:start") then handleGeneration s
      else if bool_decide (eventName = "generation:complete") then
        match payload with
        | GenerationController.Results r => handleGenerationComplete r now s
        | _ => s
        end
      else if bool_decide (eventName = "generation:error") then
        match payload with
        | GenerationController.Failure message => handleError message s
        | _ => s
        end
      else s
  | _ => s
  end.

(** The controller and the application together. *)
Record Whole : Type := mkWhole {
  controller : GenerationController.World;
  rest : System
}.

(** One turn of the event loop of the controller, with the events it
    emits in that turn passed on to the application. *)
Definition turn (now : string) (e : GenerationController.Event) (w : Whole)
    : Whole :=
  let c' := GenerationController.step e (controller w) in
  {| controller := c';
     rest :=
       fold_left (deliver now)
         (drop (length (GenerationController.effects (controller w)))
               (GenerationController.effects c'))
         (rest w) |}.

(** The form data of the application after the events that it hears as
    well as the controller: 'mode:changed' and 'form:dataChanged'. *)
Definition hears (a : MolGPTApp.App) (e : GenerationController.Event)
    : MolGPTApp.App :=
  match e with
  | GenerationController.ModeChanged newMode =>
      MolGPTApp.handleModeChange newMode a
  | GenerationController.FormDataChanged data =>
      MolGPTApp.handleFormDataChange data a
  | _ => a
  end.

(** What the UI state manager makes of the updates that the application
    passes on in [handleModeChange] and [handleFormDataChange]. *)
Definition shown (m : UIStateManager.Manager) (e : MolGPTApp.Effect)
    : UIStateManager.Manager :=
  match e with
  | MolGPTApp.UpdateMode mode previousMode =>
      UIStateManager.updateState
        {| UIStateManager.new_loading := None;
           UIStateManager.new_error := None;
           UIStateManager.new_mode := Some mode;
           UIStateManager.new_formValid := None;
           UIStateManager.new_formErrors := None;
           UIStateManager.new_previousMode := Some (Some previousMode) |} m
  | MolGPTApp.UpdateValidity formValid formErrors =>
      UIStateManager.updateState
        {| UIStateManager.new_loading := None;
           UIStateManager.new_error := None;
           UIStateManager.new_mode := None;
           UIStateManager.new_formValid := Some formValid;
           UIStateManager.new_formErrors := Some formErrors;
           UIStateManager.new_previousMode := None |} m
  | MolGPTApp.EmitModeChanged _ _ _ => m
  end.

End Application.

(** * The validation policy as the specification words it *)

Module Policy.
Import Js Form.

Definition samplesInRange (fd : FormData) : Prop :=
  ∃ n, samples fd = Some n ∧ inRange 1 500 n.

Definition temperatureInRange (fd : FormData) : Prop :=
  ∃ t, temperature fd = Some t ∧ inRange 0 2 t.

(** What the code accepts as a temperature: a number of [0,2], and also
    a missing one and NaN. *)
Definition temperatureAccepted (fd : FormData) : Prop :=
  match temperature fd with
  | Some (Fin t) => (0 <= t)%Q ∧ (t <= 2)%Q
  | Some NaN | None => True
  | Some PosInf | Some NegInf => False
  end.

Definition nonEmpty (o : option string) : Prop :=
  ∃ s, o = Some s ∧ s ≠ "".

Definition present (o : option File) : Prop := ∃ f, o = Some f.

(** Scaffold Decoration needs a scaffold SMILES or a file. *)
Definition scaffoldRule (mode : string) (fd : FormData) : Prop :=
  mode = "Scaffold Decoration" →
  nonEmpty (scaffold fd) ∨ present (scaffoldFile fd).

(** Fragment Linking needs two fragment SMILES or a file. *)
Definition fragmentRule (mode : string) (fd : FormData) : Prop :=
  mode = "Fragment Linking" →
  present (fragmentFile fd)
  ∨ (nonEmpty (fragment1 fd) ∧ nonEmpty (fragment2 fd)).

(** The policy of the specification. *)
Definition holds (mode : string) (fd : FormData) : Prop :=
  samplesInRange fd ∧ temperatureInRange fd
  ∧ mode ≠ "Select Mode" ∧ scaffoldRule mode fd ∧ fragmentRule mode fd.

(** The policy with the temperature rule as the code has it. *)
Definition accepted (mode : string) (fd : FormData) : Prop :=
  samplesInRange fd ∧ temperatureAccepted fd
  ∧ mode ≠ "Select Mode" ∧ scaffoldRule mode fd ∧ fragmentRule mode fd.

(** The rule that each message reports, when it is violated. *)
Definition violated (mode : string) (fd : FormData) (message : string) : Prop :=
  (message = "Please enter a sample size ≥ 1"
   ∧ ¬ ∃ n, samples fd = Some n ∧ ge n (Fin 1) = true)
  ∨ (message = "Sample size cannot exceed 500"
     ∧ ∃ n, samples fd = Some n ∧ gt n (Fin 500) = true)
  ∨ (message = "Temperature must be between 0 and 2"
     ∧ ∃ t, temperature fd = Some t
            ∧ (lt t (Fin 0) = true ∨ gt t (Fin 2) = true))
  ∨ (message = "Please choose a generator mode" ∧ mode = "Select Mode")
  ∨ (message = "Please provide a scaffold SMILES or upload a scaffold file"
     ∧ ¬ scaffoldRule mode fd)
  ∨ (message = "Please provide two fragment SMILES or upload a fragment file"
     ∧ ¬ fragmentRule mode fd).

End Policy.

(** * The SMILES character class as the specification words it *)

Module SmilesSpec.

Definition isAsciiLetter (c : ascii) : Prop :=
  (("A" <=? c) && (c <=? "Z") || ("a" <=? c) && (c <=? "z"))%char = true.

Definition isDigit (c : ascii) : Prop :=
  (("0" <=? c) && (c <=? "9"))%char = true.

(** One of the characters [( ) [ ] @ = # - + . \ / :] *)
Definition isListed (c : ascii) : Prop :=
  In c (Stdlib.Strings.String.list_ascii_of_string "()[]@=#-+.\/:").

Definition isWildcard (c : ascii) : Prop := c = "*"%char.

Definition allowedChar (c : ascii) : Prop :=
  isAsciiLetter c ∨ isDigit c ∨ isListed c ∨ isWildcard c.

Definition allowed (v : string) : Prop :=
  Forall allowedChar (Stdlib.Strings.String.list_ascii_of_string v).

End SmilesSpec.

(** * Sample data *)

Module Sample.
Import Js Form.

(** ** A bus with four listeners

    Callback 1 throws, the others return; each call is counted. *)
Definition call (cb : nat) (ctx : option nat) (args : list EventBus.Value)
    (calls : nat) : EventBus.Outcome * nat * list EventBus.BusCall :=
  match cb with
  | 1 => (EventBus.Threw (EventBus.VStr "boom"), S calls, [])
  | _ => (EventBus.Returned, S calls, [])
  end.

(** The same callbacks, but callback 1 unsubscribes the third listener
    before it throws. *)
Definition unsubscribing (cb : nat) (ctx : option nat)
    (args : list EventBus.Value) (calls : nat)
    : EventBus.Outcome * nat * list EventBus.BusCall :=
  match cb with
  | 1 => (EventBus.Threw (EventBus.VStr "boom"), S calls,
          [EventBus.CallOff "mode:changed" (EventBus.ById "listener_3_c")])
  | _ => (EventBus.Returned, S calls, [])
  end.

Definition failing : EventBus.Listener :=
  {| EventBus.callback := 1; EventBus.once_flag := true;
     EventBus.context := None; EventBus.listenerId := "listener_1_a" |}.

Definition oneShot : EventBus.Listener :=
  {| EventBus.callback := 0; EventBus.once_flag := true;
     EventBus.context := None; EventBus.listenerId := "listener_2_b" |}.

Definition regular : EventBus.Listener :=
  {| EventBus.callback := 2; EventBus.once_flag := false;
     EventBus.context := None; EventBus.listenerId := "listener_3_c" |}.

Definition reporter : EventBus.Listener :=
  {| EventBus.callback := 3; EventBus.once_flag := false;
     EventBus.context := None; EventBus.listenerId := "listener_4_d" |}.

Definition sys : @EventBus.Sys nat :=
  {| EventBus.bus :=
       {| EventBus.events :=
            <["mode:changed" := [failing; oneShot; regular]]>
              (<["error" := [reporter]]> ∅);
          EventBus.debug := false;
          EventBus.stats :=
            {| EventBus.eventsEmitted := 0; EventBus.eventsListened := 4;
               EventBus.errors := 0 |} |};
     EventBus.world := 0;
     EventBus.log := [] |}.

(** ** A bus whose listeners use it

    The listeners above and one listener of 'app:modeChanged'. *)
Definition follower : EventBus.Listener :=
  {| EventBus.callback := 4; EventBus.once_flag := false;
     EventBus.context := None; EventBus.listenerId := "listener_5_e" |}.

Definition site : @EventBus.Reentrant.Sys nat :=
  {| EventBus.Reentrant.bus :=
       {| EventBus.events :=
            <["app:modeChanged" := [follower]]>
              (EventBus.events (EventBus.bus sys));
          EventBus.debug := false;
          EventBus.stats :=
            {| EventBus.eventsEmitted := 0; EventBus.eventsListened := 5;
               EventBus.errors := 0 |} |};
     EventBus.Reentrant.world := 0 |}.

Definition counted (s : @EventBus.Reentrant.Sys nat)
    : @EventBus.Reentrant.Sys nat :=
  {| EventBus.Reentrant.bus := EventBus.Reentrant.bus s;
     EventBus.Reentrant.world := S (EventBus.Reentrant.world s) |}.

(** Callbacks that leave the bus alone: callback 1 throws, the others
    return; each call is counted. *)
Definition plain (cb : nat) (ctx : option nat) (args : list EventBus.Value)
    (s : @EventBus.Reentrant.Sys nat)
    : EventBus.Outcome * @EventBus.Reentrant.Sys nat :=
  match cb with
  | 1 => (EventBus.Threw (EventBus.VStr "boom"), counted s)
  | _ => (EventBus.Returned, counted s)
  end.

(** The same, but callback 2 passes the event on as 'app:modeChanged',
    as the application does with 'mode:changed'. *)
Definition relaying (cb : nat) (ctx : option nat)
    (args : list EventBus.Value) (s : @EventBus.Reentrant.Sys nat)
    : EventBus.Outcome * @EventBus.Reentrant.Sys nat :=
  match cb with
  | 2 =>
      match EventBus.Reentrant.emit plain "app:modeChanged" args (counted s)
      with
      | Ok (_, s', _) => (EventBus.Returned, s')
      | Error message => (EventBus.Threw (EventBus.VStr message), counted s)
      end
  | _ => plain cb ctx args s
  end.

(** The same as [plain], but callback 3, which listens to 'error',
    unsubscribes every listener of the event that failed. *)
Definition breaking (cb : nat) (ctx : option nat)
    (args : list EventBus.Value) (s : @EventBus.Reentrant.Sys nat)
    : EventBus.Outcome * @EventBus.Reentrant.Sys nat :=
  match cb with
  | 3 =>
      match args with
      | [EventBus.VErrorInfo event _ _] =>
          (EventBus.Returned,
           EventBus.Reentrant.with_bus
             (EventBus.off event EventBus.AllListeners) (counted s))
      | _ => (EventBus.Returned, counted s)
      end
  | _ => plain cb ctx args s
  end.

(** A one-time listener that carries the identifier of [failing], and a
    bus on which both listen to the same event.  Identifiers are made of
    the time and a random number, so that two of them are equal only by
    chance. *)
Definition twin : EventBus.Listener :=
  {| EventBus.callback := 0; EventBus.once_flag := true;
     EventBus.context := None; EventBus.listenerId := "listener_1_a" |}.

Definition twins : @EventBus.Reentrant.Sys nat :=
  {| EventBus.Reentrant.bus :=
       {| EventBus.events := <["mode:changed" := [twin; failing]]> ∅;
          EventBus.debug := false;
          EventBus.stats :=
            {| EventBus.eventsEmitted := 0; EventBus.eventsListened := 2;
               EventBus.errors := 0 |} |};
     EventBus.Reentrant.world := 0 |}.

(** ** The generation controller *)

(** The generate button as the page declares it. *)
Definition button : GenerationController.Element :=
  {| GenerationController.textContent := "Generate";
     GenerationController.classList := ["generate-button"];
     GenerationController.disabled := false;
     GenerationController.ariaBusy := "false";
     GenerationController.ariaDescribedby := None;
     GenerationController.title := "" |}.

(** The controller after its constructor and [init]. *)
Definition start : GenerationController.World :=
  {| GenerationController.state := GenerationController.initialState;
     GenerationController.element :=
       GenerationController.updateButtonState
         GenerationController.initialState button;
     GenerationController.effects := [];
     GenerationController.nextController := 0;
     GenerationController.suspended := [];
     GenerationController.outstanding := [];
     GenerationController.aborted := [];
     GenerationController.microtasks := [] |}.

(** The user picks a mode and a number of samples. *)
Definition ready : GenerationController.World :=
  GenerationController.run
    [GenerationController.ModeChanged "De Novo Generation";
     GenerationController.FormDataChanged
       [SetSamples (Fin 5); SetTemperature (Fin 1)]] start.

(** A request is on its way. *)
Definition generating : GenerationController.World :=
  GenerationController.step GenerationController.Click ready.

(** A file of scaffolds, and the controller once the user has chosen
    it. *)
Definition scaffolds : File :=
  {| fileName := "scaffolds.smi"; fileText := Ok "c1ccccc1" |}.

Definition withFile : GenerationController.World :=
  GenerationController.step
    (GenerationController.FormDataChanged [SetScaffoldFile (Some scaffolds)])
    ready.

(** A state with samples but no temperature. *)
Definition noTemperature : GenerationController.State :=
  {| GenerationController.isGenerating := false;
     GenerationController.currentMode := "De Novo Generation";
     GenerationController.formData :=
       Form.assign Form.empty (SetSamples (Fin 5));
     GenerationController.abortController := None |}.

(** ** A response whose [csv_url] closes the attribute and the tag *)

Definition url : string :=
  ResultsDisplay.dq +:+ "><script>alert(1)</script>".

Definition response : GenerationResult :=
  {| generated_molecules :=
       Some [{| smiles := "CCO"; valid := Some true |}];
     total_generated := Some 1%Z;
     valid_molecules := Some 1%Z;
     requestParams_samples := None;
     csv_url := Some url |}.

(** The results panel before any result. *)
Definition blank : ResultsDisplay.Component :=
  {| ResultsDisplay.state :=
       {| ResultsDisplay.isLoading := false;
          ResultsDisplay.results := None;
          ResultsDisplay.error := None;
          ResultsDisplay.lastGeneration := None |};
     ResultsDisplay.content :=
       {| ResultsDisplay.innerHTML := "";
          ResultsDisplay.ariaLive := None;
          ResultsDisplay.ariaLabel := None;
          ResultsDisplay.scrollTop := 0 |} |}.

(** ** A scaffold field holding a scaffold with an attachment point *)

Definition scaffoldField : Dom.Input :=
  {| Dom.dataInput := Some "scaffold-smiles";
     Dom.value := "c1ccc(*)cc1";
     Dom.classList := ["input-group__input"] |}.

(** ** The mode selector of the page *)

Definition selector : ModeSelector.Component :=
  ModeSelector.init
    {| ModeSelector.triggerExpanded := "false";
       ModeSelector.menuExpanded := None;
       ModeSelector.classList := ["mode-selector"];
       ModeSelector.currentText := "Select Mode";
       ModeSelector.options :=
         [(Some "De Novo Generation", None);
          (Some "Scaffold Decoration", None);
          (Some "Fragment Linking", None);
          (Some "Molecular Transformation", None)];
       ModeSelector.focus := ModeSelector.Elsewhere |}.

(** ** The page as the UI state manager finds it *)

Definition document : UIStateManager.Page :=
  {| UIStateManager.bodyClasses := [];
     UIStateManager.appAriaBusy := None;
     UIStateManager.announcement := None;
     UIStateManager.title := "MolGPT - Molecular Generation Platform" |}.

(** The manager after its constructor. *)
Definition manager : UIStateManager.Manager :=
  {| UIStateManager.state := UIStateManager.initialState;
     UIStateManager.page := document |}.

(** ** The controller and the application after the same events

    The user asks for 10 samples, chooses 'Scaffold Decoration', types a
    scaffold, goes to 'Fragment Linking' and comes back. *)
Definition story : list GenerationController.Event :=
  [GenerationController.FormDataChanged
     [SetSamples (Fin 10); SetTemperature (Fin 1)];
   GenerationController.ModeChanged "Scaffold Decoration";
   GenerationController.FormDataChanged [SetScaffold "c1ccccc1"];
   GenerationController.ModeChanged "Fragment Linking";
   GenerationController.ModeChanged "Scaffold Decoration"].

(** The user chooses 'De Novo Generation' and asks for 5 samples. *)
Definition choice : list GenerationController.Event :=
  [GenerationController.ModeChanged "De Novo Generation";
   GenerationController.FormDataChanged
     [SetSamples (Fin 5); SetTemperature (Fin 1)]].

Definition idle (es : list GenerationController.Event) : Application.Whole :=
  let a := fold_left Application.hears es MolGPTApp.constructor in
  {| Application.controller := GenerationController.run es start;
     Application.rest :=
       {| Application.app := MolGPTApp.state a;
          Application.ui :=
            fold_left Application.shown (MolGPTApp.effects a) manager;
          Application.results := blank |} |}.

(** ** The mode manager on the page, before any mode is chosen *)

Definition page : ModeManagerTransformation.Manager :=
  {| ModeManagerTransformation.component :=
       {| Dom.state :=
            {| Dom.currentMode := "Select Mode"; Dom.formData := Form.empty |};
          Dom.elements :=
            {| Dom.scaffoldSmilesInput := Some scaffoldField;
               Dom.fragment1Input := None;
               Dom.fragment2Input := None;
               Dom.startingMoleculeInput := None;
               Dom.scaffoldFileInput := Some "";
               Dom.fragmentFileInput := Some "";
               Dom.transformationFileInput := Some "";
               Dom.scaffoldLabel := Some "No file chosen";
               Dom.fragmentLabel := Some "No file chosen";
               Dom.transformationLabel := Some "No file chosen";
               Dom.similaritySelect := Some 0 |};
          Dom.emitted := [] |};
     ModeManagerTransformation.forms :=
       {| ModeManagerTransformation.present :=
            ["Scaffold Decoration"; "Fragment Linking";
             "Molecular Transformation"];
          ModeManagerTransformation.active := [];
          ModeManagerTransformation.timers := [] |} |}.

End Sample.

(** * Properties *)

(** ** Numbers *)
Section NumberFacts.
Import Js.

Lemma lt_Fin x y : lt (Fin x) (Fin y) = true ↔ (x < y)%Q.
Proof.
  simpl. rewrite negb_true_iff. split.
  - intros H. apply Qnot_le_lt. intros Hle.
    apply Qle_bool_iff in Hle. congruence.
  - intros H. destruct (Qle_bool y x) eqn:E; [|done].
    apply Qle_bool_iff in E. lra.
Qed.

Lemma lt_Fin_false x y : lt (Fin x) (Fin y) = false ↔ (y <= x)%Q.
Proof.
  simpl. rewrite negb_false_iff. apply Qle_bool_iff.
Qed.

Lemma strictEq_Fin x y : strictEq (Fin x) (Fin y) = true ↔ (x == y)%Q.
Proof. apply Qeq_bool_iff. Qed.

Lemma strictEq_inRange lo hi a b :
  strictEq a b = true → inRange lo hi b → inRange lo hi a.
Proof.
  destruct a, b; simpl; try done.
  intros H%Qeq_bool_iff [? ?]. split; lra.
Qed.

Lemma strictEq_sym a b : strictEq a b = strictEq b a.
Proof.
  destruct a, b; simpl; try done.
  destruct (Qeq_bool q q0) eqn:E1, (Qeq_bool q0 q) eqn:E2; try done.
  - apply Qeq_bool_iff in E1. symmetry in E1. apply Qeq_bool_iff in E1. congruence.
  - apply Qeq_bool_iff in E2. symmetry in E2. apply Qeq_bool_iff in E2. congruence.
Qed.

Lemma strictEq_refl a : isNaN a = false → strictEq a a = true.
Proof. destruct a; simpl; try done. intros _. by apply Qeq_bool_iff. Qed.

(** [Math.max(lo, Math.min(hi, n))] of a number that is not NaN. *)
Lemma clamp_inRange (lo hi : Q) n :
  (lo <= hi)%Q → isNaN n = false →
  inRange lo hi (Math_max (Fin lo) (Math_min (Fin hi) n)).
Proof.
  intros Hle Hn. destruct n as [q| | |]; try done.
  - unfold Math_min. cbn [isNaN orb].
    destruct (lt (Fin q) (Fin hi)) eqn:E1.
    + unfold Math_max. cbn [isNaN orb].
      destruct (lt (Fin lo) (Fin q)) eqn:E2.
      * apply lt_Fin in E1, E2. simpl. split; lra.
      * simpl. split; lra.
    + apply lt_Fin_false in E1.
      unfold Math_max. cbn [isNaN orb].
      destruct (lt (Fin lo) (Fin hi)) eqn:E2; simpl; split; lra.
  - unfold Math_min, Math_max. simpl.
    destruct (Qle_bool hi lo) eqn:E; simpl; split; try lra.
  - unfold Math_min, Math_max. simpl. split; lra.
Qed.

Lemma clamp_below (lo hi : Q) n :
  (lo <= hi)%Q → lt n (Fin lo) = true →
  strictEq (Math_max (Fin lo) (Math_min (Fin hi) n)) (Fin lo) = true.
Proof.
  intros Hle Hn. destruct n as [q| | |]; try done.
  - apply lt_Fin in Hn.
    unfold Math_min. cbn [isNaN orb].
    assert (lt (Fin q) (Fin hi) = true) as -> by (apply lt_Fin; lra).
    unfold Math_max. cbn [isNaN orb].
    assert (lt (Fin lo) (Fin q) = false) as -> by (apply lt_Fin_false; lra).
    by apply strictEq_Fin.
  - unfold Math_min, Math_max. simpl. by apply Qeq_bool_iff.
Qed.

Lemma clamp_above (lo hi : Q) n :
  (lo <= hi)%Q → gt n (Fin hi) = true →
  strictEq (Math_max (Fin lo) (Math_min (Fin hi) n)) (Fin hi) = true.
Proof.
  intros Hle Hn. unfold gt in Hn. destruct n as [q| | |]; try done.
  - apply lt_Fin in Hn.
    unfold Math_min. cbn [isNaN orb].
    assert (lt (Fin q) (Fin hi) = false) as -> by (apply lt_Fin_false; lra).
    unfold Math_max. cbn [isNaN orb].
    destruct (lt (Fin lo) (Fin hi)) eqn:E.
    + by apply strictEq_Fin.
    + apply lt_Fin_false in E. apply strictEq_Fin. lra.
  - unfold Math_min, Math_max. simpl.
    destruct (Qle_bool hi lo) eqn:E; simpl.
    + apply Qle_bool_iff in E. apply Qeq_bool_iff. lra.
    + by apply Qeq_bool_iff.
Qed.

End NumberFacts.

(** ** The event bus *)

Section EventBusFacts.
Import EventBus.

Lemma filter_length_eq {A} (f : A → bool) (l : list A) :
  length (List.filter f l) = length l → List.filter f l = l.
Proof.
  induction l as [|a l IH]; simpl; [done|].
  destruct (f a); simpl; intros H.
  - f_equal. apply IH. lia.
  - pose proof (List.filter_length_le f l). lia.
Qed.

Lemma off_other name name' target b :
  name' ≠ name → events (off name target b) !! name' = events b !! name'.
Proof.
  intros Hne. unfold off.
  destruct (events b !! name) as [ls|] eqn:E; [|done].
  destruct target; simpl.
  - by rewrite lookup_delete_ne.
  - repeat case_match; simpl; try done.
    + by rewrite lookup_delete_ne.
    + by rewrite lookup_insert_ne.
  - repeat case_match; simpl; try done.
    + by rewrite lookup_delete_ne.
    + by rewrite lookup_insert_ne.
Qed.

Lemma off_registry name lid b :
  registry name (off name (ById lid) b)
  = List.filter (keeps (ById lid)) (registry name b).
Proof.
  unfold registry, off.
  destruct (events b !! name) as [ls|] eqn:E; simpl; [|by rewrite E].
  destruct (Nat.eqb _ (length ls)) eqn:E1.
  - rewrite E. simpl. symmetry. apply filter_length_eq. by apply Nat.eqb_eq.
  - destruct (Nat.eqb _ 0) eqn:E2; simpl.
    + rewrite lookup_delete_eq. simpl.
      apply Nat.eqb_eq in E2. symmetry. by apply length_zero_iff_nil.
    + by rewrite lookup_insert_eq.
Qed.

Lemma off_registry_other name name' target b :
  name' ≠ name → registry name' (off name target b) = registry name' b.
Proof. intros. unfold registry. by rewrite off_other. Qed.


Lemma invocations_app name l1 l2 :
  invocations name (l1 ++ l2) = invocations name l1 ++ invocations name l2.
Proof. apply omap_app. Qed.

Lemma failures_app name l1 l2 :
  failures name (l1 ++ l2) = failures name l1 ++ failures name l2.
Proof. apply omap_app. Qed.

Lemma reemissions_app l1 l2 :
  reemissions (l1 ++ l2) = reemissions l1 ++ reemissions l2.
Proof. apply omap_app. Qed.

Lemma invocations_cons name lid a o l :
  invocations name (Invoked name lid a o :: l) = (lid, a) :: invocations name l.
Proof. unfold invocations. simpl. by rewrite bool_decide_true. Qed.

Lemma failures_cons_returned name n lid a l :
  failures name (Invoked n lid a Returned :: l) = failures name l.
Proof. done. Qed.

Lemma failures_cons_threw name lid a e l :
  failures name (Invoked name lid a (Threw e) :: l)
  = [VErrorInfo name e lid] :: failures name l.
Proof. unfold failures. simpl. by rewrite bool_decide_true. Qed.

Lemma reemissions_cons_invoked n lid a o l :
  reemissions (Invoked n lid a o :: l) = reemissions l.
Proof. done. Qed.

Lemma reemissions_cons_error a l :
  reemissions (Emitted "error" a :: l) = a :: reemissions l.
Proof. done. Qed.

Lemma invoked_in_invocations name lid a o l :
  Invoked name lid a o ∈ l → (lid, a) ∈ invocations name l.
Proof.
  intros H. unfold invocations. apply list_elem_of_omap.
  eexists. split; [exact H|]. simpl. by rewrite bool_decide_true.
Qed.

Lemma no_invocations_not_in name lid a o l :
  invocations name l = [] → Invoked name lid a o ∉ l.
Proof.
  intros H Hin. apply invoked_in_invocations in Hin. rewrite H in Hin.
  by apply not_elem_of_nil in Hin.
Qed.

Section ForEach.
Context {W : Type}.
Variable call :
  nat → option nat → list Value → W → Outcome * W * list BusCall.
Variables (name : string) (args : list Value).
Variable reemit : Listener → Value → @Sys W → @Sys W.

Hypothesis reemit_log : ∀ l e s, ∃ extra,
  log (reemit l e s) = log s ++ extra
  ∧ invocations name extra = []
  ∧ failures name extra = []
  ∧ reemissions extra
    = (if bool_decide (name = "error") then []
       else [[VErrorInfo name e (listenerId l)]]).

Lemma forEach_log ls : ∀ t s, ∃ new,
  log (forEach call reemit name args ls t s).2 = log s ++ new
  ∧ invocations name new = map (fun l => (listenerId l, args)) ls
  ∧ reemissions new
    = (if bool_decide (name = "error") then [] else failures name new).
Proof.
  induction ls as [|h rest IH]; intros t s; simpl.
  - exists []. rewrite app_nil_r. split; [done|]. split; [done|].
    by case_bool_decide.
  - destruct (call (callback h) (context h) args (world s)) as [[out w] ops].
    destruct out as [|e].
    + match goal with |- context [forEach _ _ _ _ rest ?t' ?s'] =>
        destruct (IH t' s') as (new & Hl & Hi & Hr); set (s2 := s') in * end.
      exists (Invoked name (listenerId h) args Returned :: new).
      split.
      { rewrite Hl. subst s2. destruct (once_flag h); simpl;
          by rewrite <- app_assoc. }
      split; [by rewrite invocations_cons, Hi|].
      by rewrite reemissions_cons_invoked, failures_cons_returned.
    + match goal with |- context [reemit h e ?s'] =>
        destruct (reemit_log h e s') as (extra & Hx & Hxi & Hxf & Hxr);
        set (s2 := s') in * end.
      destruct (IH t (reemit h e s2)) as (new & Hl & Hi & Hr).
      exists (Invoked name (listenerId h) args (Threw e) :: extra ++ new).
      split.
      { rewrite Hl, Hx. subst s2. simpl. by rewrite <- !app_assoc. }
      split; [by rewrite invocations_cons, invocations_app, Hxi, Hi|].
      rewrite reemissions_cons_invoked, failures_cons_threw.
      rewrite reemissions_app, failures_app, Hxr, Hxf, Hr.
      by case_bool_decide.
Qed.

End ForEach.


Section EmitFacts.
Context {W : Type}.
Variable call :
  nat → option nat → list Value → W → Outcome * W * list BusCall.

Lemma invocations_other name n lid a o l :
  n ≠ name →
  invocations name (Invoked n lid a o :: l) = invocations name l.
Proof. intros. unfold invocations. simpl. by rewrite bool_decide_false. Qed.

Lemma failures_other name n lid a o l :
  n ≠ name → failures name (Invoked n lid a o :: l) = failures name l.
Proof.
  intros. unfold failures. simpl. destruct o; [done|].
  by rewrite bool_decide_false.
Qed.

(** The listeners of 'error' called from a catch block: nothing is
    re-emitted, and the log shows no call for another event. *)
Lemma forEach_error_log args ls : ∀ t (s : @Sys W) name,
  name ≠ "error" →
  ∃ new,
    log (forEach call (fun _ _ s' => s') "error" args ls t s).2 = log s ++ new
    ∧ invocations name new = []
    ∧ failures name new = []
    ∧ reemissions new = [].
Proof.
  induction ls as [|h rest IH]; intros t s name Hne; simpl.
  - exists []. by rewrite app_nil_r.
  - destruct (call (callback h) (context h) args (world s)) as [[out w] ops].
    destruct out as [|e].
    + match goal with |- context [forEach _ _ _ _ rest ?t' ?s'] =>
        destruct (IH t' s' name Hne) as (new & Hl & Hi & Hf & Hr);
        set (s2 := s') in * end.
      exists (Invoked "error" (listenerId h) args Returned :: new).
      split.
      { rewrite Hl. subst s2. destruct (once_flag h); simpl;
          by rewrite <- app_assoc. }
      rewrite invocations_other, failures_other by done.
      by rewrite reemissions_cons_invoked.
    + match goal with |- context [forEach _ _ _ _ rest ?t' ?s'] =>
        destruct (IH t' s' name Hne) as (new & Hl & Hi & Hf & Hr) end.
      exists (Invoked "error" (listenerId h) args (Threw e) :: new).
      split.
      { rewrite Hl. simpl. by rewrite <- app_assoc. }
      rewrite invocations_other, failures_other by done.
      by rewrite reemissions_cons_invoked.
Qed.

Lemma emitError_log args (s : @Sys W) name :
  name ≠ "error" →
  ∃ extra,
    log (emitError call args s) = log s ++ extra
    ∧ invocations name extra = []
    ∧ failures name extra = []
    ∧ reemissions extra = [args].
Proof.
  intros Hne. unfold emitError, emitWith. simpl.
  destruct (events (bus s) !! "error") as [ls|] eqn:E; simpl.
  - match goal with |- context [forEach _ _ _ _ ls ?t' ?s'] =>
      destruct (forEach_error_log args ls t' s' name Hne)
        as (new & Hl & Hi & Hf & Hr);
      destruct (forEach call (fun _ _ s'' => s'') "error" args ls t' s')
        as [n s1] eqn:Ef end.
    simpl in *. exists (Emitted "error" args :: new).
    split; [by rewrite Hl, <- app_assoc|].
    repeat split; try done.
    by rewrite reemissions_cons_error, Hr.
  - exists [Emitted "error" args]. by repeat split.
Qed.

(** The catch block of [emit] meets what [forEach_log] and [forEach_once]
    ask of it. *)
Lemma reemit_log_emit name l e (s : @Sys W) :
  ∃ extra,
    log (if bool_decide (name = "error") then s
         else emitError call [VErrorInfo name e (listenerId l)] s)
    = log s ++ extra
    ∧ invocations name extra = []
    ∧ failures name extra = []
    ∧ reemissions extra
      = (if bool_decide (name = "error") then []
         else [[VErrorInfo name e (listenerId l)]]).
Proof.
  case_bool_decide as Hn.
  - exists []. by rewrite app_nil_r.
  - destruct (emitError_log [VErrorInfo name e (listenerId l)] s name Hn)
      as (extra & ? & ? & ? & ?).
    by exists extra.
Qed.

(** The first listener unsubscribes the third and throws: the third is
    called all the same, the error is reported once, and afterwards only
    the first listener, which threw, is left. *)
Lemma emit_iterates_over_a_copy :
  match emit Sample.unsubscribing "mode:changed" [] Sample.sys with
  | Ok (b, s') =>
      b = true
      ∧ invocations "mode:changed" (log s')
        = [("listener_1_a", []); ("listener_2_b", []); ("listener_3_c", [])]
      ∧ reemissions (log s')
        = [[VErrorInfo "mode:changed" (VStr "boom") "listener_1_a"]]
      ∧ invocations "error" (log s')
        = [("listener_4_d",
            [VErrorInfo "mode:changed" (VStr "boom") "listener_1_a"])]
      ∧ registry "mode:changed" (bus s') = [Sample.failing]
  | Error _ => False
  end.
Proof. vm_compute. by repeat split. Qed.

(** From here on the callbacks make no calls of [on] or [off]. *)
Hypothesis quiet : ∀ cb ctx a w, (call cb ctx a w).2 = [].

Lemma forEach_error_registry args ls : ∀ t (s : @Sys W) name,
  name ≠ "error" →
  registry name (bus (forEach call (fun _ _ s' => s') "error" args ls t s).2)
  = registry name (bus s).
Proof.
  induction ls as [|h rest IH]; intros t s name Hne; simpl; [done|].
  destruct (call (callback h) (context h) args (world s))
    as [[out w] ops] eqn:Hc.
  pose proof (quiet (callback h) (context h) args (world s)) as Hq.
  rewrite Hc in Hq. simpl in Hq. subst ops. cbn [fold_left].
  destruct out as [|e]; rewrite IH by done; [|done].
  destruct (once_flag h); simpl; [|done].
  by apply off_registry_other.
Qed.

Lemma emitError_registry args (s : @Sys W) name :
  name ≠ "error" →
  registry name (bus (emitError call args s)) = registry name (bus s).
Proof.
  intros Hne. unfold emitError, emitWith. simpl.
  destruct (events (bus s) !! "error") as [ls|] eqn:E; simpl; [|done].
  match goal with |- context [forEach _ _ _ _ ls ?t' ?s'] =>
    pose proof (forEach_error_registry args ls t' s' name Hne) as Hreg;
    destruct (forEach call (fun _ _ s'' => s'') "error" args ls t' s')
      as [n s1] eqn:Ef end.
  simpl in *. exact Hreg.
Qed.

Lemma reemit_registry_emit name l e (s : @Sys W) :
  registry name
    (bus (if bool_decide (name = "error") then s
          else emitError call [VErrorInfo name e (listenerId l)] s))
  = registry name (bus s).
Proof.
  case_bool_decide as Hn; [done|]. by apply emitError_registry.
Qed.

(** [once] registers a listener whose flag is set, after those present. *)
Lemma once_registers name cb options newId b :
  name ≠ "" →
  ∃ b', once name cb options newId b = Ok (newId, b')
        ∧ registry name b'
          = registry name b
            ++ [{| callback := cb; once_flag := true;
                   context := opt_context options; listenerId := newId |}].
Proof.
  intros Hne. unfold once, on. rewrite bool_decide_false by done.
  eexists. split; [done|]. unfold registry. simpl.
  by rewrite lookup_insert_eq.
Qed.

End EmitFacts.
End EventBusFacts.

(** ** The event bus with callbacks that use it freely *)

Section ReentrantFacts.
Import EventBus EventBus.Reentrant.
Context {W : Type}.
Variable call : nat → option nat → list Value → @Sys W → Outcome * @Sys W.

(** What the loop does, call by call. *)
Lemma forEach_calls reemit name args ls : ∀ t s,
  ∃ n s' cs,
    forEach call reemit name args ls t s = (n, s', cs)
    ∧ n = t + length (List.filter returnedCall cs)
    ∧ map listener cs = ls
    ∧ chained s cs s'
    ∧ ∀ c, c ∈ cs →
        call (callback (listener c)) (context (listener c)) args (before c)
        = (out c, after c)
        ∧ left c
          = match out c with
            | Returned =>
                if once_flag (listener c)
                then with_bus (off name (ById (listenerId (listener c))))
                       (after c)
                else after c
            | Threw e => reemit (listener c) e (with_bus count_error (after c))
            end.
Proof.
  induction ls as [|h rest IH]; intros t s; simpl.
  - exists t, s, []. split; [done|]. split; [simpl; lia|].
    split; [done|]. split; [done|].
    intros c Hc. by apply elem_of_nil in Hc.
  - destruct (call (callback h) (context h) args s) as [o s1] eqn:Hc.
    destruct o as [|e].
    + match goal with |- context [forEach _ _ _ _ rest ?t' ?s2] =>
        destruct (IH t' s2) as (n & s' & cs & -> & Hn & Hm & Hch & Hall) end.
      eexists _, _, _. split; [reflexivity|].
      split; [simpl; lia|].
      split; [by rewrite <- Hm|]. split; [by split|].
      intros c Hin. apply elem_of_cons in Hin as [->|Hin]; [|by apply Hall].
      by split.
    + match goal with |- context [forEach _ _ _ _ rest ?t' ?s2] =>
        destruct (IH t' s2) as (n & s' & cs & -> & Hn & Hm & Hch & Hall) end.
      eexists _, _, _. split; [reflexivity|].
      split; [simpl; lia|].
      split; [by rewrite <- Hm|]. split; [by split|].
      intros c Hin. apply elem_of_cons in Hin as [->|Hin]; [|by apply Hall].
      by split.
Qed.

(** The catch block's call of [emit] is a call of [emit]. *)
Lemma emitError_emit args (s : @Sys W) :
  ∃ b calls, emit call "error" args s = Ok (b, emitError call args s, calls).
Proof.
  assert (emit call "error" args s
          = emitWith call (fun _ _ s' => s') "error" args s) as ->.
  { unfold emit, emitWith. simpl.
    by destruct (events (bus s) !! "error"). }
  unfold emitError.
  destruct (emitWith call (fun _ _ s' => s') "error" args s)
    as [[[b s1] cs]|m] eqn:E; [by eexists _, _|].
  unfold emitWith in E. simpl in E.
  destruct (events (bus s) !! "error") as [ls|]; [|done].
  by destruct (forEach call (fun _ _ s' => s') "error" args ls 0 s)
    as [[n s1] cs].
Qed.

(** [emit] unfolded. *)
Lemma emit_unfold name args (s : @Sys W) :
  name ≠ "" →
  emit call name args s
  = match events (bus s) !! name with
    | None => Ok (false, s, [])
    | Some ls =>
        let r :=
          forEach call
            (fun h e s' =>
               if bool_decide (name = "error") then s'
               else emitError call [VErrorInfo name e (listenerId h)] s')
            name args ls 0 s in
        Ok (Nat.ltb 0 r.1.1, with_bus count_emitted r.1.2, r.2)
    end.
Proof.
  intros Hne. unfold emit, emitWith. rewrite bool_decide_false by done.
  destruct (events (bus s) !! name) as [ls|]; [|done]. simpl.
  by destruct (forEach call _ name args ls 0 s) as [[n s1] cs].
Qed.

(** C1. For every emission [emit eventName args] with a valid name,
    whatever the callbacks do with the bus (subscribe, unsubscribe, emit
    in their turn): [emit] returns normally; it calls the callback of
    each listener registered for the event when it starts, once and in
    registration order, with the listener's context and [args]; the
    first is called in the state of the emission and each later one in
    the state the loop was left in by the call before it, whether that
    call returned or threw; after a call that returned a one-time
    listener is unsubscribed; after a call that threw the error is
    counted and, unless the event is 'error', emitted as an 'error'
    event that names the event, the error and the listener.  [emit]
    returns true when one of the calls returned. *)
Theorem emit_delivers_to_every_listener name args (s : @Sys W) :
  name ≠ "" →
  ∃ b s' calls last,
    emit call name args s = Ok (b, s', calls)
    ∧ map listener calls = registry name (bus s)
    ∧ b = Nat.ltb 0 (length (List.filter returnedCall calls))
    ∧ chained s calls last
    ∧ s' = match events (bus s) !! name with
           | Some _ => with_bus count_emitted last
           | None => last
           end
    ∧ ∀ c, c ∈ calls →
        call (callback (listener c)) (context (listener c)) args (before c)
        = (out c, after c)
        ∧ match out c with
          | Returned =>
              left c
              = if once_flag (listener c)
                then with_bus (off name (ById (listenerId (listener c))))
                       (after c)
                else after c
          | Threw error =>
              if bool_decide (name = "error")
              then left c = with_bus count_error (after c)
              else ∃ b' calls',
                     emit call "error"
                       [VErrorInfo name error (listenerId (listener c))]
                       (with_bus count_error (after c))
                     = Ok (b', left c, calls')
          end.
Proof.
  intros Hne. unfold emit, emitWith, registry.
  rewrite bool_decide_false by done.
  destruct (events (bus s) !! name) as [ls|] eqn:E; simpl.
  - match goal with |- context [forEach _ ?f _ _ ls 0 s] =>
      destruct (forEach_calls f name args ls 0 s)
        as (n & s1 & cs & -> & Hn & Hm & Hch & Hall) end.
    exists (Nat.ltb 0 n), (with_bus count_emitted s1), cs, s1.
    split; [done|]. split; [done|]. split; [by rewrite Hn|].
    split; [done|]. split; [done|].
    intros c Hc. destruct (Hall c Hc) as [Hcall Hleft].
    split; [done|]. destruct (out c) as [|e]; [done|].
    case_bool_decide as Herr; [done|].
    rewrite Hleft.
    destruct (emitError_emit [VErrorInfo name e (listenerId (listener c))]
                (with_bus count_error (after c))) as (b' & cs' & He).
    by exists b', cs'.
  - exists false, s, [], s. split; [done|]. split; [done|].
    split; [done|]. split; [done|]. split; [done|].
    intros c Hc. by apply elem_of_nil in Hc.
Qed.


(** *** One-time listeners *)

Lemma leavesAlone_refl name l (s : @Sys W) : leavesAlone name l s s.
Proof. by split. Qed.

Lemma leavesAlone_trans name l (s1 s2 s3 : @Sys W) :
  leavesAlone name l s1 s2 → leavesAlone name l s2 s3 →
  leavesAlone name l s1 s3.
Proof. intros [H1 H2] [H3 H4]. split; auto. Qed.

Lemma leavesAlone_registry name l (s s' : @Sys W) :
  registry name (bus s') = registry name (bus s) → leavesAlone name l s s'.
Proof. intros E. unfold leavesAlone. by rewrite E. Qed.

Lemma leavesAlone_off_other name name' target l (s : @Sys W) :
  name' ≠ name → leavesAlone name l s (with_bus (off name' target) s).
Proof.
  intros Hne. apply leavesAlone_registry. simpl.
  by apply off_registry_other.
Qed.

Lemma leavesAlone_count_error name l (s : @Sys W) :
  leavesAlone name l s (with_bus count_error s).
Proof. by apply leavesAlone_registry. Qed.

Lemma leavesAlone_count_emitted name l (s : @Sys W) :
  leavesAlone name l s (with_bus count_emitted s).
Proof. by apply leavesAlone_registry. Qed.

Section Kept.
Variables (name : string) (l : Listener).

(** No callback unsubscribes [l] from the event, and none subscribes a
    listener under its identifier. *)
Hypothesis callbacks_leave :
  ∀ cb ctx a st, leavesAlone name l st (call cb ctx a st).2.

(** An emission of another event leaves the registration alone, when
    its catch block does. *)
Lemma forEach_other_leaves reemit name' args ls :
  name' ≠ name →
  (∀ h e st, leavesAlone name l st (reemit h e st)) →
  ∀ t s, leavesAlone name l s (forEach call reemit name' args ls t s).1.2.
Proof.
  intros Hne Hre. induction ls as [|h rest IH]; intros t s; simpl.
  - apply leavesAlone_refl.
  - pose proof (callbacks_leave (callback h) (context h) args s) as Hc.
    destruct (call (callback h) (context h) args s) as [[|e] s1]; simpl in Hc.
    + match goal with |- context [forEach _ _ _ _ rest ?t' ?s2] =>
        pose proof (IH t' s2) as Hrest;
        destruct (forEach call reemit name' args rest t' s2) as [[n s3] cs]
      end.
      simpl in *. eapply leavesAlone_trans; [exact Hc|].
      eapply leavesAlone_trans; [|exact Hrest].
      destruct (once_flag h); [|apply leavesAlone_refl].
      by apply leavesAlone_off_other.
    + match goal with |- context [forEach _ _ _ _ rest ?t' ?s2] =>
        pose proof (IH t' s2) as Hrest;
        destruct (forEach call reemit name' args rest t' s2) as [[n s3] cs]
      end.
      simpl in *. eapply leavesAlone_trans; [exact Hc|].
      eapply leavesAlone_trans; [|exact Hrest].
      eapply leavesAlone_trans; [apply leavesAlone_count_error|apply Hre].
Qed.

Lemma emitWith_other_leaves reemit name' args (s : @Sys W) :
  name' ≠ name →
  (∀ h e st, leavesAlone name l st (reemit h e st)) →
  match emitWith call reemit name' args s with
  | Ok (_, s', _) => leavesAlone name l s s'
  | Error _ => True
  end.
Proof.
  intros Hne Hre. unfold emitWith. case_bool_decide; [done|].
  destruct (events (bus s) !! name') as [ls|]; [|apply leavesAlone_refl].
  pose proof (forEach_other_leaves reemit name' args ls Hne Hre 0 s) as H1.
  destruct (forEach call reemit name' args ls 0 s) as [[n s1] cs].
  simpl in *. eapply leavesAlone_trans; [exact H1|].
  apply leavesAlone_count_emitted.
Qed.

Lemma emitError_leaves args (s : @Sys W) :
  name ≠ "error" → leavesAlone name l s (emitError call args s).
Proof.
  intros Hne. unfold emitError.
  pose proof (emitWith_other_leaves (fun _ _ s' => s') "error" args s) as H1.
  destruct (emitWith call (fun _ _ s' => s') "error" args s)
    as [[[b s1] cs]|m]; [|apply leavesAlone_refl].
  apply H1; [done|]. intros. apply leavesAlone_refl.
Qed.

(** The catch block of an emission of the event leaves the registration
    alone. *)
Lemma reemit_leaves h e (s : @Sys W) :
  leavesAlone name l s
    (if bool_decide (name = "error") then s
     else emitError call [VErrorInfo name e (listenerId h)] s).
Proof.
  case_bool_decide as Hn; [apply leavesAlone_refl|].
  by apply emitError_leaves.
Qed.

(** So does an emission of another event. *)
Lemma emit_other_leaves name' args (s : @Sys W) :
  name' ≠ name → name ≠ "error" →
  match emit call name' args s with
  | Ok (_, s', _) => leavesAlone name l s s'
  | Error _ => True
  end.
Proof.
  intros Hne Herr. apply emitWith_other_leaves; [done|].
  intros h e st. case_bool_decide; [apply leavesAlone_refl|].
  by apply emitError_leaves.
Qed.

Lemma off_absent lid b :
  listenerId l ∉ map listenerId (registry name b) →
  listenerId l ∉ map listenerId (registry name (off name (ById lid) b)).
Proof.
  intros Hn Hin. apply Hn. rewrite off_registry in Hin.
  apply list_elem_of_fmap in Hin as (x & Hx & Hin).
  apply list_elem_of_In, filter_In in Hin as [Hin _].
  apply list_elem_of_fmap. exists x. split; [done|by apply list_elem_of_In].
Qed.

Lemma off_removes b :
  listenerId l
  ∉ map listenerId (registry name (off name (ById (listenerId l)) b)).
Proof.
  rewrite off_registry. intros Hin.
  apply list_elem_of_fmap in Hin as (x & Hx & Hin).
  apply list_elem_of_In, filter_In in Hin as [_ Hk]. simpl in Hk.
  rewrite <- Hx in Hk. by rewrite bool_decide_true in Hk.
Qed.

Lemma off_present lid b :
  listenerId l ≠ lid →
  l ∈ registry name b → l ∈ registry name (off name (ById lid) b).
Proof.
  intros Hne Hin. rewrite off_registry.
  apply list_elem_of_In, filter_In. split; [by apply list_elem_of_In|].
  simpl. by rewrite bool_decide_false.
Qed.

Let reemit : Listener → Value → @Sys W → @Sys W :=
  fun h e s' =>
    if bool_decide (name = "error") then s'
    else emitError call [VErrorInfo name e (listenerId h)] s'.

(** The loop of an emission of the event never brings the identifier
    back. *)
Lemma forEach_absent args ls : ∀ t s,
  listenerId l ∉ map listenerId (registry name (bus s)) →
  listenerId l
  ∉ map listenerId
      (registry name (bus (forEach call reemit name args ls t s).1.2)).
Proof.
  induction ls as [|h rest IH]; intros t s Hn; simpl; [done|].
  pose proof (callbacks_leave (callback h) (context h) args s) as [_ Hc].
  destruct (call (callback h) (context h) args s) as [[|e] s1]; simpl in Hc.
  - match goal with |- context [forEach _ _ _ _ rest ?t' ?s2] =>
      pose proof (IH t' s2) as Hrest;
      destruct (forEach call reemit name args rest t' s2) as [[n s3] cs]
    end.
    simpl in *. apply Hrest.
    destruct (once_flag h); simpl; [|by apply Hc].
    apply off_absent. by apply Hc.
  - match goal with |- context [forEach _ _ _ _ rest ?t' ?s2] =>
      pose proof (IH t' s2) as Hrest;
      destruct (forEach call reemit name args rest t' s2) as [[n s3] cs]
    end.
    simpl in *. apply Hrest.
    apply (reemit_leaves h e (with_bus count_error s1)). simpl. by apply Hc.
Qed.

(** It keeps [l] registered as long as no listener it calls has the
    identifier of [l]. *)
Lemma forEach_present args ls : ∀ t s,
  (∀ h, h ∈ ls → listenerId h ≠ listenerId l) →
  l ∈ registry name (bus s) →
  l ∈ registry name (bus (forEach call reemit name args ls t s).1.2).
Proof.
  induction ls as [|h rest IH]; intros t s Hids Hin; simpl; [done|].
  pose proof (callbacks_leave (callback h) (context h) args s) as [Hc _].
  assert (listenerId l ≠ listenerId h) as Hh.
  { intros E. apply (Hids h); [by left|done]. }
  assert (∀ h', h' ∈ rest → listenerId h' ≠ listenerId l) as Hrest'.
  { intros h' Hh'. apply Hids. by right. }
  destruct (call (callback h) (context h) args s) as [[|e] s1]; simpl in Hc.
  - match goal with |- context [forEach _ _ _ _ rest ?t' ?s2] =>
      pose proof (IH t' s2 Hrest') as Hrest;
      destruct (forEach call reemit name args rest t' s2) as [[n s3] cs]
    end.
    simpl in *. apply Hrest.
    destruct (once_flag h); simpl; [|by apply Hc].
    apply off_present; [done|by apply Hc].
  - match goal with |- context [forEach _ _ _ _ rest ?t' ?s2] =>
      pose proof (IH t' s2 Hrest') as Hrest;
      destruct (forEach call reemit name args rest t' s2) as [[n s3] cs]
    end.
    simpl in *. apply Hrest.
    apply (reemit_leaves h e (with_bus count_error s1)). simpl. by apply Hc.
Qed.

(** A one-time listener among those the loop calls. *)
Lemma forEach_once args ls : ∀ t s,
  NoDup (map listenerId ls) → l ∈ ls → once_flag l = true →
  ∃ c,
    c ∈ (forEach call reemit name args ls t s).2
    ∧ listener c = l
    ∧ (out c = Returned →
       listenerId l
       ∉ map listenerId
           (registry name (bus (forEach call reemit name args ls t s).1.2)))
    ∧ (∀ e, out c = Threw e →
       l ∈ registry name (bus s) →
       l ∈ registry name (bus (forEach call reemit name args ls t s).1.2)).
Proof.
  induction ls as [|h rest IH]; intros t s Hnd Hl Honce;
    [by apply elem_of_nil in Hl|].
  simpl in Hnd. apply NoDup_cons in Hnd as [Hh Hnd].
  apply elem_of_cons in Hl as [Heq|Hl]; [subst h|].
  - (* the listener is the one called now *)
    assert (∀ h', h' ∈ rest → listenerId h' ≠ listenerId l) as Hrest'.
    { intros h' Hh' E. apply Hh. rewrite <- E.
      apply list_elem_of_fmap. by exists h'. }
    simpl.
    pose proof (callbacks_leave (callback l) (context l) args s) as [Hc _].
    destruct (call (callback l) (context l) args s) as [[|e] s1]; simpl in Hc.
    + rewrite Honce.
      match goal with |- context [forEach _ _ _ _ rest ?t' ?s2] =>
        pose proof (forEach_absent args rest t' s2) as Hrest;
        destruct (forEach call reemit name args rest t' s2) as [[n s3] cs]
      end.
      simpl in *. eexists. split; [by left|]. simpl.
      split; [done|]. split; [|done].
      intros _. apply Hrest. apply off_removes.
    + match goal with |- context [forEach _ _ _ _ rest ?t' ?s2] =>
        pose proof (forEach_present args rest t' s2 Hrest') as Hrest;
        destruct (forEach call reemit name args rest t' s2) as [[n s3] cs]
      end.
      simpl in *. eexists. split; [by left|]. simpl.
      split; [done|]. split; [done|].
      intros e' _ Hin. apply Hrest.
      apply (reemit_leaves l e (with_bus count_error s1)). simpl.
      by apply Hc.
  - (* the listener is called later *)
    assert (listenerId l ≠ listenerId h) as Hne.
    { intros E. apply Hh. rewrite <- E. apply list_elem_of_fmap. by exists l. }
    simpl.
    pose proof (callbacks_leave (callback h) (context h) args s) as [Hc _].
    destruct (call (callback h) (context h) args s) as [[|e] s1]; simpl in Hc.
    + match goal with |- context [forEach _ _ _ _ rest ?t' ?s2] =>
        destruct (IH t' s2 Hnd Hl Honce) as (c & Hin & Hlc & Hret & Hthr);
        destruct (forEach call reemit name args rest t' s2) as [[n s3] cs]
      end.
      simpl in *. exists c. split; [by right|]. split; [done|].
      split; [done|].
      intros e Ho Hreg. apply (Hthr e Ho).
      destruct (once_flag h); simpl; [|by apply Hc].
      apply off_present; [done|by apply Hc].
    + match goal with |- context [forEach _ _ _ _ rest ?t' ?s2] =>
        destruct (IH t' s2 Hnd Hl Honce) as (c & Hin & Hlc & Hret & Hthr);
        destruct (forEach call reemit name args rest t' s2) as [[n s3] cs]
      end.
      simpl in *. exists c. split; [by right|]. split; [done|].
      split; [done|].
      intros e' Ho Hreg. apply (Hthr e' Ho).
      apply (reemit_leaves h e (with_bus count_error s1)). simpl.
      by apply Hc.
Qed.

End Kept.


End ReentrantFacts.

(** ** The two models of [emit] agree

    On callbacks that only subscribe and unsubscribe, the emission with
    the log and the emission above return the same and leave the same
    bus and page. *)

Section Agreement.
Import EventBus.
Context {W : Type}.
Variable call :
  nat → option nat → list Value → W → Outcome * W * list BusCall.

Lemma forEach_agrees reemit reemit' name args ls :
  (∀ h e s, Reentrant.forget (reemit h e s) = reemit' h e (Reentrant.forget s)) →
  ∀ t (s : @Sys W),
    (forEach call reemit name args ls t s).1
    = (Reentrant.forEach (Reentrant.ofCalls call) reemit' name args ls t
         (Reentrant.forget s)).1.1
    ∧ Reentrant.forget (forEach call reemit name args ls t s).2
      = (Reentrant.forEach (Reentrant.ofCalls call) reemit' name args ls t
           (Reentrant.forget s)).1.2.
Proof.
  intros Hre. induction ls as [|h rest IH]; intros t s; simpl; [done|].
  destruct (call (callback h) (context h) args (world s)) as [[o w] ops] eqn:Hc.
  assert (Reentrant.ofCalls call (callback h) (context h) args
            (Reentrant.forget s)
          = (o, {| Reentrant.bus := fold_left perform ops (bus s);
                   Reentrant.world := w |})) as ->
    by (unfold Reentrant.ofCalls; simpl; by rewrite Hc).
  destruct o as [|e].
  - match goal with |- context [forEach _ _ _ _ rest ?t' ?s2] =>
      destruct (IH t' s2) as [H1 H2];
      set (r := forEach call reemit name args rest t' s2) in *;
      assert (Reentrant.forget s2
              = (if once_flag h
                 then Reentrant.with_bus (off name (ById (listenerId h)))
                        {| Reentrant.bus := fold_left perform ops (bus s);
                           Reentrant.world := w |}
                 else {| Reentrant.bus := fold_left perform ops (bus s);
                         Reentrant.world := w |})) as Ef
        by (by destruct (once_flag h))
    end.
    rewrite Ef in H1, H2.
    match type of H1 with context [Reentrant.forEach ?c ?rr ?nm ?a ?l ?t' ?s3] =>
      destruct (Reentrant.forEach c rr nm a l t' s3) as [[n s4] cs] end.
    simpl in H1, H2 |- *. split; [exact H1|exact H2].
  - match goal with |- context [forEach _ _ _ _ rest ?t' ?s2] =>
      destruct (IH t' s2) as [H1 H2];
      set (r := forEach call reemit name args rest t' s2) in *
    end.
    rewrite Hre in H1, H2.
    match goal with |- context [Reentrant.forEach ?c ?rr ?nm ?a ?l ?t' ?s3] =>
      match type of H1 with context [Reentrant.forEach _ _ _ _ _ _ ?s5] =>
        change s5 with s3 in H1, H2 end;
      destruct (Reentrant.forEach c rr nm a l t' s3) as [[n s4] cs] end.
    simpl in H1, H2 |- *. split; [exact H1|exact H2].
Qed.

Lemma emitWith_agrees reemit reemit' name args (s : @Sys W) :
  (∀ h e s, Reentrant.forget (reemit h e s) = reemit' h e (Reentrant.forget s)) →
  match emitWith call reemit name args s,
        Reentrant.emitWith (Reentrant.ofCalls call) reemit' name args
          (Reentrant.forget s) with
  | Ok (b, s1), Ok (b', s1', _) => b = b' ∧ Reentrant.forget s1 = s1'
  | Error m, Error m' => m = m'
  | _, _ => False
  end.
Proof.
  intros Hre. unfold emitWith, Reentrant.emitWith.
  case_bool_decide; [done|]. simpl.
  destruct (events (bus s) !! name) as [ls|]; [|done].
  match goal with |- context [forEach _ _ _ _ ls 0 ?s0] =>
    destruct (forEach_agrees reemit reemit' name args ls Hre 0 s0) as [H1 H2];
    destruct (forEach call reemit name args ls 0 s0) as [n s1] end.
  simpl in H1, H2 |- *.
  match goal with |- context [Reentrant.forEach ?c ?r ?nm ?a ?l 0 ?s0] =>
    match type of H1 with context [Reentrant.forEach _ _ _ _ _ _ ?s5] =>
      change s5 with s0 in H1, H2 end;
    destruct (Reentrant.forEach c r nm a l 0 s0) as [[n' s1'] cs] end.
  simpl in H1, H2 |- *. subst n' s1'. by split.
Qed.

Lemma emitError_agrees args (s : @Sys W) :
  Reentrant.forget (emitError call args s)
  = Reentrant.emitError (Reentrant.ofCalls call) args (Reentrant.forget s).
Proof.
  unfold emitError, Reentrant.emitError.
  pose proof (emitWith_agrees (fun _ _ s' => s') (fun _ _ s' => s')
                "error" args s) as H.
  destruct (emitWith call (fun _ _ s' => s') "error" args s) as [[b s1]|m];
    destruct (Reentrant.emitWith (Reentrant.ofCalls call) (fun _ _ s' => s')
                "error" args (Reentrant.forget s)) as [[[b' s1'] cs]|m'];
    try (by destruct H); done.
Qed.

(** What [emit] returns, and the bus and the page it leaves, are the
    same in the two models. *)
Lemma emit_agrees name args (s : @Sys W) :
  match emit call name args s,
        Reentrant.emit (Reentrant.ofCalls call) name args (Reentrant.forget s)
  with
  | Ok (b, s1), Ok (b', s1', _) => b = b' ∧ Reentrant.forget s1 = s1'
  | Error m, Error m' => m = m'
  | _, _ => False
  end.
Proof.
  apply emitWith_agrees. intros h e s0.
  case_bool_decide; [done|]. apply emitError_agrees.
Qed.

End Agreement.

(** ** The property form *)

Section PropertyFormFacts.
Import Js PropertyForm.

Lemma samples_validate c : samples (state (validate c)) = samples (state c).
Proof. done. Qed.


Lemma sanitizedValue_inRange rawValue : inRange 1 500 (sanitizedValue rawValue).
Proof.
  unfold sanitizedValue, samples_min, samples_max.
  destruct (parseInt rawValue (Some 10%Z)) as [q| | |] eqn:E;
    try (simpl; split; lra).
  cbn [isNaN orb].
  destruct (lt (Fin q) (Fin 1)) eqn:E1; [simpl; split; lra|].
  destruct (gt (Fin q) (Fin 500)) eqn:E2; [simpl; split; lra|].
  apply lt_Fin_false in E1. unfold gt in E2. apply lt_Fin_false in E2.
  by simpl.
Qed.

Lemma handleSamplesChange_stores rawValue c :
  strictEq (samples (state (handleSamplesChange rawValue c)))
           (sanitizedValue rawValue) = true.
Proof.
  unfold handleSamplesChange.
  destruct (strictEq (samples (state c)) (sanitizedValue rawValue)) eqn:E; simpl.
  - done.
  - apply strictEq_refl.
    pose proof (sanitizedValue_inRange rawValue) as H.
    by destruct (sanitizedValue rawValue).
Qed.


(** The handler of the slider sets no bounds of its own: it stores what
    it reads, and the bounds are those of the control. *)
Lemma handleTemperatureChange_sets_no_bounds :
  ¬ (∀ (v : jsnum) (c : Component),
       ¬ inRange 0 2 v →
       inRange 0 2 (temperature (state (handleTemperatureChange v c)))).
Proof.
  intros H. specialize (H (Fin 3.5) constructor).
  assert (¬ inRange 0 2 (Fin 3.5)) as Hout.
  { simpl. intros [_ Hle]. revert Hle. by vm_compute. }
  specialize (H Hout). revert H. simpl. intros [_ Hle]. revert Hle.
  by vm_compute.
Qed.

Lemma validate_temperature_out v c :
  lt v (Fin 0) = true ∨ gt v (Fin 2) = true →
  isValid (state (validate (set_temperature v c))) = false.
Proof.
  intros H. unfold validate. cbn [state isValid].
  unfold validationErrors. cbn [set_temperature state temperature samples].
  assert (lt v temperature_min || gt v temperature_max = true) as ->.
  { unfold temperature_min, temperature_max.
    destruct H as [-> | ->]; [done|apply orb_true_r]. }
  rewrite !length_app. simpl.
  apply Nat.eqb_neq. lia.
Qed.

(** The other way to set the temperature: a number other than NaN given
    to [handleFormDataSet], and different from the stored one, is stored
    clamped into [0,2], 0 when it is below 0 and 2 when it is above 2.
    [handleTemperatureChange] stores the value it reads as it is; were
    that value below 0 or above 2, the form would be marked invalid. *)
Lemma temperature_clamped_when_set (v : jsnum) (s : option jsnum)
    (c : Component) :
  isNaN v = false →
  strictEq v (temperature (state c)) = false →
  let c1 := handleFormDataSet
              {| data_samples := s; data_temperature := Some v |} c in
  let c2 := handleTemperatureChange v c in
  inRange 0 2 (temperature (state c1))
  ∧ (lt v (Fin 0) = true → strictEq (temperature (state c1)) (Fin 0) = true)
  ∧ (gt v (Fin 2) = true → strictEq (temperature (state c1)) (Fin 2) = true)
  ∧ temperature (state c2) = v
  ∧ (lt v (Fin 0) = true ∨ gt v (Fin 2) = true → isValid (state c2) = false).
Proof.
  intros Hn Hne c1 c2.
  assert (temperature (state c1)
          = Math_max temperature_min (Math_min temperature_max v)) as E1.
  { subst c1. unfold handleFormDataSet. simpl.
    destruct s as [n|]; [destruct (strictEq n (samples (state c)))|];
      simpl; rewrite Hne; simpl; try done.
    all: by rewrite ?orb_true_r. }
  assert (c2 = emitFormChange (validate (set_temperature v c))) as E2.
  { subst c2. unfold handleTemperatureChange.
    by rewrite strictEq_sym, Hne. }
  rewrite E1. unfold temperature_min, temperature_max.
  split; [apply clamp_inRange; [lra|done]|].
  split; [apply clamp_below; lra|].
  split; [apply clamp_above; lra|].
  rewrite E2. split; [done|].
  intros H. simpl. by apply validate_temperature_out.
Qed.

(** The control holds a value of [0,2], whatever is given to it. *)
Lemma sliderValue_inRange submitted : inRange 0 2 (sliderValue submitted).
Proof.
  unfold sliderValue, slider_min, slider_max, slider_step.
  destruct submitted as [q| | |]; try (split; by vm_compute).
  destruct (Qle_bool 0 q) eqn:E0; [|split; by vm_compute].
  destruct (Qle_bool q 2) eqn:E2; [|split; by vm_compute].
  apply Qle_bool_iff in E0, E2. unfold inRange.
  set (x := ((q - 0) / (1 # 10) + (1 # 2))%Q).
  assert ((q - 0) / (1 # 10) == 10 * q)%Q as Ex by (field).
  assert ((1 # 2) <= x)%Q as Hlo by (subst x; rewrite Ex; lra).
  assert (x <= (41 # 2))%Q as Hhi by (subst x; rewrite Ex; lra).
  assert (0 <= Qfloor x)%Z as Hz0.
  { change 0%Z with (Qfloor 0). apply Qfloor_resp_le. lra. }
  assert (Qfloor x <= 20)%Z as Hz20.
  { apply Qfloor_resp_le in Hhi.
    assert (Qfloor (41 # 2) = 20%Z) as E by reflexivity. lia. }
  assert (0 <= inject_Z (Qfloor x))%Q as H0.
  { change 0%Q with (inject_Z 0). by rewrite <- Zle_Qle. }
  assert (inject_Z (Qfloor x) <= 20)%Q as H20.
  { change 20%Q with (inject_Z 20). by rewrite <- Zle_Qle. }
  split; lra.
Qed.

(** A number below the range becomes 0 and one above it becomes 2. *)
Lemma sliderValue_below q : (q < 0)%Q → sliderValue (Fin q) = Fin 0.
Proof.
  intros H. unfold sliderValue, slider_min.
  destruct (Qle_bool 0 q) eqn:E; [|done].
  apply Qle_bool_iff in E. lra.
Qed.

Lemma sliderValue_above q : (2 < q)%Q → sliderValue (Fin q) = Fin 2.
Proof.
  intros H. unfold sliderValue, slider_min, slider_max.
  destruct (Qle_bool 0 q) eqn:E0.
  - destruct (Qle_bool q 2) eqn:E2; [|done].
    apply Qle_bool_iff in E2. lra.
  - assert (¬ (0 <= q)%Q) as Hn by (rewrite <- Qle_bool_iff; congruence). lra.
Qed.

Lemma strictEq_inRange_l lo hi a b :
  strictEq a b = true → inRange lo hi b → inRange lo hi a.
Proof.
  destruct a as [x| | |], b as [y| | |]; simpl; try done.
  intros E [H1 H2]. apply Qeq_bool_iff in E. split; lra.
Qed.

(** What the slider handler stores: the value of the control, up to
    [===]. *)
Lemma handleTemperatureChange_stores v c :
  strictEq (temperature (state (handleTemperatureChange v c))) v = true
  ∨ (isNaN v = true ∧ temperature (state (handleTemperatureChange v c)) = v).
Proof.
  unfold handleTemperatureChange.
  destruct (strictEq (temperature (state c)) v) eqn:E; simpl; [by left|].
  destruct v as [x| | |]; simpl; try (by left); [|by right].
  left. by apply Qeq_bool_iff.
Qed.

(** C4. Whatever is given to the temperature control, and in particular
    every number outside [0,2], the temperature stored after the input
    event lies in [0,2]: a number above 2 is stored as 2 and one below 0
    as 0. *)
Theorem temperature_clamped (submitted : jsnum) (c : Component) :
  inRange 0 2 (temperature (state (temperatureInput submitted c)))
  ∧ (∀ q, submitted = Fin q → (q < 0)%Q →
       strictEq (temperature (state (temperatureInput submitted c))) (Fin 0)
       = true)
  ∧ (∀ q, submitted = Fin q → (2 < q)%Q →
       strictEq (temperature (state (temperatureInput submitted c))) (Fin 2)
       = true).
Proof.
  assert (strictEq (temperature (state (temperatureInput submitted c)))
            (sliderValue submitted) = true) as Hs.
  { unfold temperatureInput.
    destruct (handleTemperatureChange_stores (sliderValue submitted) c)
      as [H|[Hn _]]; [done|].
    pose proof (sliderValue_inRange submitted) as Hr.
    by destruct (sliderValue submitted). }
  split.
  { eapply strictEq_inRange_l; [exact Hs|apply sliderValue_inRange]. }
  split; intros q -> Hq.
  - by rewrite (sliderValue_below q Hq) in Hs.
  - by rewrite (sliderValue_above q Hq) in Hs.
Qed.

End PropertyFormFacts.

(** ** Validation *)

Section ValidationFacts.
Import Js Form Policy.

Lemma elem_of_if_singleton (b : bool) (x m : string) :
  m ∈ (if b then [x] else []) ↔ m = x ∧ b = true.
Proof.
  destruct b; split.
  - intros ->%list_elem_of_singleton. done.
  - intros [-> _]. by apply list_elem_of_singleton.
  - intros H. by apply elem_of_nil in H.
  - intros [_ ?]. done.
Qed.

Lemma length_if_singleton (b : bool) (x : string) :
  length (if b then [x] else []) = 0 ↔ b = false.
Proof. by destruct b. Qed.

Lemma samples_below_false (s : option jsnum) :
  negb (truthyOpt s) || lt (toNumber s) (Fin 1) = false
  ↔ ∃ n, s = Some n ∧ ge n (Fin 1) = true.
Proof.
  destruct s as [[q| | |]|]; simpl; split; try done;
    try (by intros (n & [= <-] & ?)); try (by eexists).
  - intros H. apply orb_false_iff in H as [H1 H2].
    apply negb_false_iff in H2. eexists. split; [done|]. exact H2.
  - intros (n & [= <-] & H). simpl in H. unfold ge, le in H.
    rewrite H, negb_involutive. simpl. rewrite orb_false_r.
    destruct (Qeq_bool q 0) eqn:E; [|done].
    apply Qeq_bool_iff in E. apply Qle_bool_iff in H. lra.
Qed.

Lemma samples_above_true (s : option jsnum) :
  gt (toNumber s) (Fin 500) = true
  ↔ ∃ n, s = Some n ∧ gt n (Fin 500) = true.
Proof.
  destruct s as [n|]; simpl; split; try done.
  - intros H. by exists n.
  - by intros (n' & [= <-] & ?).
  - by intros (n' & ? & ?).
Qed.

Lemma samplesInRange_iff fd :
  samplesInRange fd
  ↔ (∃ n, samples fd = Some n ∧ ge n (Fin 1) = true)
    ∧ ¬ (∃ n, samples fd = Some n ∧ gt n (Fin 500) = true).
Proof.
  unfold samplesInRange. split.
  - intros (n & Hs & Hr). destruct n as [q| | |]; try done.
    destruct Hr as [H1 H2]. split.
    + exists (Fin q). split; [done|]. by apply Qle_bool_iff.
    + intros (n' & Hs' & Hg). rewrite Hs in Hs'. injection Hs' as <-.
      unfold gt in Hg. apply lt_Fin in Hg. lra.
  - intros [(n & Hs & Hg) Hno]. exists n. split; [done|].
    destruct n as [q| | |]; try done.
    + split; [by apply Qle_bool_iff in Hg|].
      destruct (Qle_bool q 500) eqn:E; [by apply Qle_bool_iff|].
      exfalso. apply Hno. exists (Fin q). split; [done|].
      unfold gt. simpl. by rewrite E.
    + exfalso. apply Hno. by exists PosInf.
Qed.

Lemma temperature_out_false (t : option jsnum) :
  lt (toNumber t) (Fin 0) || gt (toNumber t) (Fin 2) = false
  ↔ match t with
    | Some (Fin q) => (0 <= q)%Q ∧ (q <= 2)%Q
    | Some NaN | None => True
    | Some PosInf | Some NegInf => False
    end.
Proof.
  destruct t as [[q| | |]|]; simpl; try done.
  rewrite orb_false_iff, !negb_false_iff, !Qle_bool_iff. done.
Qed.

Lemma temperature_out_true (t : option jsnum) :
  lt (toNumber t) (Fin 0) || gt (toNumber t) (Fin 2) = true
  ↔ ∃ n, t = Some n ∧ (lt n (Fin 0) = true ∨ gt n (Fin 2) = true).
Proof.
  destruct t as [n|]; simpl.
  - rewrite orb_true_iff. split.
    + intros H. by exists n.
    + by intros (n' & [= <-] & H).
  - split; [done|]. by intros (n' & ? & ?).
Qed.

Lemma truthyStr_iff o : truthyStr o = true ↔ nonEmpty o.
Proof.
  unfold truthyStr, nonEmpty. destruct o as [s|].
  - rewrite negb_true_iff, bool_decide_eq_false. split.
    + intros H. by exists s.
    + by intros (s' & [= <-] & H).
  - split; [done|]. by intros (s' & ? & ?).
Qed.

Lemma truthyFile_iff o : truthyFile o = true ↔ present o.
Proof.
  unfold truthyFile, present. destruct o as [f|].
  - split; [by exists f|done].
  - split; [done|]. by intros (f & ?).
Qed.

Lemma scaffold_cond_false mode fd :
  (if bool_decide (mode = "Scaffold Decoration")
   then negb (truthyStr (scaffold fd)) && negb (truthyFile (scaffoldFile fd))
   else false) = false
  ↔ scaffoldRule mode fd.
Proof.
  unfold scaffoldRule. case_bool_decide as Hm.
  - rewrite <- truthyStr_iff, <- truthyFile_iff.
    destruct (truthyStr _), (truthyFile _); simpl; intuition congruence.
  - intuition congruence.
Qed.

Lemma fragment_cond_false mode fd :
  (if bool_decide (mode = "Fragment Linking")
   then negb (truthyFile (fragmentFile fd))
        && (negb (truthyStr (fragment1 fd)) || negb (truthyStr (fragment2 fd)))
   else false) = false
  ↔ fragmentRule mode fd.
Proof.
  unfold fragmentRule. case_bool_decide as Hm.
  - rewrite <- !truthyStr_iff, <- truthyFile_iff.
    destruct (truthyFile _), (truthyStr (fragment1 fd)),
      (truthyStr (fragment2 fd)); simpl; intuition congruence.
  - intuition congruence.
Qed.

Lemma if_if_singleton (b c : bool) (x : string) :
  (if b then (if c then [x] else []) else []) = if (if b then c else false) then [x] else [].
Proof. by destruct b, c. Qed.

(** The decision of [validation], rule by rule. *)
Lemma validation_isValid mode fd :
  isValid (validation mode fd) = true
  ↔ (∃ n, samples fd = Some n ∧ ge n (Fin 1) = true)
    ∧ ¬ (∃ n, samples fd = Some n ∧ gt n (Fin 500) = true)
    ∧ temperatureAccepted fd
    ∧ mode ≠ "Select Mode"
    ∧ scaffoldRule mode fd ∧ fragmentRule mode fd.
Proof.
  unfold validation, validationErrors. cbn [isValid].
  rewrite !if_if_singleton.
  rewrite Nat.eqb_eq, !length_app.
  rewrite <- samples_below_false, <- samples_above_true.
  unfold temperatureAccepted. rewrite <- temperature_out_false.
  rewrite <- scaffold_cond_false, <- fragment_cond_false.
  rewrite <- (bool_decide_eq_false (mode = "Select Mode")).
  repeat match goal with
         | |- context [length (if ?b then [?x] else [])] =>
             destruct b; cbn [length]
         end; split; intros H; try lia; try done;
    try (destruct H as (? & ? & ? & ? & ? & ?); done).
Qed.

Lemma validation_errors mode fd message :
  message ∈ errors (validation mode fd) ↔ violated mode fd message.
Proof.
  unfold validation, validationErrors, violated. cbn [errors].
  rewrite !if_if_singleton.
  rewrite !elem_of_app, !elem_of_if_singleton.
  rewrite <- samples_below_false, <- samples_above_true.
  rewrite <- temperature_out_true.
  rewrite <- scaffold_cond_false, <- fragment_cond_false.
  rewrite bool_decide_eq_true.
  rewrite !not_false_iff_true.
  done.
Qed.

Lemma validation_errors_NoDup mode fd : NoDup (errors (validation mode fd)).
Proof.
  unfold validation, validationErrors. cbn [errors].
  rewrite !if_if_singleton.
  repeat match goal with
         | |- context [if ?b then [?x] else []] => destruct b
         end; cbn [app];
    apply (bool_decide_unpack _); by vm_compute.
Qed.

End ValidationFacts.

(** ** The generation controller *)

Section GenerationControllerFacts.
Import Js Form Policy GenerationController.

(** The policy of the specification is not what [validateForm] tests:
    without a temperature the form is found valid. *)
Lemma validateForm_accepts_missing_temperature :
  ¬ (∀ st : State,
       isValid (validateForm st) = true
       ↔ Policy.holds (currentMode st) (formData st)).
Proof.
  intros H.
  destruct (H Sample.noTemperature) as [H1 _].
  assert (isValid (validateForm Sample.noTemperature) = true) as Hv
    by (by vm_compute).
  destruct (H1 Hv) as (_ & (t & Ht & _) & _).
  discriminate Ht.
Qed.

(** What [validateForm] tests: it finds the form valid exactly when the
    samples are a number of [1,500], the temperature is missing, NaN or a
    number of [0,2], the mode is not 'Select Mode' and the rule of the
    mode holds; and its [errors] are the messages of the rules it finds
    violated, each once. *)
Lemma validateForm_policy (st : State) :
  (isValid (validateForm st) = true
   ↔ Policy.accepted (currentMode st) (formData st))
  ∧ (∀ message,
       message ∈ errors (validateForm st)
       ↔ Policy.violated (currentMode st) (formData st) message)
  ∧ NoDup (errors (validateForm st)).
Proof.
  unfold validateForm. split; [|split].
  - rewrite validation_isValid. unfold accepted.
    rewrite samplesInRange_iff. tauto.
  - intros message. apply validation_errors.
  - apply validation_errors_NoDup.
Qed.

(** C7. [validateForm] misses a temperature that is not there.  When the
    page is loaded the controller holds no form data: the temperature is
    missing, so it is not in [0,2], yet the errors that [validateForm]
    returns to [init] do not include the message of the temperature rule;
    the same holds once the user has chosen a mode.  With a sample count
    and no temperature the form is found valid although the policy does
    not hold. *)
Theorem validateForm_misses_missing_temperature :
  let loaded := state Sample.start in
  let chosen := state (step (ModeChanged "De Novo Generation") Sample.start) in
  (¬ temperatureInRange (formData loaded))
  ∧ errors (validateForm loaded)
    = ["Please enter a sample size ≥ 1"; "Please choose a generator mode"]
  ∧ (¬ temperatureInRange (formData chosen))
  ∧ errors (validateForm chosen) = ["Please enter a sample size ≥ 1"]
  ∧ isValid (validateForm Sample.noTemperature) = true
  ∧ ¬ holds (currentMode Sample.noTemperature)
        (formData Sample.noTemperature).
Proof.
  cbv zeta.
  split. { intros (t & Ht & _). discriminate Ht. }
  split; [by vm_compute|].
  split. { intros (t & Ht & _). discriminate Ht. }
  split; [by vm_compute|].
  split; [by vm_compute|].
  intros (_ & (t & Ht & _) & _). discriminate Ht.
Qed.

(** The example of the specification. *)
Lemma validateForm_scaffold_example (fd : FormData) (g : bool) (c : option nat) :
  scaffold fd = Some "" → scaffoldFile fd = None →
  "Please provide a scaffold SMILES or upload a scaffold file"
  ∈ errors (validateForm {| isGenerating := g;
                            currentMode := "Scaffold Decoration";
                            formData := fd; abortController := c |}).
Proof.
  intros Hs Hf. unfold validateForm. apply validation_errors.
  unfold violated. do 4 right. left. split; [done|].
  unfold scaffoldRule, nonEmpty, present. cbn [currentMode formData].
  rewrite Hs, Hf. intros H. destruct (H eq_refl) as [(s & [= <-] & ?)|(f & ?)]; done.
Qed.

(** The button is disabled when the form is invalid and nothing is being
    generated. *)
Lemma updateButtonState_disabled st el :
  isGenerating st = false → isValid (validateForm st) = false →
  disabled (updateButtonState st el) = true.
Proof.
  intros Hg Hv. unfold updateButtonState. cbn [disabled].
  by rewrite Hg, Hv.
Qed.

(** C2. With nothing being generated and an invalid form, a click on the
    generate button only emits 'generation:error': it calls neither
    [makeApiRequest] nor [fetch], leaves no call waiting that could later
    emit 'generation:complete', and changes no state; and
    [updateButtonState] shows the button disabled. *)
Theorem invalid_form_issues_no_request (w : World) :
  isGenerating (state w) = false →
  isValid (validateForm (state w)) = false →
  microtasks w = [] →
  let w' := step Click w in
  effects w'
  = effects w
    ++ [Emit "generation:error"
          (Failure (join "; " (errors (validateForm (state w)))))]
  ∧ suspended w' = suspended w
  ∧ outstanding w' = outstanding w
  ∧ state w' = state w
  ∧ element w' = element w
  ∧ disabled (updateButtonState (state w') (element w')) = true.
Proof.
  intros Hg Hv Hm w'.
  assert (w' = handleGenerationError
                 (join "; " (errors (validateForm (state w)))) w) as ->.
  { subst w'. cbn [step]. unfold handleClick, startGeneration.
    rewrite Hg, Hv. cbn [negb].
    unfold drain, handleGenerationError, add_effect.
    cbn [microtasks state element effects nextController suspended
         outstanding aborted].
    by rewrite Hm. }
  split_and!; try done.
  by apply updateButtonState_disabled.
Qed.

Lemma fold_react_nil w : fold_left react [] w = w.
Proof. done. Qed.


Lemma fetches_app l1 l2 : fetches (l1 ++ l2) = fetches l1 ++ fetches l2.
Proof. apply List.filter_app. Qed.

Lemma resume_fetches a r w : fetches (effects (resume a r w)) = fetches (effects w).
Proof.
  unfold resume, fail, cleanUp, handleGenerationError,
    handleGenerationSuccess, refreshButton, removeActivation.
  destruct r; [| |case_bool_decide]; simpl;
    rewrite ?fetches_app; simpl; by rewrite ?app_nil_r.
Qed.

Lemma drain_settles_fetches (ts : list Microtask) : ∀ w,
  (∀ t, t ∈ ts → ∃ a r, t = Settle a r) →
  fetches (effects (fold_left react ts w)) = fetches (effects w).
Proof.
  induction ts as [|t ts IH]; intros w Hts; [done|].
  simpl. rewrite IH.
  - destruct (Hts t) as (a & r & ->); [left|]. simpl.
    destruct (isRacing a w); [apply resume_fetches|done].
  - intros t' Ht'. apply Hts. by right.
Qed.

(** C3, the part that holds.  While a generation is running, a click on
    the button runs [cancelGeneration]: the stored controller is aborted,
    the requests made with its signal are no longer outstanding,
    [isGenerating] becomes false and 'generation:cancelled' is emitted;
    no call of [startGeneration] is added and no request is issued. *)
Theorem click_while_generating_cancels (w : World) :
  isGenerating (state w) = true →
  microtasks w = [] →
  let w1 := handleClick w in
  let w' := step Click w in
  effects w1
  = effects w
    ++ match abortController (state w) with
       | Some c => [Abort c]
       | None => []
       end
    ++ [Emit "generation:cancelled" NoPayload]
  ∧ isGenerating (state w1) = false
  ∧ suspended w1 = suspended w
  ∧ nextController w1 = nextController w
  ∧ (∀ c, abortController (state w) = Some c →
          c ∈ aborted w1 ∧ ∀ r, r ∈ outstanding w1 → r.2 ≠ c)
  ∧ fetches (effects w') = fetches (effects w).
Proof.
  intros Hg Hm w1 w'.
  assert (fetches (effects w') = fetches (effects w1)) as Hf.
  { subst w' w1. cbn [step]. unfold drain. cbn [effects].
    unfold handleClick. rewrite Hg. unfold cancelGeneration.
    rewrite drain_settles_fetches; [done|].
    intros t. cbn [microtasks add_effect refreshButton set_element set_state].
    destruct (abortController (state w)) as [c|]; cbn [microtasks abort].
    - rewrite Hm. cbn [app]. intros Ht.
      apply list_elem_of_fmap in Ht as (r & -> & _). eauto.
    - rewrite Hm. intros Ht. by apply elem_of_nil in Ht. }
  rewrite Hf. subst w1. clear Hf w'.
  unfold handleClick. rewrite Hg. unfold cancelGeneration.
  destruct (abortController (state w)) as [c|] eqn:Hc; simpl.
  - split_and!; try done.
    + by rewrite <- app_assoc.
    + intros c' [= <-]. split.
      * apply elem_of_app. right. by left.
      * intros r Hr Heq.
        apply list_elem_of_In, filter_In in Hr as [_ Hk].
        rewrite Heq, Nat.eqb_refl in Hk. done.
    + rewrite !fetches_app. simpl. by rewrite !app_nil_r.
  - split_and!; try done.
    rewrite fetches_app. simpl. by rewrite app_nil_r.
Qed.

(** C3, as the specification states it, fails: a request that lost the
    race against the timer is not aborted, so it is still outstanding
    when the next click issues another one. *)
Lemma two_requests_in_flight :
  ¬ (∀ es : list Event,
       length (outstanding (run es Sample.ready)) <= 1)%nat.
Proof.
  intros H. specialize (H [Click; TimeoutFires 0; Click]).
  vm_compute in H. lia.
Qed.

(** C6: the controller keeps the scaffold typed in 'Scaffold Decoration'
    mode when the mode changes, and sends it after the user has come back
    to that mode, although the mode manager has emptied the field. *)
Theorem controller_keeps_fields_on_mode_change :
  let w :=
    run [FormDataChanged [SetSamples (Fin 10); SetTemperature (Fin 1)];
         ModeChanged "Scaffold Decoration";
         FormDataChanged [SetScaffold "c1ccccc1"];
         ModeChanged "Fragment Linking"] Sample.start in
  scaffold (formData (state w)) = Some "c1ccccc1"
  ∧ ∃ body,
      fetches (effects (run [ModeChanged "Scaffold Decoration"; Click] w))
      = [Fetch 0 0 body]
      ∧ p_scaffold body = Some "c1ccccc1".
Proof.
  simpl. split; [by vm_compute|].
  eexists. split; [by vm_compute|done].
Qed.

(** No mode change ever alters the controller's form data. *)
Lemma controller_handleModeChange_formData newMode w :
  formData (state (handleModeChange newMode w)) = formData (state w).
Proof. done. Qed.

End GenerationControllerFacts.

(** ** The mode manager *)

Section ModeManagerFacts.
Import Dom SmilesSpec.

Lemma smilesCharOrStar_spec c : smilesCharOrStar c = true ↔ allowedChar c.
Proof.
  unfold allowedChar, isAsciiLetter, isDigit, isListed, isWildcard.
  destruct c as [[] [] [] [] [] [] [] []];
    (split; [intros H; vm_compute in H; first [discriminate H | vm_compute; tauto]
            | intros H; vm_compute in H; vm_compute; first [reflexivity | exfalso; intuition congruence]]).
Qed.


Lemma allChars_Forall p v :
  allChars p v = true
  ↔ Forall (fun c => p c = true) (Stdlib.Strings.String.list_ascii_of_string v).
Proof.
  induction v as [|c r IH]; simpl.
  - split; [constructor|done].
  - rewrite andb_true_iff, IH. split.
    + intros [? ?]. by constructor.
    + intros H. by apply Forall_cons in H.
Qed.

Lemma matches_allowed v :
  v ≠ "" → matchesClass smilesCharOrStar v = true ↔ allowed v.
Proof.
  intros Hv. unfold matchesClass, allowed.
  assert (Nat.ltb 0 (String.length v) = true) as ->.
  { destruct v; [done|]. apply Nat.ltb_lt. simpl. lia. }
  simpl. rewrite allChars_Forall.
  apply Forall_iff. intros c. apply smilesCharOrStar_spec.
Qed.

Lemma elem_of_classList_add x c l :
  x ∈ classList_add c l ↔ x = c ∨ x ∈ l.
Proof.
  unfold classList_add. case_bool_decide as H.
  - split; [auto|]. by intros [->|?].
  - rewrite elem_of_app, list_elem_of_singleton. tauto.
Qed.

Lemma elem_of_classList_remove x c l :
  x ∈ classList_remove c l ↔ x ≠ c ∧ x ∈ l.
Proof.
  unfold classList_remove.
  rewrite list_elem_of_In, filter_In, <- list_elem_of_In.
  rewrite negb_true_iff, bool_decide_eq_false. tauto.
Qed.

(** The input field after [validateInput], for a character class. *)
Lemma validateInputWith_classes class input v t :
  dataInput input = Some t → Js.includes t "smiles" = true →
  let cl := classList (validateInputWith class input v) in
  (v ≠ "" →
   ("input-group__input--valid" ∈ cl ↔ matchesClass class v = true)
   ∧ ("input-group__input--invalid" ∈ cl ↔ matchesClass class v = false))
  ∧ (v = "" →
     ("input-group__input--valid" ∉ cl)
     ∧ ("input-group__input--invalid" ∉ cl)).
Proof.
  intros Ht Hi. unfold validateInputWith. rewrite Ht, Hi. cbn [classList].
  split.
  - intros Hv.
    assert (Nat.ltb 0 (String.length v) = true) as ->.
    { destruct v; [done|]. apply Nat.ltb_lt. simpl. lia. }
    cbn [andb].
    destruct (matchesClass class v); rewrite !elem_of_classList_add,
      !elem_of_classList_remove; split; split; try done; auto.
    + intros [?|[? [? ?]]]; done.
    + intros [?|[? [? ?]]]; done.
  - intros ->. simpl. rewrite !elem_of_classList_remove. split; tauto.
Qed.

(** C8 for the copy of the mode manager that has the transformation form:
    a non-empty value of a SMILES field is marked valid exactly when each
    of its characters is an ASCII letter, a digit, one of
    [( ) [ ] @ = # - + . \ / :] or the wildcard [*], and invalid
    otherwise; an empty value gets neither class. *)
Lemma validateInput_accepts_class_and_wildcard input v t :
  dataInput input = Some t → Js.includes t "smiles" = true →
  let cl := classList (ModeManagerTransformation.validateInput input v) in
  (v ≠ "" →
   ("input-group__input--valid" ∈ cl ↔ allowed v)
   ∧ ("input-group__input--invalid" ∈ cl ↔ ¬ allowed v))
  ∧ (v = "" →
     ("input-group__input--valid" ∉ cl)
     ∧ ("input-group__input--invalid" ∉ cl)).
Proof.
  intros Ht Hi cl.
  destruct (validateInputWith_classes smilesCharOrStar input v t Ht Hi)
    as [H1 H2].
  split; [|exact H2].
  intros Hv. destruct (H1 Hv) as [Hvalid Hinvalid].
  fold (ModeManagerTransformation.validateInput input v) in Hvalid, Hinvalid.
  fold cl in Hvalid, Hinvalid.
  rewrite Hvalid, Hinvalid, <- (matches_allowed v Hv).
  split; [done|]. by rewrite not_true_iff_false.
Qed.

(** C8 on scripts/components/ModeManager.js: a scaffold with an
    attachment point, written with the wildcard, is marked invalid. *)
Theorem validateInput_rejects_wildcard :
  let input := Sample.scaffoldField in
  classList (ModeManager.validateInput input "c1ccc(*)cc1")
  = ["input-group__input"; "input-group__input--invalid"]
  ∧ classList (ModeManagerTransformation.validateInput input "c1ccc(*)cc1")
    = ["input-group__input"; "input-group__input--valid"]
  ∧ SmilesSpec.allowed "c1ccc(*)cc1".
Proof.
  simpl. split; [by vm_compute|]. split; [by vm_compute|].
  apply matches_allowed; [done|]. by vm_compute.
Qed.

End ModeManagerFacts.

(** ** Mode changes *)

Section ModeChangeFacts.
Import Js Form.

(** The application resets every field but the samples and the
    temperature. *)
Lemma app_handleModeChange_clears newMode app :
  let old := MolGPTApp.formData (MolGPTApp.state app) in
  let new := MolGPTApp.formData
               (MolGPTApp.state (MolGPTApp.handleModeChange newMode app)) in
  samples new = samples old ∧ temperature new = temperature old
  ∧ scaffold new = Some "" ∧ fragment1 new = Some "" ∧ fragment2 new = Some ""
  ∧ startingMolecule new = None ∧ similarity new = None
  ∧ scaffoldFile new = None ∧ fragmentFile new = None
  ∧ transformationFile new = None.
Proof. by repeat split. Qed.

(** The mode manager empties its form data and its fields when the mode
    differs from the current one. *)
Lemma modeManager_handleModeChange_clears newMode c :
  Dom.modeOf newMode ≠ Dom.currentMode (Dom.state c) →
  let c' := ModeManagerTransformation.handleModeChange newMode c in
  Dom.formData (Dom.state c') = Form.empty
  ∧ Dom.value <$> Dom.scaffoldSmilesInput (Dom.elements c')
    = (fun _ => "") <$> Dom.scaffoldSmilesInput (Dom.elements c)
  ∧ Dom.value <$> Dom.fragment1Input (Dom.elements c')
    = (fun _ => "") <$> Dom.fragment1Input (Dom.elements c)
  ∧ Dom.value <$> Dom.fragment2Input (Dom.elements c')
    = (fun _ => "") <$> Dom.fragment2Input (Dom.elements c)
  ∧ Dom.value <$> Dom.startingMoleculeInput (Dom.elements c')
    = (fun _ => "") <$> Dom.startingMoleculeInput (Dom.elements c).
Proof.
  intros Hne c'. subst c'. unfold ModeManagerTransformation.handleModeChange.
  rewrite bool_decide_false by done. simpl.
  repeat split;
    match goal with |- context [_ <$> (_ <$> ?o)] => by destruct o end.
Qed.

(** So does the copy in scripts/components/ModeManager.js. *)
Lemma modeManager_components_handleModeChange_clears newMode c :
  Dom.modeOf newMode ≠ Dom.currentMode (Dom.state c) →
  Dom.formData (Dom.state (ModeManager.handleModeChange newMode c))
  = Form.empty.
Proof.
  intros Hne. unfold ModeManager.handleModeChange.
  by rewrite bool_decide_false.
Qed.

End ModeChangeFacts.

(** ** The results panel *)

Section ResultsDisplayFacts.
Import Form ResultsDisplay.

Lemma app_cons a s t : String a s +:+ t = String a (s +:+ t).
Proof. done. Qed.

Lemma markup_app s t : markup (s +:+ t) = markup s ++ markup t.
Proof.
  induction s as [|a s IH]; [done|].
  rewrite app_cons. simpl. destruct (isMarkup a); simpl; by rewrite IH.
Qed.


Lemma absent_app c s t : absent c (s +:+ t) ↔ absent c s ∧ absent c t.
Proof.
  induction s as [|a s IH]; [simpl; tauto|].
  rewrite app_cons. simpl. rewrite IH. tauto.
Qed.

Lemma replaceAll_removes c by_ s :
  absent c by_ → absent c (replaceAll c by_ s).
Proof.
  intros Hb. induction s as [|a s IH]; simpl; [done|].
  destruct (Ascii.eqb a c) eqn:E.
  - apply absent_app. done.
  - simpl. split; [|done]. by apply Ascii.eqb_neq.
Qed.

Lemma replaceAll_keeps d c by_ s :
  absent d by_ → absent d s → absent d (replaceAll c by_ s).
Proof.
  intros Hb. induction s as [|a s IH]; simpl; [done|].
  intros [Ha Hs]. destruct (Ascii.eqb a c).
  - apply absent_app. auto.
  - simpl. auto.
Qed.

Lemma markup_absent s :
  absent (ascii_of_nat 60) s → absent (ascii_of_nat 62) s →
  absent (ascii_of_nat 34) s → absent (ascii_of_nat 39) s →
  markup s = [].
Proof.
  induction s as [|a s IH]; simpl; [done|].
  intros [H1 T1] [H2 T2] [H3 T3] [H4 T4].
  assert (isMarkup a = false) as ->; [|by apply IH].
  unfold isMarkup. rewrite !orb_false_iff, !Nat.eqb_neq.
  repeat split; intros Hn; [apply H1|apply H2|apply H3|apply H4];
    rewrite <- Hn; by rewrite ascii_nat_embedding.
Qed.

(** What [escapeHtml] returns has none of the four characters. *)
Lemma markup_escapeHtml s : markup (escapeHtml s) = [].
Proof.
  unfold escapeHtml. apply markup_absent.
  - do 3 (apply replaceAll_keeps; [by vm_compute|]).
    apply replaceAll_removes. by vm_compute.
  - do 2 (apply replaceAll_keeps; [by vm_compute|]).
    apply replaceAll_removes. by vm_compute.
  - apply replaceAll_keeps; [by vm_compute|].
    apply replaceAll_removes. by vm_compute.
  - apply replaceAll_removes. by vm_compute.
Qed.

Lemma renderProgress_inert c :
  inert (fun text => innerHTML (content (renderProgress text c))).
Proof.
  intros text. cbn [renderProgress innerHTML content].
  pose proof (markup_escapeHtml text) as E.
  pose proof (markup_escapeHtml "") as E'.
  set (e := escapeHtml text) in *. set (e' := escapeHtml "") in *.
  clearbody e e'. by rewrite !markup_app, E, E'.
Qed.

Lemma renderError_inert c :
  inert (fun text => innerHTML (content (renderError text c))).
Proof.
  intros text. cbn [renderError innerHTML content].
  pose proof (markup_escapeHtml text) as E.
  pose proof (markup_escapeHtml "") as E'.
  set (e := escapeHtml text) in *. set (e' := escapeHtml "") in *.
  clearbody e e'. by rewrite !markup_app, E, E'.
Qed.

Lemma createMoleculeItem_inert v index :
  inert (fun text => createMoleculeItem {| smiles := text; valid := v |} index).
Proof.
  intros text. unfold createMoleculeItem. cbn [smiles valid].
  pose proof (markup_escapeHtml text) as E.
  pose proof (markup_escapeHtml "") as E'.
  set (e := escapeHtml text) in *. set (e' := escapeHtml "") in *.
  set (n := pretty (S index)).
  clearbody e e' n. by rewrite !markup_app, E, E'.
Qed.


Lemma moleculeItems_inert ms : ∀ index,
  markup (moleculeItems ms index)
  = markup (moleculeItems
              (map (fun m => {| smiles := ""; valid := valid m |}) ms) index).
Proof.
  induction ms as [|m ms IH]; intros index; [reflexivity|].
  cbn [moleculeItems map].
  assert (markup (createMoleculeItem m index)
          = markup (createMoleculeItem
                      {| smiles := ""; valid := valid m |} index)) as E.
  { destruct m as [sm v]. exact (createMoleculeItem_inert v index sm). }
  specialize (IH (S index)).
  set (a := createMoleculeItem m index) in *.
  set (a' := createMoleculeItem _ index) in *.
  set (b := moleculeItems ms (S index)) in *.
  set (b' := moleculeItems _ (S index)) in *.
  clearbody a a' b b'.
  by rewrite !markup_app, E, IH.
Qed.

Lemma createMoleculesList_inert ms :
  markup (createMoleculesList ms)
  = markup (createMoleculesList
              (map (fun m => {| smiles := ""; valid := valid m |}) ms)).
Proof.
  destruct ms as [|m ms]; [reflexivity|].
  pose proof (moleculeItems_inert (m :: ms) 0) as E.
  cbn [map] in *. unfold createMoleculesList.
  set (items := moleculeItems (m :: ms) 0) in *.
  set (items' := moleculeItems (_ :: _) 0) in *.
  clearbody items items'.
  rewrite !markup_app. by rewrite E.
Qed.

(** The SMILES strings of a response contribute no markup to the page. *)
Lemma renderResults_inert_in_smiles r c :
  markup (innerHTML (content (renderResults r c)))
  = markup (innerHTML (content (renderResults (withoutSmiles r) c))).
Proof.
  unfold renderResults, withoutSmiles.
  cbn [innerHTML content generated_molecules total_generated
       valid_molecules requestParams_samples csv_url].
  assert (markup (createMoleculesList (default [] (generated_molecules r)))
          = markup (createMoleculesList
                      (default []
                         (map (fun m => {| smiles := ""; valid := valid m |})
                            <$> generated_molecules r)))) as E.
  { destruct (generated_molecules r) as [ms|]; [|reflexivity].
    apply createMoleculesList_inert. }
  set (summary := createResultsSummary _ _ _ _ _).
  set (l := createMoleculesList _) in *.
  set (l' := createMoleculesList _) in *.
  clearbody summary l l'.
  rewrite !markup_app. by rewrite E.
Qed.


(** C9: not every text put into the page goes through [escapeHtml].  For
    a response whose [csv_url] holds a double quote and a script tag, the
    page set by [handleResultsDisplay] contains that URL as it is inside
    [href], and nowhere in escaped form; [createGenerationTimestamp]
    lets its argument change the markup of the page. *)
Theorem csv_url_is_not_escaped :
  let page := innerHTML (content
                (handleResultsDisplay Sample.response "10:15:00" Sample.blank)) in
  Js.includes page ("<a href=" +:+ dq +:+ Sample.url) = true
  ∧ Js.includes page (escapeHtml Sample.url) = false
  ∧ ¬ inert (fun url =>
               createGenerationTimestamp
                 (state (handleResultsDisplay Sample.response "10:15:00"
                           Sample.blank))
                 (Some url)).
Proof.
  simpl. split; [by vm_compute|]. split; [by vm_compute|].
  intros H. specialize (H Sample.url). vm_compute in H. discriminate H.
Qed.

End ResultsDisplayFacts.

(** ** The theorems at sample inputs *)

Section ReentrantWitnesses.
Import EventBus EventBus.Reentrant.

(** The third listener passes the event on: the listener of the event
    it emits is called within its call, by an emission with the same
    callbacks, after the first listener has thrown and its error has
    been reported.  Five callbacks have run in all. *)
Lemma emit_with_a_listener_that_emits :
  match emit Sample.relaying "mode:changed" [VStr "Scaffold Decoration"]
          Sample.site with
  | Ok (b, s', calls) =>
      b = true
      ∧ map (fun c => (listenerId (listener c), out c, world (before c),
                       world (after c), world (left c))) calls
        = [("listener_1_a", Threw (VStr "boom"), 0, 1, 2);
           ("listener_2_b", Returned, 2, 3, 3);
           ("listener_3_c", Returned, 3, 5, 5)]
      ∧ world s' = 5
      ∧ stats (bus s')
        = {| eventsEmitted := 3; eventsListened := 5; errors := 1 |}
      ∧ registry "mode:changed" (bus s') = [Sample.failing; Sample.regular]
      ∧ (∀ c, c ∈ calls → listener c = Sample.regular →
           match emit Sample.relaying "app:modeChanged"
                   [VStr "Scaffold Decoration"] (Sample.counted (before c))
           with
           | Ok (_, s2, calls2) =>
               after c = s2 ∧ map listener calls2 = [Sample.follower]
           | Error _ => False
           end)
  | Error _ => False
  end.
Proof.
  vm_compute. split_and!; try reflexivity.
  intros c Hc Hl.
  repeat (apply elem_of_cons in Hc as [->|Hc]; [try discriminate Hl|]).
  - by split.
  - by apply elem_of_nil in Hc.
Qed.

Lemma emit_delivers_to_every_listener_witness :
  "mode:changed" ≠ ""
  ∧ ∃ b s' calls,
      emit Sample.relaying "mode:changed" [VStr "Scaffold Decoration"]
        Sample.site = Ok (b, s', calls)
      ∧ map listener calls
        = [Sample.failing; Sample.oneShot; Sample.regular]
      ∧ b = true
      ∧ ∀ c, c ∈ calls →
          Sample.relaying (callback (listener c)) (context (listener c))
            [VStr "Scaffold Decoration"] (before c)
          = (out c, after c).
Proof.
  assert ("mode:changed" ≠ "") as H1 by discriminate.
  split; [exact H1|].
  destruct (emit_delivers_to_every_listener Sample.relaying "mode:changed"
              [VStr "Scaffold Decoration"] Sample.site H1)
    as (b & s' & calls & last & He & Hm & Hb & Hch & Hs & Hall).
  exists b, s', calls. split; [exact He|].
  split; [rewrite Hm; vm_compute; reflexivity|].
  split.
  - rewrite Hb. vm_compute in He. injection He as _ _ <-. reflexivity.
  - intros c Hc. exact (proj1 (Hall c Hc)).
Defined.


(** Listeners are unsubscribed by identifier: were two one-time
    listeners of an event to carry the same identifier, the return of
    the first would unsubscribe the second as well, although the call of
    the second, which the loop still makes, throws. *)
Lemma off_by_identifier_takes_every_match :
  match emit Sample.plain "mode:changed" [] Sample.twins with
  | Ok (_, s', calls) =>
      map (fun c => (listener c, out c)) calls
      = [(Sample.twin, Returned); (Sample.failing, Threw (VStr "boom"))]
      ∧ registry "mode:changed" (bus s') = []
  | Error _ => False
  end.
Proof. vm_compute. by split. Qed.

Lemma plain_leaves name l cb ctx a st :
  leavesAlone name l st (Sample.plain cb ctx a st).2.
Proof. destruct cb as [|[|cb]]; by split. Qed.

Lemma relaying_leaves l cb ctx a st :
  leavesAlone "mode:changed" l st (Sample.relaying cb ctx a st).2.
Proof.
  destruct cb as [|[|[|cb]]]; try (by split).
  unfold Sample.relaying.
  pose proof (emit_other_leaves Sample.plain "mode:changed" l
                (plain_leaves "mode:changed" l)
                "app:modeChanged" a (Sample.counted st)) as H.
  destruct (emit Sample.plain "app:modeChanged" a (Sample.counted st))
    as [[[b s1] cs]|m]; [|by split].
  simpl. apply H; discriminate.
Qed.


End ReentrantWitnesses.

Section SliderWitness.
Import Js PropertyForm.

Lemma temperature_clamped_witness :
  (2 < 3.5)%Q
  ∧ (-1 < 0)%Q
  ∧ strictEq (temperature (state (temperatureInput (Fin 3.5) (init "0" (Fin 1)))))
      (Fin 2) = true
  ∧ strictEq (temperature (state (temperatureInput (Fin (-1)) (init "0" (Fin 1)))))
      (Fin 0) = true.
Proof.
  assert (2 < 3.5)%Q as H1 by (by vm_compute).
  assert (-1 < 0)%Q as H2 by (by vm_compute).
  split; [exact H1|]. split; [exact H2|].
  destruct (temperature_clamped (Fin 3.5) (init "0" (Fin 1))) as (_ & _ & Ha).
  destruct (temperature_clamped (Fin (-1)) (init "0" (Fin 1))) as (_ & Hb & _).
  split; [exact (Ha 3.5%Q eq_refl H1)|exact (Hb (-1)%Q eq_refl H2)].
Defined.

End SliderWitness.

Section Witnesses.
Import Js Form.

Lemma invalid_form_issues_no_request_witness :
  GenerationController.isGenerating
    (GenerationController.state Sample.start) = false
  ∧ isValid (GenerationController.validateForm
               (GenerationController.state Sample.start)) = false
  ∧ GenerationController.microtasks Sample.start = []
  ∧ GenerationController.fetches
      (GenerationController.effects
         (GenerationController.step GenerationController.Click Sample.start))
    = []
  ∧ GenerationController.suspended
      (GenerationController.step GenerationController.Click Sample.start)
    = [].
Proof.
  assert (GenerationController.isGenerating
            (GenerationController.state Sample.start) = false) as H1
    by reflexivity.
  assert (isValid (GenerationController.validateForm
                     (GenerationController.state Sample.start)) = false) as H2
    by (vm_compute; reflexivity).
  assert (GenerationController.microtasks Sample.start = []) as H3
    by reflexivity.
  split; [exact H1|]. split; [exact H2|]. split; [exact H3|].
  destruct (invalid_form_issues_no_request Sample.start H1 H2 H3)
    as (He & Hs & _).
  split.
  - rewrite He. vm_compute. reflexivity.
  - rewrite Hs. reflexivity.
Defined.

Lemma click_while_generating_cancels_witness :
  GenerationController.isGenerating
    (GenerationController.state Sample.generating) = true
  ∧ GenerationController.microtasks Sample.generating = []
  ∧ GenerationController.isGenerating
      (GenerationController.state
         (GenerationController.handleClick Sample.generating)) = false
  ∧ GenerationController.fetches
      (GenerationController.effects
         (GenerationController.step GenerationController.Click
            Sample.generating))
    = GenerationController.fetches
        (GenerationController.effects Sample.generating).
Proof.
  assert (GenerationController.isGenerating
            (GenerationController.state Sample.generating) = true) as H1
    by (vm_compute; reflexivity).
  assert (GenerationController.microtasks Sample.generating = []) as H2
    by (vm_compute; reflexivity).
  split; [exact H1|]. split; [exact H2|].
  destruct (click_while_generating_cancels Sample.generating H1 H2)
    as (_ & Hg & _ & _ & _ & Hf).
  split; [exact Hg|exact Hf].
Defined.

Lemma temperature_clamped_when_set_witness :
  isNaN (Fin 3.5) = false
  ∧ strictEq (Fin 3.5)
      (PropertyForm.temperature
         (PropertyForm.state PropertyForm.constructor)) = false
  ∧ strictEq
      (PropertyForm.temperature
         (PropertyForm.state
            (PropertyForm.handleFormDataSet
               {| PropertyForm.data_samples := None;
                  PropertyForm.data_temperature := Some (Fin 3.5) |}
               PropertyForm.constructor)))
      (Fin 2) = true
  ∧ PropertyForm.temperature
      (PropertyForm.state
         (PropertyForm.handleTemperatureChange (Fin 3.5)
            PropertyForm.constructor))
    = Fin 3.5.
Proof.
  assert (isNaN (Fin 3.5) = false) as H1 by reflexivity.
  assert (strictEq (Fin 3.5)
            (PropertyForm.temperature
               (PropertyForm.state PropertyForm.constructor)) = false) as H2
    by (vm_compute; reflexivity).
  split; [exact H1|]. split; [exact H2|].
  destruct (temperature_clamped_when_set (Fin 3.5) None
              PropertyForm.constructor H1 H2)
    as (_ & _ & Ha & Hs & _).
  split; [apply Ha; vm_compute; reflexivity|exact Hs].
Defined.


Lemma validateForm_policy_witness :
  Policy.accepted
    (GenerationController.currentMode
       (GenerationController.state Sample.ready))
    (GenerationController.formData
       (GenerationController.state Sample.ready)).
Proof.
  destruct (validateForm_policy (GenerationController.state Sample.ready))
    as (Hv & _).
  apply Hv. vm_compute. reflexivity.
Defined.

End Witnesses.

(** * Further properties of the code *)

(** ** The event bus: subscribing, unsubscribing and counting *)

Section EventBusRegistryFacts.
Import EventBus.

Lemma on_registry name cb options newId b :
  name ≠ "" →
  ∃ b', on name cb options newId b = Ok (newId, b')
        ∧ events b'
          = <[name := registry name b
                      ++ [{| callback := cb; once_flag := opt_once options;
                             context := opt_context options;
                             listenerId := newId |}]]> (events b)
        ∧ errors (stats b') = errors (stats b).
Proof.
  intros Hne. unfold on. rewrite bool_decide_false by done.
  eexists. split; [done|]. by simpl.
Qed.

Lemma off_registry_target name target b :
  registry name (off name target b)
  = match target with
    | AllListeners => []
    | _ => List.filter (keeps target) (registry name b)
    end.
Proof.
  unfold registry, off.
  destruct (events b !! name) as [ls|] eqn:E; simpl.
  - destruct target; simpl.
    + by rewrite lookup_delete_eq.
    + destruct (Nat.eqb _ (length ls)) eqn:E1.
      * rewrite E. simpl. symmetry. apply filter_length_eq. by apply Nat.eqb_eq.
      * destruct (Nat.eqb _ 0) eqn:E2; simpl.
        -- rewrite lookup_delete_eq. simpl.
           apply Nat.eqb_eq in E2. symmetry. by apply length_zero_iff_nil.
        -- by rewrite lookup_insert_eq.
    + destruct (Nat.eqb _ (length ls)) eqn:E1.
      * rewrite E. simpl. symmetry. apply filter_length_eq. by apply Nat.eqb_eq.
      * destruct (Nat.eqb _ 0) eqn:E2; simpl.
        -- rewrite lookup_delete_eq. simpl.
           apply Nat.eqb_eq in E2. symmetry. by apply length_zero_iff_nil.
        -- by rewrite lookup_insert_eq.
  - rewrite E. by destruct target.
Qed.

Lemma getListenerCount_registry name b :
  getListenerCount name b = length (registry name b).
Proof.
  unfold getListenerCount, registry. by destruct (events b !! name).
Qed.

Lemma total_insert_fresh name ls (m : gmap string (list Listener)) :
  m !! name = None →
  map_fold (fun _ listeners total => total + length listeners) 0 (<[name := ls]> m)
  = map_fold (fun _ listeners total => total + length listeners) 0 m + length ls.
Proof.
  intros Hn.
  rewrite (map_fold_insert_L (fun _ (listeners : list Listener) total =>
             total + length listeners)); [done| |done].
  intros. lia.
Qed.

Lemma total_delete name ls (m : gmap string (list Listener)) :
  m !! name = Some ls →
  map_fold (fun _ listeners total => total + length listeners) 0 m
  = map_fold (fun _ listeners total => total + length listeners) 0 (delete name m)
    + length ls.
Proof.
  intros Hn.
  rewrite <- (insert_delete_id m name ls) at 1 by done.
  apply total_insert_fresh. apply lookup_delete_eq.
Qed.

Lemma total_insert name ls (m : gmap string (list Listener)) :
  map_fold (fun _ listeners total => total + length listeners) 0 (<[name := ls]> m)
  + length (default [] (m !! name))
  = map_fold (fun _ listeners total => total + length listeners) 0 m + length ls.
Proof.
  destruct (m !! name) as [old|] eqn:E; simpl.
  - rewrite <- insert_delete_eq.
    rewrite total_insert_fresh by apply lookup_delete_eq.
    rewrite (total_delete name old m E). lia.
  - rewrite total_insert_fresh by done. lia.
Qed.

(** X1. [on] with a valid name succeeds and adds exactly one listener, at
    the end of the listeners of its event: the count of the event and the
    total count grow by one, the counts of the other events stay. *)
Theorem on_adds_one_listener name cb options newId b :
  name ≠ "" →
  ∃ b', on name cb options newId b = Ok (newId, b')
    ∧ registry name b'
      = registry name b
        ++ [{| callback := cb; once_flag := opt_once options;
               context := opt_context options; listenerId := newId |}]
    ∧ getListenerCount name b' = S (getListenerCount name b)
    ∧ hasListeners name b' = true
    ∧ (∀ name', name' ≠ name →
         getListenerCount name' b' = getListenerCount name' b)
    ∧ getTotalListenerCount b' = S (getTotalListenerCount b).
Proof.
  intros Hne.
  destruct (on_registry name cb options newId b Hne) as (b' & Hon & Hev & _).
  exists b'. split; [done|].
  assert (registry name b'
          = registry name b
            ++ [{| callback := cb; once_flag := opt_once options;
                   context := opt_context options; listenerId := newId |}]) as Hr.
  { unfold registry at 1. rewrite Hev. by rewrite lookup_insert_eq. }
  assert (getListenerCount name b' = S (getListenerCount name b)) as Hc.
  { rewrite !getListenerCount_registry, Hr, length_app. simpl. lia. }
  split; [done|]. split; [done|].
  split. { unfold hasListeners. rewrite Hc. done. }
  split.
  - intros name' Hn. unfold getListenerCount. rewrite Hev.
    by rewrite lookup_insert_ne.
  - unfold getTotalListenerCount. rewrite Hev.
    match goal with |- context [<[name := ?ls]> _] =>
      pose proof (total_insert name ls (events b)) as Ht end.
    rewrite length_app in Ht. simpl in Ht.
    fold (registry name b) in Ht. lia.
Qed.

Lemma filter_keeps_fresh lid ls :
  lid ∉ map listenerId ls → List.filter (keeps (ById lid)) ls = ls.
Proof.
  induction ls as [|h r IH]; simpl; [done|].
  intros Hn. apply not_elem_of_cons in Hn as [Hh Hr].
  rewrite bool_decide_false by congruence. simpl. by rewrite IH.
Qed.

(** X2. The unsubscribe function that [on] returns undoes the
    subscription: afterwards every event has the listeners it had before
    [on], provided the identifier drawn for the listener is not already
    that of a listener of the event. *)
Theorem off_undoes_on name cb options newId b :
  name ≠ "" →
  newId ∉ map listenerId (registry name b) →
  ∃ b', on name cb options newId b = Ok (newId, b')
    ∧ ∀ name', registry name' (off name (ById newId) b') = registry name' b.
Proof.
  intros Hne Hfresh.
  destruct (on_registry name cb options newId b Hne) as (b' & Hon & Hev & _).
  exists b'. split; [done|]. intros name'.
  destruct (decide (name' = name)) as [->|Hn].
  - rewrite off_registry_target. unfold registry at 1. rewrite Hev.
    rewrite lookup_insert_eq. simpl.
    rewrite List.filter_app, filter_keeps_fresh by done. simpl.
    rewrite bool_decide_true by done. simpl. by rewrite app_nil_r.
  - rewrite off_registry_other by done. unfold registry. rewrite Hev.
    by rewrite lookup_insert_ne.
Qed.

End EventBusRegistryFacts.

(** ** The event bus: what an emission returns, counts and leaves *)

Section EventBusEmitMoreFacts.
Import EventBus.
Context {W : Type}.
Variable call :
  nat → option nat → list Value → W → Outcome * W * list BusCall.

Lemma returned_app name l1 l2 :
  returned name (l1 ++ l2) = returned name l1 ++ returned name l2.
Proof. apply omap_app. Qed.

Lemma returned_cons_returned name lid a l :
  returned name (Invoked name lid a Returned :: l) = lid :: returned name l.
Proof. unfold returned. simpl. by rewrite bool_decide_true. Qed.

Lemma returned_cons_threw name n lid a e l :
  returned name (Invoked n lid a (Threw e) :: l) = returned name l.
Proof. done. Qed.

Lemma thrown_app l1 l2 : thrown (l1 ++ l2) = thrown l1 + thrown l2.
Proof. unfold thrown. by rewrite List.filter_app, length_app. Qed.

Lemma returned_no_invocations name l :
  invocations name l = [] → returned name l = [].
Proof.
  induction l as [|e l IH]; [done|].
  unfold invocations, returned in *. simpl.
  destruct e as [n a|n lid a o]; simpl; [exact IH|].
  case_bool_decide as Hb; simpl.
  - done.
  - intros Hi. destruct o; by apply IH.
Qed.

Lemma perform_errors b c : errors (stats (perform b c)) = errors (stats b).
Proof.
  destruct c as [n cb o i|n t]; simpl.
  - unfold on. by case_bool_decide.
  - unfold off. repeat case_match; done.
Qed.

Lemma fold_perform_errors calls : ∀ b,
  errors (stats (fold_left perform calls b)) = errors (stats b).
Proof.
  induction calls as [|c r IH]; intros b; simpl; [done|].
  by rewrite IH, perform_errors.
Qed.

Lemma off_errors name target b : errors (stats (off name target b)) = errors (stats b).
Proof. unfold off. repeat case_match; done. Qed.

Section ForEachMore.
Variables (name : string) (args : list Value).
Variable reemit : Listener → Value → @Sys W → @Sys W.

(** The number that [forEach] returns counts the calls that returned. *)
Lemma forEach_returned ls :
  (∀ l e s, ∃ extra, log (reemit l e s) = log s ++ extra
                     ∧ invocations name extra = []) →
  ∀ t s, ∃ new,
    log (forEach call reemit name args ls t s).2 = log s ++ new
    ∧ (forEach call reemit name args ls t s).1
      = t + length (returned name new).
Proof.
  intros Hre. induction ls as [|h rest IH]; intros t s; simpl.
  - exists []. rewrite app_nil_r. split; [done|]. simpl. lia.
  - destruct (call (callback h) (context h) args (world s)) as [[out w] ops].
    destruct out as [|e].
    + match goal with |- context [forEach _ _ _ _ rest ?t' ?s'] =>
        destruct (IH t' s') as (new & Hl & Hc); set (s2 := s') in * end.
      exists (Invoked name (listenerId h) args Returned :: new).
      split.
      { rewrite Hl. subst s2. destruct (once_flag h); simpl;
          by rewrite <- app_assoc. }
      rewrite Hc, returned_cons_returned. simpl. lia.
    + match goal with |- context [reemit h e ?s'] =>
        destruct (Hre h e s') as (extra & Hx & Hxi); set (s2 := s') in * end.
      destruct (IH t (reemit h e s2)) as (new & Hl & Hc).
      exists (Invoked name (listenerId h) args (Threw e) :: extra ++ new).
      split.
      { rewrite Hl, Hx. subst s2. simpl. by rewrite <- !app_assoc. }
      rewrite Hc, returned_cons_threw.
      by rewrite returned_app, (returned_no_invocations _ _ Hxi).
Qed.

(** The error counter grows with every call that throws. *)
Lemma forEach_errors ls :
  (∀ l e s, errors (stats (bus (reemit l e s))) + thrown (log s)
            = errors (stats (bus s)) + thrown (log (reemit l e s))) →
  ∀ t s,
    errors (stats (bus (forEach call reemit name args ls t s).2))
    + thrown (log s)
    = errors (stats (bus s))
      + thrown (log (forEach call reemit name args ls t s).2).
Proof.
  intros Hre. induction ls as [|h rest IH]; intros t s; simpl; [done|].
  destruct (call (callback h) (context h) args (world s)) as [[out w] ops].
  destruct out as [|e].
  - match goal with |- context [forEach _ _ _ _ rest ?t' ?s'] =>
      pose proof (IH t' s') as Hi; set (s2 := s') in * end.
    assert (errors (stats (bus s2)) = errors (stats (bus s))) as E1.
    { subst s2. destruct (once_flag h); simpl;
        by rewrite ?off_errors, fold_perform_errors. }
    assert (thrown (log s2) = thrown (log s)) as E2.
    { subst s2. destruct (once_flag h); simpl;
        rewrite thrown_app; unfold thrown at 2; simpl; lia. }
    lia.
  - match goal with |- context [reemit h e ?s'] =>
      pose proof (Hre h e s') as Hr; set (s2 := s') in * end.
    pose proof (IH t (reemit h e s2)) as Hi.
    assert (errors (stats (bus s2)) = S (errors (stats (bus s)))) as E1.
    { subst s2. simpl. by rewrite fold_perform_errors. }
    assert (thrown (log s2) = S (thrown (log s))) as E2.
    { subst s2. simpl. rewrite thrown_app. unfold thrown at 2. simpl. lia. }
    lia.
Qed.

(** The calls go to the listeners of the event only, as far as the catch
    block does. *)
Lemma forEach_other name' ls :
  name' ≠ name →
  (∀ l e s, ∃ extra, log (reemit l e s) = log s ++ extra
                     ∧ invocations name' extra = []) →
  ∀ t s, ∃ new,
    log (forEach call reemit name args ls t s).2 = log s ++ new
    ∧ invocations name' new = [].
Proof.
  intros Hne Hre. induction ls as [|h rest IH]; intros t s; simpl.
  - exists []. by rewrite app_nil_r.
  - destruct (call (callback h) (context h) args (world s)) as [[out w] ops].
    destruct out as [|e].
    + match goal with |- context [forEach _ _ _ _ rest ?t' ?s'] =>
        destruct (IH t' s') as (new & Hl & Hc); set (s2 := s') in * end.
      exists (Invoked name (listenerId h) args Returned :: new).
      split.
      { rewrite Hl. subst s2. destruct (once_flag h); simpl;
          by rewrite <- app_assoc. }
      by rewrite invocations_other.
    + match goal with |- context [reemit h e ?s'] =>
        destruct (Hre h e s') as (extra & Hx & Hxi); set (s2 := s') in * end.
      destruct (IH t (reemit h e s2)) as (new & Hl & Hc).
      exists (Invoked name (listenerId h) args (Threw e) :: extra ++ new).
      split.
      { rewrite Hl, Hx. subst s2. simpl. by rewrite <- !app_assoc. }
      rewrite invocations_other by done.
      by rewrite invocations_app, Hxi, Hc.
Qed.

(** A listener stays registered when no one-time listener among those
    called has its identifier. *)
Lemma forEach_regular ls :
  (∀ cb ctx a w, (call cb ctx a w).2 = []) →
  (∀ l e s, registry name (bus (reemit l e s)) = registry name (bus s)) →
  ∀ t s x,
    x ∈ registry name (bus s) →
    (∀ h, h ∈ ls → once_flag h = true → listenerId h ≠ listenerId x) →
    x ∈ registry name (bus (forEach call reemit name args ls t s).2).
Proof.
  intros quiet Hre. induction ls as [|h rest IH]; intros t s x Hx Hid; simpl;
    [done|].
  destruct (call (callback h) (context h) args (world s)) as [[out w] ops] eqn:Hc.
  pose proof (quiet (callback h) (context h) args (world s)) as Hq.
  rewrite Hc in Hq. simpl in Hq. subst ops. cbn [fold_left] in *.
  assert (∀ h0, h0 ∈ rest → once_flag h0 = true → listenerId h0 ≠ listenerId x)
    as Hid'.
  { intros h0 Hh0. apply Hid. by right. }
  destruct out as [|e]; apply IH; try done.
  - destruct (once_flag h) eqn:Ho; simpl; [|done].
    rewrite off_registry. apply list_elem_of_In, filter_In.
    split; [by apply list_elem_of_In|]. simpl.
    rewrite bool_decide_false; [done|].
    intros Heq. eapply Hid; [left|exact Ho|done].
  - by rewrite Hre.
Qed.

End ForEachMore.

(** [emit] unfolded, with what it returns and what it leaves of the
    bus. *)
Lemma emit_unfold_result name args (s : @Sys W) :
  name ≠ "" →
  let s0 := {| bus := bus s; world := world s;
               log := log s ++ [Emitted name args] |} in
  let r := forEach call
             (fun l e s' =>
                if bool_decide (name = "error") then s'
                else emitError call [VErrorInfo name e (listenerId l)] s')
             name args (registry name (bus s)) 0 s0 in
  ∃ b s',
    emit call name args s = Ok (b, s')
    ∧ b = Nat.ltb 0 r.1
    ∧ log s' = log r.2
    ∧ events (bus s') = events (bus r.2)
    ∧ errors (stats (bus s')) = errors (stats (bus r.2)).
Proof.
  intros Hne. simpl. unfold emit, emitWith, registry.
  rewrite bool_decide_false by done. simpl.
  destruct (events (bus s) !! name) as [ls|] eqn:E; simpl.
  - match goal with |- context [forEach _ ?f _ _ ls ?t' ?s'] =>
      destruct (forEach call f name args ls t' s') as [n s1] eqn:Ef end.
    eexists _, _. split; [done|]. by simpl.
  - eexists _, _. split; [done|]. by simpl.
Qed.

Lemma reemit_invocations_emit name l e (s : @Sys W) :
  ∃ extra,
    log (if bool_decide (name = "error") then s
         else emitError call [VErrorInfo name e (listenerId l)] s)
    = log s ++ extra
    ∧ invocations name extra = [].
Proof.
  destruct (reemit_log_emit call name l e s) as (extra & ? & ? & _).
  by exists extra.
Qed.


Lemma forEach_error_errors args ls : ∀ t (s : @Sys W),
  errors (stats (bus (forEach call (fun _ _ s' => s') "error" args ls t s).2))
  + thrown (log s)
  = errors (stats (bus s))
    + thrown (log (forEach call (fun _ _ s' => s') "error" args ls t s).2).
Proof. intros t s. by apply forEach_errors. Qed.

Lemma emitError_errors args (s : @Sys W) :
  errors (stats (bus (emitError call args s))) + thrown (log s)
  = errors (stats (bus s)) + thrown (log (emitError call args s)).
Proof.
  unfold emitError, emitWith. simpl.
  destruct (events (bus s) !! "error") as [ls|] eqn:E; simpl.
  - match goal with |- context [forEach _ _ _ _ ls ?t' ?s'] =>
      pose proof (forEach_error_errors args ls t' s') as H;
      destruct (forEach call (fun _ _ s'' => s'') "error" args ls t' s')
        as [n s1] eqn:Ef end.
    simpl in *. rewrite thrown_app in H. unfold thrown at 2 in H. simpl in H.
    lia.
  - rewrite thrown_app. unfold thrown at 3. simpl. lia.
Qed.


Lemma reemit_other_emit name name' l e (s : @Sys W) :
  name' ≠ "error" →
  ∃ extra,
    log (if bool_decide (name = "error") then s
         else emitError call [VErrorInfo name e (listenerId l)] s)
    = log s ++ extra
    ∧ invocations name' extra = [].
Proof.
  intros He'. case_bool_decide.
  - exists []. by rewrite app_nil_r.
  - destruct (emitError_log call [VErrorInfo name e (listenerId l)] s name' He')
      as (extra & ? & ? & _).
    by exists extra.
Qed.

(** X5. An emission calls no listener of another event, except those of
    'error' when a listener throws. *)
Theorem emit_calls_only_its_listeners name name' args (s : @Sys W) :
  name ≠ "" → name' ≠ name → name' ≠ "error" →
  ∃ b s' new,
    emit call name args s = Ok (b, s')
    ∧ log s' = log s ++ Emitted name args :: new
    ∧ invocations name' new = [].
Proof.
  intros Hne Hn' He'.
  destruct (emit_unfold_result name args s Hne) as (b & s' & He & _ & Hl & _).
  simpl in Hl.
  match type of Hl with context [forEach _ ?f _ _ ?ls ?t' ?s0] =>
    destruct (forEach_other name args f name' ls Hn'
                (fun l e s1 => reemit_other_emit name name' l e s1 He') t' s0)
      as (new & Hn & Hi) end.
  exists b, s', new. split; [done|]. split; [|done].
  rewrite Hl, Hn. simpl. by rewrite <- app_assoc.
Qed.

(** X6. A listener that is not one-time stays registered through an
    emission of its event, whether its callback returns or throws.  The
    listeners of the event have distinct identifiers, and no callback
    subscribes or unsubscribes a listener on the way. *)
Theorem emit_keeps_regular_listeners name args l (s : @Sys W) :
  (∀ cb ctx a w, (call cb ctx a w).2 = []) →
  name ≠ "" →
  l ∈ registry name (bus s) →
  once_flag l = false →
  NoDup (map listenerId (registry name (bus s))) →
  ∃ b s',
    emit call name args s = Ok (b, s')
    ∧ l ∈ registry name (bus s').
Proof.
  intros quiet Hne Hl Honce Hnd.
  destruct (emit_unfold_result name args s Hne)
    as (b & s' & He & _ & _ & Hev & _).
  exists b, s'. split; [done|].
  unfold registry at 1. rewrite Hev. fold (registry name (bus
    (forEach call
       (fun l0 e s'0 =>
          if bool_decide (name = "error") then s'0
          else emitError call [VErrorInfo name e (listenerId l0)] s'0)
       name args (registry name (bus s)) 0
       {| bus := bus s; world := world s;
          log := log s ++ [Emitted name args] |}).2)).
  apply forEach_regular; try done.
  - intros. apply (reemit_registry_emit call quiet).
  - intros h Hh Ho Heq.
    assert (h = l) as ->; [|congruence].
    apply list_elem_of_lookup in Hh as [i Hi].
    apply list_elem_of_lookup in Hl as [j Hj].
    assert (i = j) as ->.
    { eapply NoDup_lookup; [exact Hnd| |];
        rewrite list_lookup_fmap; [by rewrite Hi|rewrite Hj; simpl; by rewrite Heq]. }
    congruence.
Qed.

End EventBusEmitMoreFacts.

(** ** The event bus: namespaces *)

Section NamespaceFacts.
Import EventBus.
Context {W : Type}.
Variable call :
  nat → option nat → list Value → W → Outcome * W * list BusCall.

Lemma namespaced_cons a r x : namespaced (String a r) x = String a (namespaced r x).
Proof. done. Qed.

Lemma namespaced_nil x : namespaced "" x = String ":" x.
Proof. done. Qed.

Lemma namespaced_has_colon a x : ¬ ResultsDisplay.absent ":" (namespaced a x).
Proof.
  induction a as [|c a IH].
  - rewrite namespaced_nil. simpl. intros [H _]. done.
  - rewrite namespaced_cons. simpl. intros [_ H]. by apply IH.
Qed.

Lemma namespaced_inj a b x y :
  ResultsDisplay.absent ":" a → ResultsDisplay.absent ":" b →
  namespaced a x = namespaced b y → a = b ∧ x = y.
Proof.
  revert b. induction a as [|c a IH]; intros [|d b] Ha Hb Heq.
  - rewrite !namespaced_nil in Heq. by injection Heq as ->.
  - rewrite namespaced_nil, (namespaced_cons d b y) in Heq.
    injection Heq as <- _. destruct Hb as [Hb _]. done.
  - rewrite namespaced_nil, (namespaced_cons c a x) in Heq.
    injection Heq as -> _. destruct Ha as [Ha _]. done.
  - rewrite (namespaced_cons c a x), (namespaced_cons d b y) in Heq.
    injection Heq as -> Heq.
    destruct Ha as [_ Ha], Hb as [_ Hb].
    destruct (IH b Ha Hb Heq) as [-> ->]. done.
Qed.

Lemma namespaced_nonempty a x : namespaced a x ≠ "".
Proof. intros H. apply (namespaced_has_colon a x). by rewrite H. Qed.

(** X7. Two namespaces whose names contain no colon are isolated from
    each other: an emission through one calls no listener subscribed
    through the other, whatever the event names.  (A colon in a namespace
    breaks this: namespace a:b with event c and namespace a with event
    b:c share the name a:b:c.) *)
Theorem namespaces_are_isolated ns1 ns2 e1 e2 args (s : @Sys W) :
  ResultsDisplay.absent ":" ns1 →
  ResultsDisplay.absent ":" ns2 →
  ns1 ≠ ns2 →
  ∃ b s' new,
    namespace_emit call ns2 e2 args s = Ok (b, s')
    ∧ log s' = log s ++ Emitted (namespaced ns2 e2) args :: new
    ∧ invocations (namespaced ns1 e1) new = [].
Proof.
  intros H1 H2 Hne. unfold namespace_emit.
  assert (namespaced ns1 e1 ≠ namespaced ns2 e2) as Hn'.
  { intros Heq. by apply namespaced_inj in Heq as [? _]. }
  assert (namespaced ns1 e1 ≠ "error") as He'.
  { intros Heq. apply (namespaced_has_colon ns1 e1). rewrite Heq.
    by vm_compute. }
  destruct (emit_unfold_result call (namespaced ns2 e2) args s
              (namespaced_nonempty ns2 e2)) as (b & s' & He & _ & Hl & _).
  simpl in Hl.
  match type of Hl with context [forEach _ ?f _ _ ?ls ?t' ?s0] =>
    destruct (forEach_other call (namespaced ns2 e2) args f
                (namespaced ns1 e1) ls Hn'
                (fun l e s1 =>
                   reemit_other_emit call (namespaced ns2 e2)
                     (namespaced ns1 e1) l e s1 He') t' s0)
      as (new & Hn & Hi) end.
  exists b, s', new. split; [done|]. split; [|done].
  rewrite Hl, Hn. simpl. by rewrite <- app_assoc.
Qed.

(** X8. A namespaced bus tests the prefixed name, which is never empty:
    it accepts the empty event name that [on] itself rejects, and
    registers the listener under the namespace followed by a colon. *)
Theorem namespaced_on_accepts_the_empty_name ns nb cb options newId b :
  namespace ns = Ok nb →
  on "" cb options newId b = Error "Event name must be a non-empty string"
  ∧ ∃ b', ns_on nb "" cb options newId b = Ok (newId, b')
          ∧ registry (ns +:+ ":") b'
            = registry (ns +:+ ":") b
              ++ [{| callback := cb; once_flag := opt_once options;
                     context := opt_context options; listenerId := newId |}].
Proof.
  unfold namespace. case_bool_decide as Hns; [done|].
  intros [= <-]. split; [done|]. simpl.
  assert (namespaced ns "" = ns +:+ ":") as E by done.
  rewrite E.
  assert (ns +:+ ":" ≠ "") as Hne by (rewrite <- E; apply namespaced_nonempty).
  unfold on. rewrite bool_decide_false by done.
  eexists. split; [done|]. unfold registry. simpl.
  by rewrite lookup_insert_eq.
Qed.

End NamespaceFacts.

Section EventBusWitnesses.
Import EventBus.

Lemma on_adds_one_listener_witness :
  "results:display" ≠ ""
  ∧ ∃ b', on "results:display" 7 noOptions "listener_5_e" (bus Sample.sys)
          = Ok ("listener_5_e", b')
          ∧ getListenerCount "results:display" b' = 1
          ∧ getTotalListenerCount b'
            = S (getTotalListenerCount (bus Sample.sys)).
Proof.
  split; [discriminate|].
  destruct (on_adds_one_listener "results:display" 7 noOptions "listener_5_e"
              (bus Sample.sys))
    as (b' & H1 & _ & H3 & _ & _ & H6); [discriminate|].
  exists b'. split; [exact H1|]. split; [exact H3|exact H6].
Defined.

Lemma off_undoes_on_witness :
  "mode:changed" ≠ ""
  ∧ ("listener_5_e"
     ∉ map listenerId (registry "mode:changed" (bus Sample.sys)))
  ∧ ∃ b', on "mode:changed" 7 noOptions "listener_5_e" (bus Sample.sys)
          = Ok ("listener_5_e", b')
          ∧ ∀ name', registry name' (off "mode:changed" (ById "listener_5_e") b')
                     = registry name' (bus Sample.sys).
Proof.
  assert ("mode:changed" ≠ "") as H1 by discriminate.
  assert ("listener_5_e"
          ∉ map listenerId (registry "mode:changed" (bus Sample.sys))) as H2.
  { apply (bool_decide_unpack _). vm_compute. reflexivity. }
  split; [exact H1|]. split; [exact H2|].
  exact (off_undoes_on "mode:changed" 7 noOptions "listener_5_e"
           (bus Sample.sys) H1 H2).
Defined.



Lemma emit_calls_only_its_listeners_witness :
  "error" ≠ "" ∧ "mode:changed" ≠ "error"
  ∧ ∃ b s' new,
      emit Sample.call "error" [] Sample.sys = Ok (b, s')
      ∧ log s' = log Sample.sys ++ Emitted "error" [] :: new
      ∧ invocations "mode:changed" new = [].
Proof.
  split; [discriminate|]. split; [discriminate|].
  apply (emit_calls_only_its_listeners Sample.call
           "error" "mode:changed" [] Sample.sys); discriminate.
Defined.

Lemma emit_keeps_regular_listeners_witness :
  (∀ cb ctx a w, (Sample.call cb ctx a w).2 = [])
  ∧ "mode:changed" ≠ ""
  ∧ Sample.regular ∈ registry "mode:changed" (bus Sample.sys)
  ∧ once_flag Sample.regular = false
  ∧ NoDup (map listenerId (registry "mode:changed" (bus Sample.sys)))
  ∧ ∃ b s',
      emit Sample.call "mode:changed" [] Sample.sys = Ok (b, s')
      ∧ Sample.regular ∈ registry "mode:changed" (bus s').
Proof.
  assert (∀ cb ctx a w, (Sample.call cb ctx a w).2 = []) as H0.
  { intros [|[|cb]] ctx a w; reflexivity. }
  assert ("mode:changed" ≠ "") as H1 by discriminate.
  assert (Sample.regular ∈ registry "mode:changed" (bus Sample.sys)) as H2.
  { vm_compute. right. right. left. }
  assert (once_flag Sample.regular = false) as H3 by reflexivity.
  assert (NoDup (map listenerId (registry "mode:changed" (bus Sample.sys))))
    as H4.
  { apply (bool_decide_unpack _). vm_compute. reflexivity. }
  split; [exact H0|]. split; [exact H1|]. split; [exact H2|].
  split; [exact H3|]. split; [exact H4|].
  exact (emit_keeps_regular_listeners Sample.call "mode:changed" []
           Sample.regular Sample.sys H0 H1 H2 H3 H4).
Defined.

Lemma namespaces_are_isolated_witness :
  ResultsDisplay.absent ":" "form"
  ∧ ResultsDisplay.absent ":" "results"
  ∧ "form" ≠ "results"
  ∧ ∃ b s' new,
      namespace_emit Sample.call "results" "display" [] Sample.sys
      = Ok (b, s')
      ∧ log s'
        = log Sample.sys ++ Emitted (namespaced "results" "display") [] :: new
      ∧ invocations (namespaced "form" "display") new = [].
Proof.
  assert (ResultsDisplay.absent ":" "form") as H1
    by (simpl; repeat split; discriminate).
  assert (ResultsDisplay.absent ":" "results") as H2
    by (simpl; repeat split; discriminate).
  assert ("form" ≠ "results") as H3 by discriminate.
  split; [exact H1|]. split; [exact H2|]. split; [exact H3|].
  exact (namespaces_are_isolated Sample.call "form" "results" "display"
           "display" [] Sample.sys H1 H2 H3).
Defined.

Lemma namespaced_on_accepts_the_empty_name_witness :
  ∃ nb, namespace "form" = Ok nb
        ∧ ∃ b', ns_on nb "" 7 noOptions "listener_5_e" constructor
                = Ok ("listener_5_e", b')
                ∧ getListenerCount "form:" b' = 1.
Proof.
  eexists. split; [reflexivity|].
  destruct (namespaced_on_accepts_the_empty_name "form" _ 7 noOptions
              "listener_5_e" constructor eq_refl) as (_ & b' & H1 & H2).
  exists b'. split; [exact H1|].
  change (getListenerCount ("form" +:+ ":") b' = 1).
  rewrite getListenerCount_registry, H2. reflexivity.
Defined.

End EventBusWitnesses.

(** ** The property form: validators, repeated input, initial values *)

Section PropertyFormMoreFacts.
Import Js PropertyForm.

Lemma lt_negb_ge a b :
  isNaN a = false → isNaN b = false → lt a b = negb (ge a b).
Proof. destruct a, b; simpl; try done. Qed.

Lemma gt_negb_le a b :
  isNaN a = false → isNaN b = false → gt a b = negb (le a b).
Proof. destruct a, b; simpl; try done. Qed.

Lemma isInteger_not_NaN n : isInteger n = true → isNaN n = false.
Proof. by destruct n. Qed.

(** X9. The verdict of [validate] agrees with the two field validators
    that style the inputs, as long as the stored temperature is a number:
    the form is valid exactly when [validateSamples] and
    [validateTemperature] both hold.  (With NaN as the temperature, which
    [handleFormDataSet] can store, [validate] reports no error while
    [validateTemperature] fails.) *)
Theorem validate_agrees_with_field_validators (c : Component) :
  isNaN (temperature (state c)) = false →
  isValid (state (validate c)) = validateSamples c && validateTemperature c
  ∧ (isValid (state (validate c)) = true ↔ errors (state (validate c)) = []).
Proof.
  intros Ht. split.
  - unfold validate, validationErrors, validateSamples, validateTemperature.
    cbn [state isValid samples temperature].
    destruct (isInteger (samples (state c))) eqn:Ei; cbn [negb orb andb].
    + apply isInteger_not_NaN in Ei.
      rewrite (lt_negb_ge _ samples_min Ei eq_refl).
      rewrite (gt_negb_le _ samples_max Ei eq_refl).
      rewrite (lt_negb_ge _ temperature_min Ht eq_refl).
      rewrite (gt_negb_le _ temperature_max Ht eq_refl).
      destruct (ge (samples (state c)) samples_min),
               (le (samples (state c)) samples_max),
               (ge (temperature (state c)) temperature_min),
               (le (temperature (state c)) temperature_max); reflexivity.
    + rewrite !length_app. simpl. reflexivity.
  - unfold validate. cbn [state isValid errors].
    rewrite Nat.eqb_eq. apply length_zero_iff_nil.
Qed.

Lemma sanitizedValue_integer rawValue :
  ∃ z, sanitizedValue rawValue = Fin (inject_Z z).
Proof.
  unfold sanitizedValue, parseInt.
  destruct (stripSign (skipWhiteSpace rawValue)) as [negative body].
  destruct (parseDigits 10 body None) as [z|]; cbn [isNaN orb].
  - repeat case_match; try (by exists 1%Z); try (by exists 500%Z); eauto.
  - by exists 1%Z.
Qed.

Lemma sanitizedValue_not_NaN rawValue : isNaN (sanitizedValue rawValue) = false.
Proof. destruct (sanitizedValue_integer rawValue) as [z ->]. done. Qed.

Lemma isInteger_strictEq a z :
  strictEq a (Fin (inject_Z z)) = true → isInteger a = true.
Proof.
  destruct a as [q| | |]; simpl; try done.
  intros H%Qeq_bool_iff. unfold Qeq in H. simpl in H.
  apply Z.eqb_eq. rewrite Z.mul_1_r in H. rewrite H.
  apply Z.mod_mul. done.
Qed.

Lemma inRange_ge_le lo hi n :
  inRange lo hi n → ge n (Fin lo) = true ∧ le n (Fin hi) = true.
Proof.
  destruct n as [q| | |]; simpl; try done.
  intros [H1 H2]. split; by apply Qle_bool_iff.
Qed.

(** X10. [handleSamplesChange] is idempotent: a second input event with
    the same text changes nothing and emits nothing.  After it the samples
    field always passes [validateSamples], whatever was typed. *)
Theorem handleSamplesChange_settles (rawValue : string) (c : Component) :
  let c' := handleSamplesChange rawValue c in
  handleSamplesChange rawValue c' = c'
  ∧ validateSamples c' = true
  ∧ (emitted c' = emitted c
     ∨ emitted c' = emitted c ++ [(sanitizedValue rawValue, temperature (state c))]).
Proof.
  intros c'. subst c'. unfold handleSamplesChange.
  destruct (sanitizedValue_integer rawValue) as [z Hz].
  pose proof (sanitizedValue_inRange rawValue) as Hr.
  destruct (strictEq (samples (state c)) (sanitizedValue rawValue)) eqn:E;
    cbn [negb].
  - rewrite E. cbn [negb]. split; [done|]. split; [|by left].
    unfold validateSamples.
    rewrite Hz in E. rewrite (isInteger_strictEq _ _ E).
    rewrite <- Hz in E.
    destruct (inRange_ge_le 1 500 (samples (state c))) as [H1 H2].
    { eapply strictEq_inRange; [exact E|exact Hr]. }
    unfold samples_min, samples_max. by rewrite H1, H2.
  - assert (samples (state (emitFormChange
              (validate (set_samples (sanitizedValue rawValue) c))))
            = sanitizedValue rawValue) as Es by done.
    rewrite Es.
    rewrite strictEq_refl by apply sanitizedValue_not_NaN.
    cbn [negb]. split; [done|]. split; [|by right].
    unfold validateSamples. rewrite Es.
    destruct (inRange_ge_le 1 500 _ Hr) as [H1 H2].
    unfold samples_min, samples_max. rewrite H1, H2.
    rewrite Hz. simpl. rewrite Z.mod_1_r. done.
Qed.

(** X11. The form initialised on a page whose samples input holds 0,
    nothing or no number stores 1 sample without emitting it; an input
    event whose text sanitises to 1 (1, 0, the empty text, a negative
    number) then changes nothing and emits nothing, so no
    'form:dataChanged' event ever carries that 1. *)
Theorem typing_the_initial_sample_count_is_silent
    (samplesValue : string) (temperatureValue : jsnum) (rawValue : string) :
  truthy (parseInt samplesValue None) = false →
  sanitizedValue rawValue = Fin 1 →
  samples (state (init samplesValue temperatureValue)) = Fin 1
  ∧ emitted (init samplesValue temperatureValue) = []
  ∧ handleSamplesChange rawValue (init samplesValue temperatureValue)
    = init samplesValue temperatureValue.
Proof.
  intros Hf Hs.
  assert (samples (state (init samplesValue temperatureValue)) = Fin 1) as E.
  { unfold init, setupInitialValues. cbn [validate state samples set_temperature set_samples].
    by rewrite Hf. }
  split; [exact E|]. split; [done|].
  unfold handleSamplesChange. rewrite E, Hs. done.
Qed.

End PropertyFormMoreFacts.

Section PropertyFormWitnesses.
Import Js PropertyForm.

Lemma validate_agrees_with_field_validators_witness :
  isNaN (temperature (state constructor)) = false
  ∧ isValid (state (validate constructor))
    = validateSamples constructor && validateTemperature constructor.
Proof.
  split; [reflexivity|].
  apply (validate_agrees_with_field_validators constructor). reflexivity.
Defined.

Lemma typing_the_initial_sample_count_is_silent_witness :
  truthy (parseInt "0" None) = false
  ∧ sanitizedValue "1" = Fin 1
  ∧ handleSamplesChange "1" (init "0" (Fin 1)) = init "0" (Fin 1).
Proof.
  assert (truthy (parseInt "0" None) = false) as H1 by (vm_compute; reflexivity).
  assert (sanitizedValue "1" = Fin 1) as H2 by (vm_compute; reflexivity).
  split; [exact H1|]. split; [exact H2|].
  apply (typing_the_initial_sample_count_is_silent "0" (Fin 1) "1" H1 H2).
Defined.

End PropertyFormWitnesses.

(** ** The generation controller: the button, and how a generation ends *)

Section GenerationControllerMoreFacts.
Import Js Form GenerationController.

Lemma gc_elem_of_classList_add c d l :
  d ∈ classList_add c l ↔ d = c ∨ d ∈ l.
Proof.
  unfold classList_add. case_bool_decide as H.
  - split; [by right|]. intros [->|?]; done.
  - rewrite elem_of_app, list_elem_of_singleton. tauto.
Qed.

Lemma gc_elem_of_classList_remove c d l :
  d ∈ classList_remove c l ↔ d ≠ c ∧ d ∈ l.
Proof.
  unfold classList_remove. rewrite list_elem_of_In, filter_In, <- list_elem_of_In.
  rewrite negb_true_iff, bool_decide_eq_false. tauto.
Qed.

Lemma classList_add_present c l : c ∈ l → classList_add c l = l.
Proof. intros H. unfold classList_add. by rewrite bool_decide_true. Qed.

Lemma classList_remove_absent c l : c ∉ l → classList_remove c l = l.
Proof.
  intros H. unfold classList_remove. induction l as [|a l IH]; [done|].
  apply not_elem_of_cons in H as [Ha Hl]. simpl.
  rewrite bool_decide_false by done. simpl. by rewrite IH.
Qed.

Lemma classList_toggle_idem c f l :
  classList_toggle c f (classList_toggle c f l) = classList_toggle c f l.
Proof.
  destruct f; simpl.
  - apply classList_add_present. apply gc_elem_of_classList_add. by left.
  - apply classList_remove_absent. rewrite gc_elem_of_classList_remove. tauto.
Qed.

Lemma elem_of_classList_toggle c f d l :
  d ∈ classList_toggle c f l ↔ (d = c ∧ f = true) ∨ (d ≠ c ∧ d ∈ l).
Proof.
  destruct f; simpl.
  - rewrite gc_elem_of_classList_add.
    destruct (decide (d = c)); intuition congruence.
  - rewrite gc_elem_of_classList_remove. intuition congruence.
Qed.

Lemma classList_toggle_comm c d f g l :
  c ≠ d →
  classList_toggle c f (classList_toggle d g (classList_toggle c f l))
  = classList_toggle d g (classList_toggle c f l).
Proof.
  intros Hne. destruct f; simpl.
  - apply classList_add_present. apply elem_of_classList_toggle.
    right. split; [done|]. apply gc_elem_of_classList_add. by left.
  - apply classList_remove_absent. rewrite elem_of_classList_toggle.
    rewrite gc_elem_of_classList_remove. intuition congruence.
Qed.

(** The classes that [updateButtonState] leaves. *)
Lemma updateButtonState_classList st el :
  classList (updateButtonState st el)
  = classList_toggle "generate-button--disabled"
      (negb (isValid (validateForm st) && negb (isGenerating st))
       && negb (isGenerating st))
      (classList_toggle "generate-button--generating" (isGenerating st)
         (classList el)).
Proof. unfold updateButtonState. cbn [classList]. by destruct (isGenerating st). Qed.

Lemma Element_eq (e1 e2 : Element) :
  textContent e1 = textContent e2 → classList e1 = classList e2 →
  disabled e1 = disabled e2 → ariaBusy e1 = ariaBusy e2 →
  ariaDescribedby e1 = ariaDescribedby e2 → title e1 = title e2 →
  e1 = e2.
Proof. destruct e1, e2. simpl. by intros -> -> -> -> -> ->. Qed.

Lemma updateButtonState_idem st el :
  updateButtonState st (updateButtonState st el) = updateButtonState st el.
Proof.
  assert (classList (updateButtonState st (updateButtonState st el))
          = classList (updateButtonState st el)) as Hc.
  { rewrite (updateButtonState_classList st (updateButtonState st el)).
    rewrite (updateButtonState_classList st el).
    rewrite (classList_toggle_comm "generate-button--generating"
               "generate-button--disabled") by done.
    apply classList_toggle_idem. }
  apply Element_eq; done.
Qed.

Lemma updateButtonState_abortController c st el :
  updateButtonState (set_abortController c st) el = updateButtonState st el.
Proof. done. Qed.

Lemma upToDate_refreshButton w : upToDate (refreshButton w).
Proof.
  unfold upToDate, refreshButton. cbn [set_element element state].
  symmetry. apply updateButtonState_idem.
Qed.

Lemma upToDate_same w w' :
  state w' = state w → element w' = element w → upToDate w → upToDate w'.
Proof. unfold upToDate. by intros -> ->. Qed.

Lemma upToDate_cleanUp w : upToDate (cleanUp w).
Proof. apply upToDate_refreshButton. Qed.

Lemma upToDate_fail a message w : upToDate (fail a message w).
Proof.
  unfold fail, handleGenerationError.
  eapply upToDate_same; [| |apply upToDate_cleanUp]; done.
Qed.

Lemma upToDate_resume a r w : upToDate (resume a r w).
Proof.
  unfold resume. destruct r; [|apply upToDate_fail|].
  - apply upToDate_cleanUp.
  - case_bool_decide; apply upToDate_fail.
Qed.

Lemma upToDate_issueRequest a body w :
  upToDate w → upToDate (issueRequest a body w).
Proof.
  intros H. unfold issueRequest.
  destruct (abortController (state w)); [|apply upToDate_fail].
  case_bool_decide; [apply upToDate_resume|].
  eapply upToDate_same; [| |exact H]; done.
Qed.

Lemma upToDate_react w t : upToDate w → upToDate (react w t).
Proof.
  intros H. destruct t as [a body|a r]; simpl.
  - destruct (isPreparing a w); [by apply upToDate_issueRequest|done].
  - destruct (isRacing a w); [apply upToDate_resume|done].
Qed.

Lemma upToDate_fold_react ts : ∀ w,
  upToDate w → upToDate (fold_left react ts w).
Proof.
  induction ts as [|t ts IH]; intros w H; [done|].
  simpl. apply IH. by apply upToDate_react.
Qed.

Lemma upToDate_drain w : upToDate w → upToDate (drain w).
Proof.
  intros H. unfold drain. apply upToDate_fold_react.
  eapply upToDate_same; [| |exact H]; done.
Qed.

Lemma upToDate_prepareFragment a body w :
  upToDate w → upToDate (prepareFragment a body w).
Proof.
  intros H. unfold prepareFragment.
  destruct (fragmentFile (formData (state w)));
    (eapply upToDate_same; [| |exact H]; done).
Qed.

Lemma upToDate_startGeneration w : upToDate w → upToDate (startGeneration w).
Proof.
  intros H. unfold startGeneration.
  destruct (isValid (validateForm (state w))); cbn [negb].
  - match goal with |- context [scaffoldFile (formData (state ?w4))] =>
      assert (upToDate w4) as H4 end.
    { unfold upToDate. cbn [set_suspended add_effect element state].
      rewrite updateButtonState_abortController.
      apply upToDate_refreshButton. }
    match goal with |- context [scaffoldFile (formData (state ?w4))] =>
      set (w4' := w4) in * end.
    destruct (scaffoldFile (formData (state w4'))).
    + eapply upToDate_same; [| |exact H4]; done.
    + by apply upToDate_prepareFragment.
  - eapply upToDate_same; [| |exact H]; done.
Qed.

Lemma upToDate_cancelGeneration w : upToDate (cancelGeneration w).
Proof.
  unfold cancelGeneration.
  eapply upToDate_same; [| |apply upToDate_refreshButton]; done.
Qed.

Lemma upToDate_fileRead a w : upToDate w → upToDate (fileRead a w).
Proof.
  intros H. unfold fileRead. destruct (stageOf a w) as [x|]; [|done].
  destruct (act_stage x); try done.
  - by apply upToDate_prepareFragment.
  - by apply upToDate_issueRequest.
Qed.

Lemma upToDate_step e w : upToDate w → upToDate (step e w).
Proof.
  intros H. destruct e; cbn [step].
  - apply upToDate_drain. unfold handleClick.
    destruct (isGenerating (state w));
      [apply upToDate_cancelGeneration|by apply upToDate_startGeneration].
  - apply upToDate_refreshButton.
  - apply upToDate_refreshButton.
  - apply upToDate_drain. by apply upToDate_fileRead.
  - destruct (isRacing a w); [apply upToDate_resume|done].
  - case_bool_decide; [|done].
    match goal with |- context [isRacing a ?w1] =>
      destruct (isRacing a w1); [apply upToDate_resume|] end.
    eapply upToDate_same; [| |exact H]; done.
Qed.

(** X12. The button never goes stale.  If it shows what
    [updateButtonState] makes of the state, it still does after any
    sequence of clicks, mode and form changes, file reads, timeouts and
    responses: the label is Cancel exactly while generating, the button
    is disabled exactly when the form is invalid and nothing is being
    generated, and the two modifier classes agree with these flags. *)
Theorem button_always_reflects_state (es : list Event) (w : World) :
  upToDate w →
  let w' := run es w in
  upToDate w'
  ∧ textContent (element w')
    = (if isGenerating (state w') then "Cancel" else "Generate")
  ∧ disabled (element w')
    = negb (isValid (validateForm (state w'))) && negb (isGenerating (state w'))
  ∧ ("generate-button--generating" ∈ classList (element w')
     ↔ isGenerating (state w') = true)
  ∧ ("generate-button--disabled" ∈ classList (element w')
     ↔ disabled (element w') = true).
Proof.
  intros H w'.
  assert (upToDate w') as Hw.
  { subst w'. revert w H. induction es as [|e es IH]; intros w H; [done|].
    simpl. apply IH. by apply upToDate_step. }
  split; [exact Hw|]. unfold upToDate in Hw. clearbody w'.
  set (st := state w') in *. set (el := element w') in *.
  assert (disabled el
          = negb (isValid (validateForm st)) && negb (isGenerating st)) as Hd.
  { rewrite Hw. unfold updateButtonState. cbn [disabled].
    by destruct (isValid (validateForm st)), (isGenerating st). }
  split. { rewrite Hw. done. }
  split; [exact Hd|].
  assert (classList el
          = classList_toggle "generate-button--disabled" (disabled el)
              (classList_toggle "generate-button--generating" (isGenerating st)
                 (classList el))) as Hc.
  { rewrite Hw at 1. rewrite updateButtonState_classList. f_equal.
    rewrite Hd. by destruct (isValid (validateForm st)), (isGenerating st). }
  split.
  - rewrite Hc, !elem_of_classList_toggle.
    split.
    + intros [[? _]|[_ [[_ ?]|[? _]]]]; done.
    + intros Hg. right. split; [done|]. by left.
  - rewrite Hc at 1. rewrite elem_of_classList_toggle.
    split.
    + intros [[_ ?]|[? _]]; done.
    + intros Ht. by left.
Qed.


Lemma isRacing_removeActivation a w : isRacing a (removeActivation a w) = false.
Proof.
  unfold isRacing, removeActivation. cbn [set_suspended suspended].
  induction (suspended w) as [|x l IH]; [done|]. simpl.
  destruct (Nat.eqb (act_id x) a) eqn:E; simpl; [done|]. by rewrite E.
Qed.

Lemma isRacing_suspended a w w' :
  suspended w' = suspended w → isRacing a w' = isRacing a w.
Proof. unfold isRacing. by intros ->. Qed.

Lemma resume_state a r w :
  isGenerating (state (resume a r w)) = false
  ∧ abortController (state (resume a r w)) = None
  ∧ currentMode (state (resume a r w)) = currentMode (state w)
  ∧ formData (state (resume a r w)) = formData (state w)
  ∧ textContent (element (resume a r w)) = "Generate"
  ∧ isRacing a (resume a r w) = false
  ∧ outstanding (resume a r w) = outstanding w
  ∧ aborted (resume a r w) = aborted w
  ∧ nextController (resume a r w) = nextController w.
Proof.
  pose proof (isRacing_removeActivation a w) as Hr.
  unfold resume. destruct r; [| |case_bool_decide];
    split_and!; try done;
    (erewrite isRacing_suspended; [exact Hr|done]).
Qed.

Lemma resume_effects a r w :
  effects (resume a r w)
  = effects w
    ++ match r with
       | ResponseOk data => [Emit "generation:complete" (Results data)]
       | ResponseNotOk status statusText errorText =>
           let m := "API request failed: " +:+ status +:+ " " +:+ statusText
                    +:+ " - " +:+ errorText in
           [Emit "generation:error" (Failure m);
            Emit "generation:error" (Failure m)]
       | Rejected name message =>
           let m := if bool_decide (name = "AbortError")
                    then "Generation was cancelled" else message in
           [Emit "generation:error" (Failure m);
            Emit "generation:error" (Failure m)]
       end.
Proof.
  unfold resume. destruct r; [| |case_bool_decide]; simpl;
    by rewrite <- ?app_assoc.
Qed.

Lemma response_reaches_waiting a r w :
  isRacing a w = true →
  a ∈ map fst (outstanding w) →
  ∃ w1, step (ResponseArrives a r) w = resume a r w1
        ∧ effects w1 = effects w.
Proof.
  intros Hr Ho. cbn [step]. rewrite bool_decide_true by done.
  match goal with |- context [isRacing a ?x] => set (w1 := x) end.
  assert (isRacing a w1 = true) as ->
    by (rewrite <- Hr; by apply isRacing_suspended).
  by exists w1.
Qed.

Lemma click_while_racing a c w :
  isGenerating (state w) = true →
  abortController (state w) = Some c →
  microtasks w = [] →
  List.filter (fun r => Nat.eqb (snd r) c) (outstanding w) = [(a, c)] →
  isRacing a w = true →
  ∃ w2,
    step Click w = resume a (Rejected "AbortError" "The user aborted a request.") w2
    ∧ effects w2
      = effects w ++ [Abort c; Emit "generation:cancelled" NoPayload]
    ∧ outstanding w2
      = List.filter (fun r => negb (Nat.eqb (snd r) c)) (outstanding w).
Proof.
  intros Hg Hc Hm Hf Hr.
  cbn [step]. unfold handleClick. rewrite Hg.
  unfold drain, cancelGeneration. rewrite Hc.
  cbn [microtasks add_effect refreshButton set_element set_state abort
       state element effects nextController suspended outstanding aborted].
  rewrite Hm, Hf. cbn [map app fold_left react fst].
  match goal with |- context [isRacing a ?x] =>
    assert (isRacing a x = true) as ->
      by (rewrite <- Hr; by apply isRacing_suspended) end.
  eexists. split; [reflexivity|]. cbn [effects outstanding].
  split; [|done]. by rewrite <- app_assoc.
Qed.

(** X13. A response that reaches a waiting generation ends it: a good
    response is announced once as 'generation:complete'; a bad status or
    a rejection is announced as 'generation:error' twice with the same
    message, once by [startGeneration] and once by [handleClick].  Either
    way the controller is idle again, the stored controller is dropped
    and the button reads Generate. *)
Theorem response_ends_the_generation (a : nat) (r : Settled) (w : World) :
  isRacing a w = true →
  a ∈ map fst (outstanding w) →
  let w' := step (ResponseArrives a r) w in
  effects w'
  = effects w
    ++ match r with
       | ResponseOk data => [Emit "generation:complete" (Results data)]
       | ResponseNotOk status statusText errorText =>
           let m := "API request failed: " +:+ status +:+ " " +:+ statusText
                    +:+ " - " +:+ errorText in
           [Emit "generation:error" (Failure m);
            Emit "generation:error" (Failure m)]
       | Rejected name message =>
           let m := if bool_decide (name = "AbortError")
                    then "Generation was cancelled" else message in
           [Emit "generation:error" (Failure m);
            Emit "generation:error" (Failure m)]
       end
  ∧ isGenerating (state w') = false
  ∧ abortController (state w') = None
  ∧ textContent (element w') = "Generate"
  ∧ isRacing a w' = false
  ∧ a ∉ map fst (outstanding w').
Proof.
  intros Hr Ho w'. subst w'. cbn [step].
  rewrite bool_decide_true by done.
  match goal with |- context [isRacing a ?x] => set (w1 := x) end.
  assert (isRacing a w1 = true) as ->
    by (rewrite <- Hr; by apply isRacing_suspended).
  destruct (resume_state a r w1) as (H1 & H2 & _ & _ & H5 & H6 & H7 & _).
  rewrite resume_effects.
  split; [done|]. split; [done|]. split; [done|]. split; [done|].
  split; [done|].
  rewrite H7. subst w1. cbn [outstanding].
  intros Hin. apply list_elem_of_fmap in Hin as (x & -> & Hx).
  apply list_elem_of_In, filter_In in Hx as [_ Hx].
  by rewrite Nat.eqb_refl in Hx.
Qed.

(** X14. When the timer wins the race the error is announced, twice,
    and the controller is idle again, but the request is neither aborted
    nor forgotten: it stays outstanding, and its response, when it comes,
    is dropped without any event. *)
Theorem timeout_leaves_the_request_running (a : nat) (w : World) :
  isRacing a w = true →
  let w' := step (TimeoutFires a) w in
  effects w'
  = effects w
    ++ [Emit "generation:error" (Failure "Request timeout");
        Emit "generation:error" (Failure "Request timeout")]
  ∧ isGenerating (state w') = false
  ∧ abortController (state w') = None
  ∧ outstanding w' = outstanding w
  ∧ aborted w' = aborted w
  ∧ ∀ r, effects (step (ResponseArrives a r) w') = effects w'
         ∧ state (step (ResponseArrives a r) w') = state w'.
Proof.
  intros Hr w'. subst w'. cbn [step]. rewrite Hr.
  destruct (resume_state a (Rejected "Error" "Request timeout") w)
    as (H1 & H2 & _ & _ & _ & H6 & H7 & H8 & _).
  pose proof (resume_effects a (Rejected "Error" "Request timeout") w) as He.
  set (w' := resume a (Rejected "Error" "Request timeout") w) in *.
  split; [exact He|]. split; [done|]. split; [done|]. split; [done|].
  split; [done|].
  intros r. cbn [step]. case_bool_decide; [|by split].
  match goal with |- context [isRacing a ?x] =>
    assert (isRacing a x = false) as ->
      by (rewrite <- H6; by apply isRacing_suspended) end.
  by split.
Qed.


(** X15. Cancelling a request that is on its way is reported as an
    error too: the click aborts the controller and emits
    'generation:cancelled'; the rejected request then makes
    [startGeneration] and [handleClick] each emit 'generation:error' with
    the message Generation was cancelled. *)
Theorem cancel_is_also_reported_as_error (a c : nat) (w : World) :
  isGenerating (state w) = true →
  abortController (state w) = Some c →
  microtasks w = [] →
  List.filter (fun r => Nat.eqb (snd r) c) (outstanding w) = [(a, c)] →
  isRacing a w = true →
  let w' := step Click w in
  effects w'
  = effects w
    ++ [Abort c;
        Emit "generation:cancelled" NoPayload;
        Emit "generation:error" (Failure "Generation was cancelled");
        Emit "generation:error" (Failure "Generation was cancelled")]
  ∧ isGenerating (state w') = false
  ∧ abortController (state w') = None
  ∧ isRacing a w' = false
  ∧ (∀ r, r ∈ outstanding w' → r.2 ≠ c).
Proof.
  intros Hg Hc Hm Hf Hr w'. subst w'.
  destruct (click_while_racing a c w Hg Hc Hm Hf Hr) as (w2 & -> & He & Ho).
  destruct (resume_state a (Rejected "AbortError" "The user aborted a request.") w2)
    as (H1 & H2 & _ & _ & _ & H6 & H7 & _).
  rewrite resume_effects, He, H7, Ho.
  split. { rewrite <- app_assoc. done. }
  split; [done|]. split; [done|]. split; [done|].
  intros r Hin Heq. apply list_elem_of_In, filter_In in Hin as [_ Hk].
  rewrite Heq, Nat.eqb_refl in Hk. done.
Qed.

Lemma isPreparing_added a body l w :
  suspended w
  = l ++ [{| act_id := a; act_payload := body; act_stage := Preparing |}] →
  isPreparing a w = true.
Proof.
  intros E. unfold isPreparing. rewrite E, existsb_app. simpl.
  rewrite Nat.eqb_refl. simpl. apply orb_true_r.
Qed.

Lemma map_stage_added a body body' stage (l : list Activation) st0 :
  (∀ x, x ∈ l → act_id x ≠ a) →
  map (fun x => if Nat.eqb (act_id x) a
                then {| act_id := a; act_payload := body; act_stage := stage |}
                else x)
      (l ++ [{| act_id := a; act_payload := body'; act_stage := st0 |}])
  = l ++ [{| act_id := a; act_payload := body; act_stage := stage |}].
Proof.
  intros Hl. rewrite map_app. simpl. rewrite Nat.eqb_refl. f_equal.
  induction l as [|x l IH]; [done|]. simpl.
  assert (Nat.eqb (act_id x) a = false) as ->.
  { apply Nat.eqb_neq. apply Hl. by left. }
  f_equal. apply IH. intros y Hy. apply Hl. by right.
Qed.

(** The controller after a click on a valid form with no file, once the
    reactions queued by the click have run. *)
Lemma click_on_valid_form (w : World) :
  isGenerating (state w) = false →
  isValid (validateForm (state w)) = true →
  microtasks w = [] →
  scaffoldFile (formData (state w)) = None →
  fragmentFile (formData (state w)) = None →
  nextController w ∉ aborted w →
  (∀ x, x ∈ suspended w → act_id x ≠ nextController w) →
  let a := nextController w in
  step Click w
  = {| state := set_abortController (Some a)
                  (set_isGenerating true (state w));
       element := updateButtonState (set_isGenerating true (state w))
                    (element w);
       effects := (effects w ++ [Emit "generation:start" NoPayload])
                  ++ [Fetch a a (buildRequestPayload (state w))];
       nextController := S a;
       suspended :=
         suspended w
         ++ [{| act_id := a;
                act_payload := buildRequestPayload (state w);
                act_stage := Racing |}];
       outstanding := outstanding w ++ [(a, a)];
       aborted := aborted w;
       microtasks := [] |}.
Proof.
  intros Hg Hv Hm Hsf Hff Hfresh Hids a.
  cbn [step]. unfold handleClick. rewrite Hg.
  unfold startGeneration. rewrite Hv. cbn [negb].
  cbn [set_suspended add_effect refreshButton set_element set_state
       set_isGenerating set_abortController
       state element effects nextController suspended outstanding aborted
       microtasks formData].
  rewrite Hsf. unfold prepareFragment.
  cbn [setStage set_suspended set_isGenerating set_abortController
       state element effects nextController suspended outstanding aborted
       microtasks formData].
  rewrite Hff. fold a.
  unfold drain, add_microtask, setStage, set_suspended.
  cbn [microtasks state element effects nextController suspended
       outstanding aborted].
  rewrite (map_stage_added a _ _ Preparing (suspended w) Preparing Hids).
  rewrite Hm. cbn [app fold_left react].
  erewrite isPreparing_added; [|reflexivity].
  unfold issueRequest, add_effect, setStage, set_suspended.
  cbn [state abortController aborted set_abortController effects element
       nextController suspended outstanding microtasks].
  rewrite bool_decide_false by done.
  rewrite (map_stage_added a _ _ Racing (suspended w) Preparing Hids).
  reflexivity.
Qed.

(** X16. A click on a valid form with no file issues exactly one
    request, in the same turn: 'generation:start' is emitted, then
    [fetch] is called with the payload that [buildRequestPayload] makes
    of the state at the click and with the signal of a fresh controller,
    which is stored; the controller is generating and the button reads
    Cancel. *)
Theorem valid_click_issues_one_request (w : World) :
  isGenerating (state w) = false →
  isValid (validateForm (state w)) = true →
  microtasks w = [] →
  scaffoldFile (formData (state w)) = None →
  fragmentFile (formData (state w)) = None →
  nextController w ∉ aborted w →
  (∀ x, x ∈ suspended w → act_id x ≠ nextController w) →
  let a := nextController w in
  let w' := step Click w in
  effects w'
  = effects w
    ++ [Emit "generation:start" NoPayload;
        Fetch a a (buildRequestPayload (state w))]
  ∧ outstanding w' = outstanding w ++ [(a, a)]
  ∧ suspended w'
    = suspended w
      ++ [{| act_id := a; act_payload := buildRequestPayload (state w);
             act_stage := Racing |}]
  ∧ isGenerating (state w') = true
  ∧ abortController (state w') = Some a
  ∧ nextController w' = S a
  ∧ textContent (element w') = "Cancel".
Proof.
  intros Hg Hv Hm Hsf Hff Hfresh Hids a w'. subst w'.
  rewrite (click_on_valid_form w Hg Hv Hm Hsf Hff Hfresh Hids). fold a.
  cbn [state element effects nextController suspended outstanding aborted].
  split. { by rewrite <- app_assoc. }
  split_and!; done.
Qed.


Lemma find_added a (l : list Activation) y :
  (∀ x, x ∈ l → act_id x ≠ a) → act_id y = a →
  List.find (fun x => Nat.eqb (act_id x) a) (l ++ [y]) = Some y.
Proof.
  intros Hl Hy. induction l as [|x l IH]; simpl.
  - by rewrite Hy, Nat.eqb_refl.
  - assert (Nat.eqb (act_id x) a = false) as ->.
    { apply Nat.eqb_neq. apply Hl. by left. }
    apply IH. intros z Hz. apply Hl. by right.
Qed.

(** X17. A scaffold file is read before the request goes out: the click
    emits 'generation:start' and sends nothing; when the reader has
    finished, [fetch] is called with the payload of the click, to which
    the text of the file is added, whatever the mode is.  A file that
    cannot be read is left out and the request is sent all the same. *)
Theorem scaffold_file_is_read_before_the_request (f : File) (w : World) :
  isGenerating (state w) = false →
  isValid (validateForm (state w)) = true →
  microtasks w = [] →
  scaffoldFile (formData (state w)) = Some f →
  fragmentFile (formData (state w)) = None →
  nextController w ∉ aborted w →
  (∀ x, x ∈ suspended w → act_id x ≠ nextController w) →
  let a := nextController w in
  let w1 := step Click w in
  let w2 := step (FileRead a) w1 in
  effects w1 = effects w ++ [Emit "generation:start" NoPayload]
  ∧ outstanding w1 = outstanding w
  ∧ effects w2
    = effects w1
      ++ [Fetch a a
            match fileText f with
            | Ok t => with_scaffold_text t (buildRequestPayload (state w))
            | Error _ => buildRequestPayload (state w)
            end]
  ∧ outstanding w2 = outstanding w ++ [(a, a)].
Proof.
  intros Hg Hv Hm Hsf Hff Hfresh Hids a w1 w2.
  assert (w1
          = {| state := set_abortController (Some a)
                          (set_isGenerating true (state w));
               element := updateButtonState (set_isGenerating true (state w))
                            (element w);
               effects := effects w ++ [Emit "generation:start" NoPayload];
               nextController := S a;
               suspended :=
                 suspended w
                 ++ [{| act_id := a;
                        act_payload := buildRequestPayload (state w);
                        act_stage := ReadingScaffold f |}];
               outstanding := outstanding w;
               aborted := aborted w;
               microtasks := [] |}) as E1.
  { subst w1. cbn [step]. unfold handleClick. rewrite Hg.
    unfold startGeneration. rewrite Hv. cbn [negb].
    cbn [set_suspended add_effect refreshButton set_element set_state
         set_isGenerating set_abortController
         state element effects nextController suspended outstanding aborted
         microtasks formData].
    rewrite Hsf. fold a.
    unfold drain, setStage, set_suspended.
    cbn [microtasks state element effects nextController suspended
         outstanding aborted].
    rewrite (map_stage_added a _ _ (ReadingScaffold f) (suspended w)
               Preparing Hids).
    rewrite Hm. reflexivity. }
  assert (w2
          = {| state := state w1;
               element := element w1;
               effects :=
                 effects w1
                 ++ [Fetch a a
                       match fileText f with
                       | Ok t => with_scaffold_text t
                                   (buildRequestPayload (state w))
                       | Error _ => buildRequestPayload (state w)
                       end];
               nextController := S a;
               suspended :=
                 suspended w
                 ++ [{| act_id := a;
                        act_payload :=
                          match fileText f with
                          | Ok t => with_scaffold_text t
                                      (buildRequestPayload (state w))
                          | Error _ => buildRequestPayload (state w)
                          end;
                        act_stage := Racing |}];
               outstanding := outstanding w ++ [(a, a)];
               aborted := aborted w;
               microtasks := [] |}) as E2.
  { subst w2. rewrite E1. cbn [step]. unfold fileRead, stageOf.
    cbn [suspended].
    erewrite find_added; [|exact Hids|reflexivity].
    cbn [act_stage act_payload].
    set (body := match fileText f with
                 | Ok t => with_scaffold_text t (buildRequestPayload (state w))
                 | Error _ => buildRequestPayload (state w)
                 end).
    unfold prepareFragment.
    cbn [state formData set_abortController set_isGenerating]. rewrite Hff.
    unfold drain, add_microtask, setStage, set_suspended.
    cbn [microtasks state element effects nextController suspended
         outstanding aborted].
    rewrite (map_stage_added a _ _ Preparing (suspended w)
               (ReadingScaffold f) Hids).
    cbn [app fold_left react].
    erewrite isPreparing_added; [|reflexivity].
    unfold issueRequest, add_effect, setStage, set_suspended.
    cbn [state abortController aborted set_abortController effects element
         nextController suspended outstanding microtasks].
    rewrite bool_decide_false by done.
    rewrite (map_stage_added a _ _ Racing (suspended w) Preparing Hids).
    reflexivity. }
  rewrite E2. cbn [effects outstanding]. rewrite E1.
  cbn [effects outstanding]. done.
Qed.

End GenerationControllerMoreFacts.

Section GenerationControllerWitnesses.
Import Js Form GenerationController.

Lemma button_always_reflects_state_witness :
  upToDate Sample.start
  ∧ textContent (element (run [ModeChanged "De Novo Generation"; Click]
                            Sample.start))
    = (if isGenerating (state (run [ModeChanged "De Novo Generation"; Click]
                                 Sample.start))
       then "Cancel" else "Generate").
Proof.
  assert (upToDate Sample.start) as H by (vm_compute; reflexivity).
  split; [exact H|].
  destruct (button_always_reflects_state
              [ModeChanged "De Novo Generation"; Click] Sample.start H)
    as (_ & Ht & _).
  exact Ht.
Defined.

Lemma response_ends_the_generation_witness :
  isRacing 0 Sample.generating = true
  ∧ 0 ∈ map fst (outstanding Sample.generating)
  ∧ effects (step (ResponseArrives 0 (ResponseOk Sample.response))
               Sample.generating)
    = effects Sample.generating
      ++ [Emit "generation:complete" (Results Sample.response)]
  ∧ isGenerating
      (state (step (ResponseArrives 0 (ResponseOk Sample.response))
                Sample.generating)) = false.
Proof.
  assert (isRacing 0 Sample.generating = true) as H1
    by (vm_compute; reflexivity).
  assert (0 ∈ map fst (outstanding Sample.generating)) as H2.
  { apply (bool_decide_unpack _). vm_compute. reflexivity. }
  split; [exact H1|]. split; [exact H2|].
  destruct (response_ends_the_generation 0 (ResponseOk Sample.response)
              Sample.generating H1 H2) as (He & Hg & _).
  split; [exact He|exact Hg].
Defined.

Lemma timeout_leaves_the_request_running_witness :
  isRacing 0 Sample.generating = true
  ∧ outstanding (step (TimeoutFires 0) Sample.generating)
    = outstanding Sample.generating
  ∧ aborted (step (TimeoutFires 0) Sample.generating)
    = aborted Sample.generating.
Proof.
  assert (isRacing 0 Sample.generating = true) as H1
    by (vm_compute; reflexivity).
  split; [exact H1|].
  destruct (timeout_leaves_the_request_running 0 Sample.generating H1)
    as (_ & _ & _ & Ho & Ha & _).
  split; [exact Ho|exact Ha].
Defined.

Lemma cancel_is_also_reported_as_error_witness :
  isGenerating (state Sample.generating) = true
  ∧ abortController (state Sample.generating) = Some 0
  ∧ microtasks Sample.generating = []
  ∧ List.filter (fun r => Nat.eqb (snd r) 0) (outstanding Sample.generating)
    = [(0, 0)]
  ∧ isRacing 0 Sample.generating = true
  ∧ effects (step Click Sample.generating)
    = effects Sample.generating
      ++ [Abort 0;
          Emit "generation:cancelled" NoPayload;
          Emit "generation:error" (Failure "Generation was cancelled");
          Emit "generation:error" (Failure "Generation was cancelled")].
Proof.
  assert (isGenerating (state Sample.generating) = true) as H1
    by (vm_compute; reflexivity).
  assert (abortController (state Sample.generating) = Some 0) as H2
    by (vm_compute; reflexivity).
  assert (microtasks Sample.generating = []) as H3
    by (vm_compute; reflexivity).
  assert (List.filter (fun r => Nat.eqb (snd r) 0)
            (outstanding Sample.generating) = [(0, 0)]) as H4
    by (vm_compute; reflexivity).
  assert (isRacing 0 Sample.generating = true) as H5
    by (vm_compute; reflexivity).
  split; [exact H1|]. split; [exact H2|]. split; [exact H3|].
  split; [exact H4|]. split; [exact H5|].
  destruct (cancel_is_also_reported_as_error 0 0 Sample.generating
              H1 H2 H3 H4 H5) as (He & _).
  exact He.
Defined.

Lemma valid_click_issues_one_request_witness :
  isGenerating (state Sample.ready) = false
  ∧ isValid (validateForm (state Sample.ready)) = true
  ∧ microtasks Sample.ready = []
  ∧ scaffoldFile (formData (state Sample.ready)) = None
  ∧ fragmentFile (formData (state Sample.ready)) = None
  ∧ (nextController Sample.ready ∉ aborted Sample.ready)
  ∧ (∀ x, x ∈ suspended Sample.ready → act_id x ≠ nextController Sample.ready)
  ∧ effects (step Click Sample.ready)
    = effects Sample.ready
      ++ [Emit "generation:start" NoPayload;
          Fetch (nextController Sample.ready) (nextController Sample.ready)
            (buildRequestPayload (state Sample.ready))].
Proof.
  assert (isGenerating (state Sample.ready) = false) as H1
    by (vm_compute; reflexivity).
  assert (isValid (validateForm (state Sample.ready)) = true) as H2
    by (vm_compute; reflexivity).
  assert (microtasks Sample.ready = []) as H3 by (vm_compute; reflexivity).
  assert (scaffoldFile (formData (state Sample.ready)) = None) as H4
    by (vm_compute; reflexivity).
  assert (fragmentFile (formData (state Sample.ready)) = None) as H5
    by (vm_compute; reflexivity).
  assert (nextController Sample.ready ∉ aborted Sample.ready) as H6.
  { apply (bool_decide_unpack _). vm_compute. reflexivity. }
  assert (∀ x, x ∈ suspended Sample.ready
               → act_id x ≠ nextController Sample.ready) as H7.
  { intros x Hx. vm_compute in Hx. by apply elem_of_nil in Hx. }
  split; [exact H1|]. split; [exact H2|]. split; [exact H3|].
  split; [exact H4|]. split; [exact H5|]. split; [exact H6|].
  split; [exact H7|].
  destruct (valid_click_issues_one_request Sample.ready
              H1 H2 H3 H4 H5 H6 H7) as (He & _).
  exact He.
Defined.

Lemma scaffold_file_is_read_before_the_request_witness :
  isGenerating (state Sample.withFile) = false
  ∧ isValid (validateForm (state Sample.withFile)) = true
  ∧ microtasks Sample.withFile = []
  ∧ scaffoldFile (formData (state Sample.withFile)) = Some Sample.scaffolds
  ∧ fragmentFile (formData (state Sample.withFile)) = None
  ∧ (nextController Sample.withFile ∉ aborted Sample.withFile)
  ∧ (∀ x, x ∈ suspended Sample.withFile
          → act_id x ≠ nextController Sample.withFile)
  ∧ fetches (effects (run [Click; FileRead (nextController Sample.withFile)]
                        Sample.withFile))
    = [Fetch (nextController Sample.withFile) (nextController Sample.withFile)
         (with_scaffold_text "c1ccccc1"
            (buildRequestPayload (state Sample.withFile)))].
Proof.
  assert (isGenerating (state Sample.withFile) = false) as H1
    by (vm_compute; reflexivity).
  assert (isValid (validateForm (state Sample.withFile)) = true) as H2
    by (vm_compute; reflexivity).
  assert (microtasks Sample.withFile = []) as H3 by (vm_compute; reflexivity).
  assert (scaffoldFile (formData (state Sample.withFile))
          = Some Sample.scaffolds) as H4
    by (vm_compute; reflexivity).
  assert (fragmentFile (formData (state Sample.withFile)) = None) as H5
    by (vm_compute; reflexivity).
  assert (nextController Sample.withFile ∉ aborted Sample.withFile) as H6.
  { apply (bool_decide_unpack _). vm_compute. reflexivity. }
  assert (∀ x, x ∈ suspended Sample.withFile
               → act_id x ≠ nextController Sample.withFile) as H7.
  { intros x Hx. vm_compute in Hx. by apply elem_of_nil in Hx. }
  split; [exact H1|]. split; [exact H2|]. split; [exact H3|].
  split; [exact H4|]. split; [exact H5|]. split; [exact H6|].
  split; [exact H7|].
  destruct (scaffold_file_is_read_before_the_request Sample.scaffolds
              Sample.withFile H1 H2 H3 H4 H5 H6 H7) as (He1 & _ & He2 & _).
  change (run [Click; FileRead (nextController Sample.withFile)]
            Sample.withFile)
    with (step (FileRead (nextController Sample.withFile))
            (step Click Sample.withFile)).
  rewrite He2, He1. vm_compute. reflexivity.
Defined.

End GenerationControllerWitnesses.

(** ** The results panel: escaping, and the download link *)

Section ResultsDisplayMoreFacts.
Import Form ResultsDisplay.

Lemma append_assoc (s t u : string) : (s +:+ t) +:+ u = s +:+ (t +:+ u).
Proof.
  induction s as [|a s IH]; [done|]. rewrite !app_cons. by rewrite IH.
Qed.

Lemma replaceAll_app c by_ s t :
  replaceAll c by_ (s +:+ t) = replaceAll c by_ s +:+ replaceAll c by_ t.
Proof.
  induction s as [|a s IH]; [done|].
  rewrite app_cons. simpl. destruct (Ascii.eqb a c).
  - rewrite IH. by rewrite append_assoc.
  - by rewrite IH.
Qed.

Lemma escapeHtml_app s t : escapeHtml (s +:+ t) = escapeHtml s +:+ escapeHtml t.
Proof. unfold escapeHtml. by rewrite !replaceAll_app. Qed.

Lemma escapeHtml_char c : escapeHtml (String c "") = escapeChar c.
Proof.
  unfold escapeHtml, escapeChar.
  destruct c as [[] [] [] [] [] [] [] []]; reflexivity.
Qed.

(** X18. The five replacements of [escapeHtml], made one after the other
    on the whole text, amount to one pass that replaces each character by
    its entity: the ampersand is replaced first, so the ampersands that
    the later replacements introduce are not escaped again. *)
Theorem escapeHtml_is_one_pass (unsafe : string) :
  escapeHtml unsafe = escapeEach unsafe.
Proof.
  induction unsafe as [|c r IH]; [done|].
  change (String c r) with (String c "" +:+ r).
  rewrite escapeHtml_app, escapeHtml_char, IH. done.
Qed.

Lemma escapeChar_cases c :
  (c = ascii_of_nat 38 ∧ escapeChar c = "&amp;")
  ∨ (c = ascii_of_nat 60 ∧ escapeChar c = "&lt;")
  ∨ (c = ascii_of_nat 62 ∧ escapeChar c = "&gt;")
  ∨ (c = ascii_of_nat 34 ∧ escapeChar c = "&quot;")
  ∨ (c = ascii_of_nat 39 ∧ escapeChar c = "&#039;")
  ∨ (c ≠ ascii_of_nat 38 ∧ escapeChar c = String c "").
Proof.
  unfold escapeChar.
  destruct (Ascii.eqb c (ascii_of_nat 38)) eqn:E1.
  { apply Ascii.eqb_eq in E1. by left. }
  apply Ascii.eqb_neq in E1. right.
  destruct (Ascii.eqb c (ascii_of_nat 60)) eqn:E2.
  { apply Ascii.eqb_eq in E2. by left. }
  right.
  destruct (Ascii.eqb c (ascii_of_nat 62)) eqn:E3.
  { apply Ascii.eqb_eq in E3. by left. }
  right.
  destruct (Ascii.eqb c (ascii_of_nat 34)) eqn:E4.
  { apply Ascii.eqb_eq in E4. by left. }
  right.
  destruct (Ascii.eqb c (ascii_of_nat 39)) eqn:E5.
  { apply Ascii.eqb_eq in E5. by left. }
  by right.
Qed.

Lemma escapeEach_inj s1 : ∀ s2, escapeEach s1 = escapeEach s2 → s1 = s2.
Proof.
  induction s1 as [|a r IH]; intros [|b t]; simpl.
  - done.
  - destruct (escapeChar_cases b) as [[_ ->]|[[_ ->]|[[_ ->]|[[_ ->]|[[_ ->]|[_ ->]]]]]];
      discriminate.
  - destruct (escapeChar_cases a) as [[_ ->]|[[_ ->]|[[_ ->]|[[_ ->]|[[_ ->]|[_ ->]]]]]];
      discriminate.
  - destruct (escapeChar_cases a) as [[-> ->]|[[-> ->]|[[-> ->]|[[-> ->]|[[-> ->]|[Ha ->]]]]]];
    destruct (escapeChar_cases b) as [[-> ->]|[[-> ->]|[[-> ->]|[[-> ->]|[[-> ->]|[Hb ->]]]]]];
      rewrite ?app_cons; intros H; simplify_eq;
      try (f_equal; apply IH; assumption);
      try done.
Qed.

(** X19. Escaping loses nothing: two texts with the same escaped form are
    the same text. *)
Theorem escapeHtml_is_injective (s1 s2 : string) :
  escapeHtml s1 = escapeHtml s2 → s1 = s2.
Proof.
  assert (∀ s, escapeHtml s = escapeEach s) as Hs.
  { induction s as [|c u IHs]; [done|].
    change (String c u) with (String c "" +:+ u) at 1.
    rewrite escapeHtml_app, escapeHtml_char, IHs. done. }
  rewrite !Hs. apply escapeEach_inj.
Qed.


Lemma infix_app_r (s t sub : string) :
  (∃ pre post, t = pre +:+ sub +:+ post) →
  ∃ pre post, s +:+ t = pre +:+ sub +:+ post.
Proof.
  intros (pre & post & ->). exists (s +:+ pre), post.
  by rewrite append_assoc.
Qed.

Lemma infix_app_l (s t sub : string) :
  (∃ pre post, s = pre +:+ sub +:+ post) →
  ∃ pre post, s +:+ t = pre +:+ sub +:+ post.
Proof.
  intros (pre & post & ->). exists pre, (post +:+ t).
  by rewrite !append_assoc.
Qed.

Lemma append_nonempty (s t : string) : s ≠ "" → s +:+ t ≠ "".
Proof. by destruct s. Qed.

(** The link that the time stamp carries when a CSV file is given. *)
Lemma createGenerationTimestamp_link st timestamp u :
  lastGeneration st = Some timestamp → u ≠ "" →
  ∃ pre post,
    createGenerationTimestamp st (Some u)
    = pre
      +:+ ("<a href="
           +:+ q (if Js.startsWith u "/" then API_BASE +:+ u else u)
           +:+ " download")
      +:+ post.
Proof.
  intros Hl Hu. unfold createGenerationTimestamp. rewrite Hl.
  rewrite (bool_decide_false (u = "")) by done.
  set (full := if Js.startsWith u "/" then API_BASE +:+ u else u).
  assert (full ≠ "") as Hf.
  { subst full. destruct (Js.startsWith u "/"); [|done].
    by apply append_nonempty. }
  rewrite (bool_decide_false (full = "")) by done.
  generalize (q full). intros Q. clear.
  do 15 apply infix_app_r. apply infix_app_l.
  apply infix_app_r.
  exists "            ". eexists.
  change ("            <a href=") with ("            " +:+ "<a href=").
  change (" download class=") with (" download" +:+ " class=").
  rewrite !append_assoc. reflexivity.
Qed.



End ResultsDisplayMoreFacts.

Section ResultsDisplayWitnesses.
Import Form ResultsDisplay.

Lemma escapeHtml_is_injective_witness :
  escapeHtml "a<b" = escapeHtml "a<b" ∧ "a<b" = "a<b".
Proof.
  split; [reflexivity|].
  apply (escapeHtml_is_injective "a<b" "a<b"). reflexivity.
Defined.


End ResultsDisplayWitnesses.

(** ** The mode manager: field marks, repeated announcements, visible
       forms *)

Section ModeManagerMoreFacts.
Import Dom.

Lemma validateInputWith_marks class input v :
  let cl := classList (validateInputWith class input v) in
  ¬ ("input-group__input--valid" ∈ cl ∧ "input-group__input--invalid" ∈ cl)
  ∧ (v ≠ "" →
     "input-group__input--valid" ∈ cl ∨ "input-group__input--invalid" ∈ cl)
  ∧ (v = "" →
     ("input-group__input--valid" ∉ cl)
     ∧ ("input-group__input--invalid" ∉ cl))
  ∧ (∀ x, x ≠ "input-group__input--valid" →
          x ≠ "input-group__input--invalid" →
          (x ∈ cl ↔ x ∈ classList input)).
Proof.
  unfold validateInputWith. cbn [classList].
  set (ok := match dataInput input with
             | Some inputType =>
                 if Js.includes inputType "smiles"
                 then Nat.ltb 0 (String.length v) && matchesClass class v
                 else true
             | None => true
             end).
  destruct v as [|a v]; cbn [String.length Nat.ltb Nat.leb].
  - rewrite !elem_of_classList_remove.
    split; [tauto|]. split; [done|]. split; [tauto|].
    intros x H1 H2. rewrite !elem_of_classList_remove. tauto.
  - destruct ok; rewrite !elem_of_classList_add, !elem_of_classList_remove.
    + split; [intros [_ [?|[? _]]]; done|].
      split; [auto|]. split; [done|].
      intros x H1 H2.
      rewrite !elem_of_classList_add, !elem_of_classList_remove. tauto.
    + split; [intros [[?|[_ [? _]]] _]; done|].
      split; [auto|]. split; [done|].
      intros x H1 H2.
      rewrite !elem_of_classList_add, !elem_of_classList_remove. tauto.
Qed.

(** X21. [validateInput] leaves a field with at most one of the two
    marks, whatever classes it carried before: a non-empty value is
    marked valid or invalid, an empty one gets neither mark, and the
    other classes of the field are untouched.  This holds for both copies
    of the mode manager. *)
Theorem validateInput_marks_the_field_once input v :
  let marks cl :=
    ¬ ("input-group__input--valid" ∈ cl ∧ "input-group__input--invalid" ∈ cl)
    ∧ (v ≠ "" →
       "input-group__input--valid" ∈ cl ∨ "input-group__input--invalid" ∈ cl)
    ∧ (v = "" →
       ("input-group__input--valid" ∉ cl)
       ∧ ("input-group__input--invalid" ∉ cl))
    ∧ (∀ x, x ≠ "input-group__input--valid" →
            x ≠ "input-group__input--invalid" →
            (x ∈ cl ↔ x ∈ classList input)) in
  marks (classList (ModeManager.validateInput input v))
  ∧ marks (classList (ModeManagerTransformation.validateInput input v)).
Proof.
  intros marks. subst marks. cbv beta.
  split.
  - apply (validateInputWith_marks smilesChar input v).
  - apply (validateInputWith_marks smilesCharOrStar input v).
Qed.

End ModeManagerMoreFacts.

Section ModeFormsFacts.
Import Dom ModeManagerTransformation.

Lemma handleModeChange_currentMode newMode c :
  currentMode (state (handleModeChange newMode c)) = modeOf newMode.
Proof. unfold handleModeChange. by case_bool_decide. Qed.

Lemma updateModeContent_without_form mode v :
  modeConfigs mode = Some {| hasForm := false; formType := None |} →
  updateModeContent mode v
  = {| present := present v; active := []; timers := timers v |}.
Proof. intros E. unfold updateModeContent. by rewrite E. Qed.

Lemma updateModeContent_with_form mode ft v :
  modeConfigs mode = Some {| hasForm := true; formType := Some ft |} →
  ft ≠ "" → getFormModeKey ft = mode →
  updateModeContent mode v
  = {| present := present v; active := [];
       timers := timers v ++ (if bool_decide (mode ∈ present v)
                              then [mode] else []) |}.
Proof.
  intros E Hft Hk. unfold updateModeContent. rewrite E.
  unfold updateFormVisibility. cbn [formType hasForm andb].
  rewrite (bool_decide_false (ft = "")) by done. cbn [negb]. rewrite Hk.
  case_bool_decide; [done|]. by rewrite app_nil_r.
Qed.

(** The modes that have a form. *)
Lemma modeConfigs_cases mode :
  modeConfigs mode ≠ None →
  (mode ∈ ["Select Mode"; "De Novo Generation"; "Peptide Design"]
   ∧ modeConfigs mode = Some {| hasForm := false; formType := None |})
  ∨ (mode ∈ ["Scaffold Decoration"; "Fragment Linking";
             "Molecular Transformation"]
     ∧ ∃ ft, modeConfigs mode = Some {| hasForm := true; formType := Some ft |}
             ∧ ft ≠ "" ∧ getFormModeKey ft = mode).
Proof.
  unfold modeConfigs.
  destruct (decide (mode = "Select Mode")) as [->|N1].
  { intros _. left. split; [repeat constructor|reflexivity]. }
  rewrite (bool_decide_false _ N1).
  destruct (decide (mode = "De Novo Generation")) as [->|N2].
  { intros _. left. split; [repeat constructor|reflexivity]. }
  rewrite (bool_decide_false _ N2).
  destruct (decide (mode = "Scaffold Decoration")) as [->|N3].
  { intros _. right. split; [repeat constructor|].
    exists "scaffold". by repeat split. }
  rewrite (bool_decide_false _ N3).
  destruct (decide (mode = "Fragment Linking")) as [->|N4].
  { intros _. right. split; [repeat constructor|].
    exists "fragment". by repeat split. }
  rewrite (bool_decide_false _ N4).
  destruct (decide (mode = "Molecular Transformation")) as [->|N5].
  { intros _. right. split; [repeat constructor|].
    exists "transformation". by repeat split. }
  rewrite (bool_decide_false _ N5).
  destruct (decide (mode = "Peptide Design")) as [->|N6].
  { intros _. left. split; [repeat constructor|reflexivity]. }
  rewrite (bool_decide_false _ N6). done.
Qed.

Lemma elem_of_three (a b c x : string) :
  x ∈ [a; b; c] ↔ x = a ∨ x = b ∨ x = c.
Proof. rewrite !elem_of_cons, elem_of_nil. tauto. Qed.

Lemma elem_of_classList_add_nil key x :
  x ∈ classList_add key [] ↔ x = key.
Proof.
  rewrite elem_of_classList_add. split; [|by left].
  intros [?|H]; [done|]. by apply elem_of_nil in H.
Qed.

(** X22. Once the timer of a mode change has fired, the page shows the
    form of the current mode and no other: when no timer was pending
    before the change, the forms are all hidden by the change, and after
    the timer the active forms are exactly the form named after the new
    mode, if the mode is one of the three that have a form and the page
    has it. *)
Theorem form_of_the_mode_is_shown (newMode : ModeArg) (m : Manager) :
  timers (forms m) = [] →
  modeOf newMode ≠ currentMode (state (component m)) →
  modeConfigs (modeOf newMode) ≠ None →
  let m1 := formStep m (ModeAnnounced newMode) in
  let m2 := formStep m1 TimerFired in
  currentMode (state (component m2)) = modeOf newMode
  ∧ active (forms m1) = []
  ∧ timers (forms m2) = []
  ∧ ∀ key, key ∈ active (forms m2)
           ↔ key = modeOf newMode
             ∧ key ∈ present (forms m)
             ∧ key ∈ ["Scaffold Decoration"; "Fragment Linking";
                      "Molecular Transformation"].
Proof.
  intros Ht Hne Hk m1 m2.
  assert (m1 = {| component := handleModeChange newMode (component m);
                  forms := updateModeContent (modeOf newMode) (forms m) |})
    as E1.
  { subst m1. cbn [formStep]. unfold handleModeChangeWithForms.
    by rewrite bool_decide_false. }
  subst m2. rewrite E1. cbn [formStep component forms].
  split; [apply handleModeChange_currentMode|].
  destruct (modeConfigs_cases _ Hk) as [[Hin E]|[Hin (ft & E & Hft & Hkey)]].
  - rewrite (updateModeContent_without_form _ _ E), Ht.
    split; [done|]. split; [done|].
    intros key. cbn [timerFires timers active]. split.
    + intros H. by apply elem_of_nil in H.
    + intros (-> & _ & H). exfalso.
      apply elem_of_three in Hin as [Hin|[Hin|Hin]];
        apply elem_of_three in H as [H|[H|H]]; congruence.
  - rewrite (updateModeContent_with_form _ _ _ E Hft Hkey), Ht.
    split; [done|]. cbn [app].
    case_bool_decide as Hp; cbn [timerFires timers active present].
    + split; [done|]. intros key. rewrite elem_of_classList_add_nil.
      split; [by intros ->|by intros (-> & _)].
    + split; [done|]. intros key. split.
      * intros H. by apply elem_of_nil in H.
      * intros (-> & ? & _). done.
Qed.

(** X23. Two changes of mode made before the timer of the first has
    fired leave two forms on the page: each change hides every form and
    sets a timer for its own form, and the timers then show both, while
    the current mode is the second one. *)
Theorem quick_mode_changes_show_two_forms (mode1 mode2 : string) (m : Manager) :
  timers (forms m) = [] →
  mode1 ≠ currentMode (state (component m)) →
  mode1 ≠ mode2 →
  mode1 ∈ ["Scaffold Decoration"; "Fragment Linking";
           "Molecular Transformation"] →
  mode2 ∈ ["Scaffold Decoration"; "Fragment Linking";
           "Molecular Transformation"] →
  mode1 ∈ present (forms m) →
  mode2 ∈ present (forms m) →
  let m' :=
    fold_left formStep
      [ModeAnnounced (ModeString mode1); ModeAnnounced (ModeString mode2);
       TimerFired; TimerFired] m in
  currentMode (state (component m')) = mode2
  ∧ active (forms m') = [mode1; mode2]
  ∧ timers (forms m') = [].
Proof.
  intros Ht Hne H12 Hm1 Hm2 Hp1 Hp2 m'.
  assert (∀ mode, mode ∈ ["Scaffold Decoration"; "Fragment Linking";
                          "Molecular Transformation"] →
          ∃ ft, modeConfigs mode
                = Some {| hasForm := true; formType := Some ft |}
                ∧ ft ≠ "" ∧ getFormModeKey ft = mode) as Hcfg.
  { intros mode H.
    assert (modeConfigs mode ≠ None) as Hk.
    { apply elem_of_three in H as [H|[H|H]]; by rewrite H. }
    destruct (modeConfigs_cases _ Hk) as [[Hin E]|[_ ?]]; [|done].
    exfalso.
    apply elem_of_three in Hin as [Hin|[Hin|Hin]];
      apply elem_of_three in H as [H|[H|H]]; congruence. }
  destruct (Hcfg mode1 Hm1) as (ft1 & E1 & Hft1 & Hk1).
  destruct (Hcfg mode2 Hm2) as (ft2 & E2 & Hft2 & Hk2).
  set (c1 := handleModeChange (ModeString mode1) (component m)).
  assert (formStep m (ModeAnnounced (ModeString mode1))
          = {| component := c1;
               forms := {| present := present (forms m); active := [];
                           timers := [mode1] |} |}) as S1.
  { cbn [formStep]. unfold handleModeChangeWithForms. cbn [modeOf].
    rewrite (bool_decide_false _ Hne).
    rewrite (updateModeContent_with_form _ _ _ E1 Hft1 Hk1), Ht.
    by rewrite (bool_decide_true _ Hp1). }
  assert (formStep {| component := c1;
                      forms := {| present := present (forms m); active := [];
                                  timers := [mode1] |} |}
            (ModeAnnounced (ModeString mode2))
          = {| component := handleModeChange (ModeString mode2) c1;
               forms := {| present := present (forms m); active := [];
                           timers := [mode1; mode2] |} |}) as S2.
  { cbn [formStep]. unfold handleModeChangeWithForms.
    cbn [modeOf component forms]. subst c1.
    rewrite handleModeChange_currentMode. cbn [modeOf].
    rewrite (bool_decide_false (mode2 = mode1)) by done.
    rewrite (updateModeContent_with_form _ _ _ E2 Hft2 Hk2).
    cbn [present timers].
    by rewrite (bool_decide_true _ Hp2). }
  subst m'. cbn [fold_left]. rewrite S1, S2.
  cbn [formStep component forms timerFires timers active present].
  split; [apply handleModeChange_currentMode|]. split; [|done].
  unfold classList_add.
  rewrite (bool_decide_false (mode1 ∈ []))
    by (intros H; by apply elem_of_nil in H).
  cbn [app].
  rewrite (bool_decide_false (mode2 ∈ [mode1])); [done|].
  intros H. apply list_elem_of_singleton in H. done.
Qed.

End ModeFormsFacts.

Section ModeFormsWitnesses.
Import Dom ModeManagerTransformation.

Lemma form_of_the_mode_is_shown_witness :
  timers (forms Sample.page) = []
  ∧ modeOf (ModeString "Fragment Linking")
    ≠ currentMode (state (component Sample.page))
  ∧ modeConfigs (modeOf (ModeString "Fragment Linking")) ≠ None
  ∧ "Fragment Linking"
    ∈ active (forms (formStep
                       (formStep Sample.page
                          (ModeAnnounced (ModeString "Fragment Linking")))
                       TimerFired)).
Proof.
  assert (timers (forms Sample.page) = []) as H1 by reflexivity.
  assert (modeOf (ModeString "Fragment Linking")
          ≠ currentMode (state (component Sample.page))) as H2
    by discriminate.
  assert (modeConfigs (modeOf (ModeString "Fragment Linking")) ≠ None) as H3
    by discriminate.
  split; [exact H1|]. split; [exact H2|]. split; [exact H3|].
  destruct (form_of_the_mode_is_shown (ModeString "Fragment Linking")
              Sample.page H1 H2 H3) as (_ & _ & _ & Ha).
  apply Ha. split; [reflexivity|]. split; right; left.
Defined.

Lemma quick_mode_changes_show_two_forms_witness :
  timers (forms Sample.page) = []
  ∧ "Scaffold Decoration" ≠ currentMode (state (component Sample.page))
  ∧ "Scaffold Decoration" ≠ "Fragment Linking"
  ∧ active (forms
              (fold_left formStep
                 [ModeAnnounced (ModeString "Scaffold Decoration");
                  ModeAnnounced (ModeString "Fragment Linking");
                  TimerFired; TimerFired] Sample.page))
    = ["Scaffold Decoration"; "Fragment Linking"].
Proof.
  assert (timers (forms Sample.page) = []) as H1 by reflexivity.
  assert ("Scaffold Decoration" ≠ currentMode (state (component Sample.page)))
    as H2 by discriminate.
  assert ("Scaffold Decoration" ≠ "Fragment Linking") as H3 by discriminate.
  assert ("Scaffold Decoration"
          ∈ ["Scaffold Decoration"; "Fragment Linking";
             "Molecular Transformation"]) as H4 by (left).
  assert ("Fragment Linking"
          ∈ ["Scaffold Decoration"; "Fragment Linking";
             "Molecular Transformation"]) as H5 by (right; left).
  split; [exact H1|]. split; [exact H2|]. split; [exact H3|].
  destruct (quick_mode_changes_show_two_forms "Scaffold Decoration"
              "Fragment Linking" Sample.page H1 H2 H3 H4 H5 H4 H5)
    as (_ & Ha & _).
  exact Ha.
Defined.

End ModeFormsWitnesses.

(** ** The UI state manager *)

Section UIStateManagerFacts.
Import UIStateManager.

Lemma elem_of_toggleUIClass x className condition classes :
  x ∈ toggleUIClass className condition classes
  ↔ (x = className ∧ condition = true) ∨ (x ≠ className ∧ x ∈ classes).
Proof.
  unfold toggleUIClass. destruct condition.
  - rewrite elem_of_classList_add.
    destruct (decide (x = className)); intuition congruence.
  - rewrite elem_of_classList_remove. intuition congruence.
Qed.

Lemma length_append (s t : string) :
  String.length (s +:+ t) = String.length s + String.length t.
Proof. induction s as [|a s IH]; [done|]. rewrite app_cons. simpl. by rewrite IH. Qed.

(** The classes of the body after [applyStateToUI]. *)
Lemma applyStateToUI_classes st p :
  ("ui-state--loading" ∈ bodyClasses (applyStateToUI st p)
   ↔ loading st = true)
  ∧ ("ui-state--error" ∈ bodyClasses (applyStateToUI st p)
     ↔ hasError st = true)
  ∧ ("form-invalid" ∈ bodyClasses (applyStateToUI st p)
     ↔ formValid st = false)
  ∧ (∀ x, x ∉ ["ui-state--loading"; "ui-state--error"; "form-invalid"] →
          (x ∈ bodyClasses (applyStateToUI st p) ↔ x ∈ bodyClasses p)).
Proof.
  unfold applyStateToUI. cbn [bodyClasses].
  split_and!.
  - rewrite !elem_of_toggleUIClass. split.
    + intros [[? _]|[_ [[? _]|[_ [[_ ?]|[? _]]]]]]; done.
    + intros H. right. split; [done|]. right. split; [done|]. by left.
  - rewrite !elem_of_toggleUIClass. split.
    + intros [[? _]|[_ [[_ ?]|[? _]]]]; done.
    + intros H. right. split; [done|]. by left.
  - rewrite !elem_of_toggleUIClass. rewrite negb_true_iff. split.
    + intros [[_ ?]|[? _]]; done.
    + intros H. by left.
  - intros x Hx. rewrite !elem_of_toggleUIClass.
    assert (x ≠ "ui-state--loading" ∧ x ≠ "ui-state--error"
            ∧ x ≠ "form-invalid") as (H1 & H2 & H3).
    { rewrite !not_elem_of_cons in Hx. tauto. }
    intuition congruence.
Qed.

Lemma updatePageTitle_base st :
  updatePageTitle st = baseTitle
  ↔ loading st = false ∧ hasError st = false ∧ mode st = "Select Mode".
Proof.
  unfold updatePageTitle.
  destruct (loading st).
  { split; [discriminate|]. by intros [? _]. }
  destruct (hasError st).
  { split; [discriminate|]. by intros (_ & ? & _). }
  case_bool_decide as Hm; cbn [negb].
  - done.
  - split; [|by intros (_ & _ & ?)].
    intros H. apply (f_equal String.length) in H.
    rewrite !length_append in H. simpl in H. lia.
Qed.

(** X24. After every [updateState] the page shows the state, whatever it
    showed before: the body carries the class 'ui-state--loading' exactly
    when loading, 'ui-state--error' exactly when there is a non-empty
    error message, 'form-invalid' exactly when the form is not valid, and
    its other classes are untouched; [aria-busy] repeats the loading
    flag; the announcement of form errors exists exactly when there are
    errors; and the title is the plain one exactly when the manager is
    idle, without error and without a mode. *)
Theorem page_reflects_the_state (updates : Updates) (m : Manager) :
  let m' := updateState updates m in
  let st := state m' in
  ("ui-state--loading" ∈ bodyClasses (page m') ↔ loading st = true)
  ∧ ("ui-state--error" ∈ bodyClasses (page m') ↔ hasError st = true)
  ∧ ("form-invalid" ∈ bodyClasses (page m') ↔ formValid st = false)
  ∧ (∀ x, x ∉ ["ui-state--loading"; "ui-state--error"; "form-invalid"] →
          (x ∈ bodyClasses (page m') ↔ x ∈ bodyClasses (page m)))
  ∧ appAriaBusy (page m') = Some (if loading st then "true" else "false")
  ∧ (announcement (page m') = None ↔ formErrors st = [])
  ∧ (title (page m') = baseTitle
     ↔ loading st = false ∧ hasError st = false ∧ mode st = "Select Mode").
Proof.
  intros m' st. subst m' st. unfold updateState. cbn [state page].
  set (st := merge (state m) updates).
  destruct (applyStateToUI_classes st (page m)) as (H1 & H2 & H3 & H4).
  split; [exact H1|]. split; [exact H2|]. split; [exact H3|].
  split; [exact H4|]. split; [done|].
  split.
  - unfold applyStateToUI. cbn [announcement].
    destruct (formErrors st); simpl; split; done.
  - apply updatePageTitle_base.
Qed.

Lemma perform_state m c :
  ∃ updates, perform m c = updateState updates m
             ∧ (loading (state (perform m c)) = true
                → hasError (state (perform m c)) = true
                → loading (state m) = true ∧ hasError (state m) = true).
Proof.
  destruct c; eexists; (split; [reflexivity|]);
    unfold hasError; simpl; try done.
  all: intros H1 H2; by split.
Qed.

(** X25. Loading and error exclude each other through the methods of the
    manager: [showLoading] clears the error and [showError] ends the
    loading, so after any calls of [showLoading], [hideLoading],
    [showError], [clearError], [setFormValidation] and [reset] the manager
    is not loading with an error, and the body does not carry both
    classes. *)
Theorem loading_and_error_exclude_each_other (calls : list Call) (m : Manager) :
  ¬ (loading (state m) = true ∧ hasError (state m) = true) →
  ¬ ("ui-state--loading" ∈ bodyClasses (page m)
     ∧ "ui-state--error" ∈ bodyClasses (page m)) →
  let m' := fold_left perform calls m in
  ¬ (loading (state m') = true ∧ hasError (state m') = true)
  ∧ ¬ ("ui-state--loading" ∈ bodyClasses (page m')
       ∧ "ui-state--error" ∈ bodyClasses (page m')).
Proof.
  revert m. induction calls as [|c calls IH]; intros m Hs Hp; [done|].
  cbn [fold_left]. apply IH.
  - destruct (perform_state m c) as (u & _ & H). intros [H1 H2]. auto.
  - destruct (perform_state m c) as (u & E & H). intros [H1 H2].
    rewrite E in H1, H2. unfold updateState in H1, H2. cbn [page] in H1, H2.
    destruct (applyStateToUI_classes (merge (state m) u) (page m))
      as (C1 & C2 & _).
    apply C1 in H1. apply C2 in H2.
    apply Hs. apply H; rewrite E; unfold updateState; cbn [state]; done.
Qed.

End UIStateManagerFacts.

Section UIStateManagerWitnesses.
Import UIStateManager.

Lemma loading_and_error_exclude_each_other_witness :
  ¬ (loading (state Sample.manager) = true
     ∧ hasError (state Sample.manager) = true)
  ∧ ¬ ("ui-state--loading" ∈ bodyClasses (page Sample.manager)
       ∧ "ui-state--error" ∈ bodyClasses (page Sample.manager))
  ∧ ¬ (loading (state (fold_left perform [ShowLoading; ShowError "timeout"]
                         Sample.manager)) = true
       ∧ hasError (state (fold_left perform
                            [ShowLoading; ShowError "timeout"]
                            Sample.manager)) = true).
Proof.
  assert (¬ (loading (state Sample.manager) = true
             ∧ hasError (state Sample.manager) = true)) as H1.
  { intros [H _]. discriminate H. }
  assert (¬ ("ui-state--loading" ∈ bodyClasses (page Sample.manager)
             ∧ "ui-state--error" ∈ bodyClasses (page Sample.manager))) as H2.
  { intros [H _]. by apply elem_of_nil in H. }
  split; [exact H1|]. split; [exact H2|].
  destruct (loading_and_error_exclude_each_other
              [ShowLoading; ShowError "timeout"] Sample.manager H1 H2)
    as [H _].
  exact H.
Defined.

End UIStateManagerWitnesses.

(** ** The mode selector *)

Section ModeSelectorFacts.
Import ModeSelector.

Lemma set_focus_same i c :
  focus (view c) = OnOption i → set_focus (OnOption i) c = c.
Proof.
  destruct c as [st [te me cl ct os f] em]. simpl. by intros ->.
Qed.

Lemma focusOption_set j c :
  (0 <= j < Z.of_nat (length (options (view c))))%Z →
  focusOption j c = set_focus (OnOption j) c.
Proof.
  intros [H1 H2]. unfold focusOption.
  assert ((0 <=? j)%Z = true) as -> by lia.
  assert ((j <? Z.of_nat (length (options (view c))))%Z = true) as -> by lia.
  done.
Qed.

Lemma rem_wrap (a n k : Z) :
  (0 <= a < n)%Z → (0 <= k)%Z → Z.rem (a + k * n) n = a.
Proof.
  intros Ha Hk. rewrite Z.rem_mod_nonneg by nia.
  rewrite Z.mod_add by lia. apply Z.mod_small. lia.
Qed.

Lemma navigate_down i c :
  focus (view c) = OnOption i →
  (0 <= i < Z.of_nat (length (options (view c))))%Z →
  navigateOptions 1 c
  = set_focus
      (OnOption (if (i + 1 =? Z.of_nat (length (options (view c))))%Z
                 then 0 else i + 1)%Z) c.
Proof.
  intros Hf Hi. unfold navigateOptions. rewrite Hf.
  set (n := Z.of_nat (length (options (view c)))) in *.
  assert ((i =? -1)%Z = false) as -> by lia.
  destruct (i + 1 =? n)%Z eqn:E.
  - apply Z.eqb_eq in E.
    replace (i + 1 + n)%Z with (0 + 2 * n)%Z by lia.
    rewrite rem_wrap by lia. apply focusOption_set. fold n. lia.
  - apply Z.eqb_neq in E.
    replace (i + 1 + n)%Z with ((i + 1) + 1 * n)%Z by lia.
    rewrite rem_wrap by lia. apply focusOption_set. fold n. lia.
Qed.

Lemma navigate_up i c :
  focus (view c) = OnOption i →
  (0 <= i < Z.of_nat (length (options (view c))))%Z →
  navigateOptions (-1) c
  = set_focus
      (OnOption (if (i =? 0)%Z
                 then Z.of_nat (length (options (view c))) - 1
                 else i - 1)%Z) c.
Proof.
  intros Hf Hi. unfold navigateOptions. rewrite Hf.
  set (n := Z.of_nat (length (options (view c)))) in *.
  assert ((i =? -1)%Z = false) as -> by lia.
  destruct (i =? 0)%Z eqn:E.
  - apply Z.eqb_eq in E. subst i.
    replace (0 + -1 + n)%Z with ((n - 1) + 0 * n)%Z by lia.
    rewrite rem_wrap by lia. apply focusOption_set. fold n. lia.
  - apply Z.eqb_neq in E.
    replace (i + -1 + n)%Z with ((i - 1) + 1 * n)%Z by lia.
    rewrite rem_wrap by lia. apply focusOption_set. fold n. lia.
Qed.

Lemma set_focus_twice f g c : set_focus f (set_focus g c) = set_focus f c.
Proof. done. Qed.

(** X26. The arrow keys walk through the options in a cycle.  With the
    focus on option [i], [navigateOptions(1)] moves it to the next option
    and from the last one to the first, [navigateOptions(-1)] moves it to
    the previous option and from the first one to the last; each undoes
    the other, and nothing else changes. *)
Theorem arrow_keys_cycle_through_the_options (i : Z) (c : Component) :
  focus (view c) = OnOption i →
  (0 <= i < Z.of_nat (length (options (view c))))%Z →
  let n := Z.of_nat (length (options (view c))) in
  navigateOptions 1 c
  = set_focus (OnOption (if (i + 1 =? n)%Z then 0 else i + 1)%Z) c
  ∧ navigateOptions (-1) c
    = set_focus (OnOption (if (i =? 0)%Z then n - 1 else i - 1)%Z) c
  ∧ navigateOptions (-1) (navigateOptions 1 c) = c
  ∧ navigateOptions 1 (navigateOptions (-1) c) = c.
Proof.
  intros Hf Hi n.
  pose proof (navigate_down i c Hf Hi) as Ed.
  pose proof (navigate_up i c Hf Hi) as Eu.
  fold n in Ed, Eu.
  split; [exact Ed|]. split; [exact Eu|].
  split.
  - rewrite Ed.
    set (j := (if (i + 1 =? n)%Z then 0 else i + 1)%Z).
    assert (0 <= j < n)%Z as Hj.
    { subst j. destruct (i + 1 =? n)%Z eqn:E; lia. }
    rewrite (navigate_up j (set_focus (OnOption j) c) eq_refl Hj).
    rewrite set_focus_twice. cbn [set_focus view options]. fold n.
    assert ((if (j =? 0)%Z then n - 1 else j - 1)%Z = i) as ->.
    { subst j. destruct (i + 1 =? n)%Z eqn:E1.
      - apply Z.eqb_eq in E1. simpl. lia.
      - apply Z.eqb_neq in E1.
        assert ((i + 1 =? 0)%Z = false) as -> by lia. lia. }
    by apply set_focus_same.
  - rewrite Eu.
    set (j := (if (i =? 0)%Z then n - 1 else i - 1)%Z).
    assert (0 <= j < n)%Z as Hj.
    { subst j. destruct (i =? 0)%Z eqn:E; lia. }
    rewrite (navigate_down j (set_focus (OnOption j) c) eq_refl Hj).
    rewrite set_focus_twice. cbn [set_focus view options]. fold n.
    assert ((if (j + 1 =? n)%Z then 0 else j + 1)%Z = i) as ->.
    { subst j. destruct (i =? 0)%Z eqn:E1.
      - apply Z.eqb_eq in E1.
        assert ((n - 1 + 1 =? n)%Z = true) as -> by lia. lia.
      - apply Z.eqb_neq in E1.
        assert ((i - 1 + 1 =? n)%Z = false) as -> by lia. lia. }
    by apply set_focus_same.
Qed.


(** The selector is consistent and has announced only modes that can be
    chosen. *)
Lemma sound_same c c' :
  state c' = state c →
  triggerExpanded (view c') = triggerExpanded (view c) →
  classList (view c') = classList (view c) →
  emitted c' = emitted c →
  consistent c
  ∧ (∀ mode, mode ∈ emitted c → mode ∈ "Select Mode" :: availableModes) →
  consistent c'
  ∧ (∀ mode, mode ∈ emitted c' → mode ∈ "Select Mode" :: availableModes).
Proof. unfold consistent. by intros -> -> -> ->. Qed.

Lemma sound_focusOption j c :
  consistent c
  ∧ (∀ mode, mode ∈ emitted c → mode ∈ "Select Mode" :: availableModes) →
  consistent (focusOption j c)
  ∧ (∀ mode, mode ∈ emitted (focusOption j c)
             → mode ∈ "Select Mode" :: availableModes).
Proof.
  intros H. unfold focusOption. case_match; [|done].
  by apply (sound_same c).
Qed.

Lemma sound_navigateOptions d c :
  consistent c
  ∧ (∀ mode, mode ∈ emitted c → mode ∈ "Select Mode" :: availableModes) →
  consistent (navigateOptions d c)
  ∧ (∀ mode, mode ∈ emitted (navigateOptions d c)
             → mode ∈ "Select Mode" :: availableModes).
Proof. intros H. unfold navigateOptions. by apply sound_focusOption. Qed.

Lemma sound_open c :
  consistent c
  ∧ (∀ mode, mode ∈ emitted c → mode ∈ "Select Mode" :: availableModes) →
  consistent (open c)
  ∧ (∀ mode, mode ∈ emitted (open c)
             → mode ∈ "Select Mode" :: availableModes).
Proof.
  intros H. unfold open. destruct (isOpen (state c)) eqn:E; [done|].
  apply sound_focusOption. destruct H as [(H1 & H2 & H3) H4].
  split; [|done]. unfold consistent. cbn [state view isOpen currentMode
    triggerExpanded classList].
  split_and!; try done.
  split; [intros _|done]. apply elem_of_classList_add. by left.
Qed.

Lemma sound_close c :
  consistent c
  ∧ (∀ mode, mode ∈ emitted c → mode ∈ "Select Mode" :: availableModes) →
  consistent (close c)
  ∧ (∀ mode, mode ∈ emitted (close c)
             → mode ∈ "Select Mode" :: availableModes).
Proof.
  intros H. unfold close. destruct (isOpen (state c)) eqn:E; [|done].
  cbn [negb]. destruct H as [(H1 & H2 & H3) H4].
  split; [|done]. unfold consistent. cbn [state view isOpen currentMode
    triggerExpanded classList].
  split_and!; try done.
  split; [done|]. rewrite elem_of_classList_remove. by intros [? _].
Qed.

Lemma sound_setCurrentMode mode b c :
  consistent c
  ∧ (∀ mode, mode ∈ emitted c → mode ∈ "Select Mode" :: availableModes) →
  consistent (setCurrentMode mode b c)
  ∧ (∀ mode', mode' ∈ emitted (setCurrentMode mode b c)
              → mode' ∈ "Select Mode" :: availableModes).
Proof.
  intros H. unfold setCurrentMode.
  destruct (bool_decide (mode ∈ availableModes)) eqn:E1;
    destruct (bool_decide (mode = "Select Mode")) eqn:E2; cbn [negb andb];
    try done.
  all: destruct H as [(H1 & H2 & H3) H4].
  all: assert (mode ∈ "Select Mode" :: availableModes) as Hm
    by (first [apply bool_decide_eq_true in E2; subst; by left
              |apply bool_decide_eq_true in E1; by right]).
  all: split; [unfold consistent; by cbn [state view isOpen currentMode
                 triggerExpanded classList]|].
  all: cbn [emitted]; destruct b; [|done].
  all: intros mode' Hin; apply elem_of_app in Hin as [Hin|Hin]; [by apply H4|].
  all: apply list_elem_of_singleton in Hin; by subst.
Qed.

Lemma sound_handleOptionClick index c :
  consistent c
  ∧ (∀ mode, mode ∈ emitted c → mode ∈ "Select Mode" :: availableModes) →
  consistent (handleOptionClick index c)
  ∧ (∀ mode, mode ∈ emitted (handleOptionClick index c)
             → mode ∈ "Select Mode" :: availableModes).
Proof.
  intros H. unfold handleOptionClick.
  destruct (options (view c) !! index) as [[[selectedMode|] ?]|]; try done.
  case_match; [|done].
  by apply sound_close, sound_setCurrentMode.
Qed.

Lemma sound_handleEscapeKey c :
  consistent c
  ∧ (∀ mode, mode ∈ emitted c → mode ∈ "Select Mode" :: availableModes) →
  consistent (handleEscapeKey c)
  ∧ (∀ mode, mode ∈ emitted (handleEscapeKey c)
             → mode ∈ "Select Mode" :: availableModes).
Proof.
  intros H. unfold handleEscapeKey. destruct (isOpen (state c)); [|done].
  apply (sound_same (close c)); try done. by apply sound_close.
Qed.

Lemma sound_handleKeyDown key onTrigger c :
  consistent c
  ∧ (∀ mode, mode ∈ emitted c → mode ∈ "Select Mode" :: availableModes) →
  consistent (handleKeyDown key onTrigger c)
  ∧ (∀ mode, mode ∈ emitted (handleKeyDown key onTrigger c)
             → mode ∈ "Select Mode" :: availableModes).
Proof.
  intros H. unfold handleKeyDown.
  destruct (isOpen (state c)); cbn [negb].
  - repeat case_match; try done;
      first [by apply sound_navigateOptions
            |by apply sound_handleOptionClick
            |by apply sound_focusOption
            |apply (sound_same (close c)); try done; by apply sound_close].
  - case_match; [by apply sound_open|done].
Qed.

Lemma sound_step c e :
  consistent c
  ∧ (∀ mode, mode ∈ emitted c → mode ∈ "Select Mode" :: availableModes) →
  consistent (step c e)
  ∧ (∀ mode, mode ∈ emitted (step c e)
             → mode ∈ "Select Mode" :: availableModes).
Proof.
  intros H. destruct e; cbn [step].
  - unfold handleTriggerClick, toggle.
    destruct (isOpen (state c)); [by apply sound_close|by apply sound_open].
  - by apply sound_handleOptionClick.
  - case_bool_decide.
    + by apply sound_handleEscapeKey, sound_handleKeyDown.
    + by apply sound_handleKeyDown.
  - case_bool_decide; [by apply sound_handleEscapeKey|done].
  - unfold handleClickOutside.
    destruct (isOpen (state c)); [by apply sound_close|done].
  - by apply sound_setCurrentMode.
  - unfold reset. by apply sound_setCurrentMode, sound_close.
Qed.

(** X27. Whatever the user does, the selector stays consistent: its
    attributes and its class say open exactly when it is open, the
    current mode is 'Select Mode' or one of the available modes, and
    every mode it has announced with 'mode:changed' is one of these, for
    which the mode manager has a configuration. *)
Theorem selector_stays_consistent (es : list Event) (c : Component) :
  consistent c →
  (∀ mode, mode ∈ emitted c → mode ∈ "Select Mode" :: availableModes) →
  let c' := fold_left step es c in
  consistent c'
  ∧ ∀ mode, mode ∈ emitted c' →
            mode ∈ "Select Mode" :: availableModes
            ∧ ModeManagerTransformation.modeConfigs mode ≠ None.
Proof.
  intros Hc He c'.
  assert (consistent c'
          ∧ (∀ mode, mode ∈ emitted c'
                     → mode ∈ "Select Mode" :: availableModes)) as [H1 H2].
  { subst c'. revert c Hc He.
    induction es as [|e es IH]; intros c Hc He; [done|].
    cbn [fold_left].
    destruct (sound_step c e (conj Hc He)) as [Hc' He'].
    by apply IH. }
  split; [exact H1|]. intros mode Hin. specialize (H2 mode Hin).
  split; [exact H2|].
  unfold availableModes in H2.
  repeat (apply elem_of_cons in H2 as [->|H2]; [done|]).
  by apply elem_of_nil in H2.
Qed.

End ModeSelectorFacts.

Section ModeSelectorWitnesses.
Import ModeSelector.

Lemma arrow_keys_cycle_through_the_options_witness :
  focus (view (open Sample.selector)) = OnOption 0
  ∧ (0 <= 0 < Z.of_nat (length (options (view (open Sample.selector)))))%Z
  ∧ navigateOptions (-1) (navigateOptions 1 (open Sample.selector))
    = open Sample.selector.
Proof.
  assert (focus (view (open Sample.selector)) = OnOption 0) as H1
    by reflexivity.
  assert (0 <= 0 < Z.of_nat (length (options (view (open Sample.selector)))))%Z
    as H2 by (vm_compute; split; [discriminate|reflexivity]).
  split; [exact H1|]. split; [exact H2|].
  destruct (arrow_keys_cycle_through_the_options 0 (open Sample.selector)
              H1 H2) as (_ & _ & H & _).
  exact H.
Defined.

Lemma selector_stays_consistent_witness :
  consistent Sample.selector
  ∧ (∀ mode, mode ∈ emitted Sample.selector
             → mode ∈ "Select Mode" :: availableModes)
  ∧ consistent (fold_left step [TriggerClick; OptionClick 1] Sample.selector).
Proof.
  assert (consistent Sample.selector) as H1.
  { unfold consistent. split; [split; discriminate|].
    split; [|by left]. split; [discriminate|].
    intros H. vm_compute in H.
    apply list_elem_of_singleton in H. discriminate H. }
  assert (∀ mode, mode ∈ emitted Sample.selector
                  → mode ∈ "Select Mode" :: availableModes) as H2.
  { intros mode H. by apply elem_of_nil in H. }
  split; [exact H1|]. split; [exact H2|].
  destruct (selector_stays_consistent [TriggerClick; OptionClick 1]
              Sample.selector H1 H2) as [H _].
  exact H.
Defined.

End ModeSelectorWitnesses.

(** ** The application: what the page shows of a generation *)

Section ApplicationFacts.
Import Js Form GenerationController Application.

Lemma deliver_start now s :
  deliver now s (Emit "generation:start" NoPayload) = handleGeneration s.
Proof. done. Qed.

Lemma deliver_complete now s data :
  deliver now s (Emit "generation:complete" (Results data))
  = handleGenerationComplete data now s.
Proof. done. Qed.

Lemma deliver_error now s message :
  deliver now s (Emit "generation:error" (Failure message))
  = handleError message s.
Proof. done. Qed.

Lemma deliver_cancelled now s :
  deliver now s (Emit "generation:cancelled" NoPayload) = s.
Proof. done. Qed.

(** A click on a valid form with no file, seen from the application: the
    one event it hears is 'generation:start'. *)
Lemma turn_click now w :
  isGenerating (state (controller w)) = false →
  isValid (validateForm (state (controller w))) = true →
  microtasks (controller w) = [] →
  scaffoldFile (formData (state (controller w))) = None →
  fragmentFile (formData (state (controller w))) = None →
  nextController (controller w) ∉ aborted (controller w) →
  (∀ x, x ∈ suspended (controller w)
        → act_id x ≠ nextController (controller w)) →
  turn now Click w
  = {| controller := step Click (controller w);
       rest := handleGeneration (rest w) |}.
Proof.
  intros H1 H2 H3 H4 H5 H6 H7. unfold turn. f_equal.
  pose proof (click_on_valid_form (controller w) H1 H2 H3 H4 H5 H6 H7) as E.
  cbv zeta in E. rewrite E. cbn [effects].
  rewrite <- app_assoc, drop_app_length.
  rewrite fold_left_app. cbn [fold_left]. by rewrite deliver_start.
Qed.

(** The end of a generation, seen from the application. *)
Lemma turn_response now a r w :
  isRacing a (controller w) = true →
  a ∈ map fst (outstanding (controller w)) →
  isGenerating (state (controller (turn now (ResponseArrives a r) w))) = false
  ∧ rest (turn now (ResponseArrives a r) w)
    = match r with
      | ResponseOk data => handleGenerationComplete data now (rest w)
      | ResponseNotOk status statusText errorText =>
          let m := "API request failed: " +:+ status +:+ " "
                   +:+ statusText +:+ " - " +:+ errorText in
          handleError m (handleError m (rest w))
      | Rejected name message =>
          let m := if bool_decide (name = "AbortError")
                   then "Generation was cancelled" else message in
          handleError m (handleError m (rest w))
      end.
Proof.
  intros Hr Ho. unfold turn. cbn [controller rest].
  destruct (response_reaches_waiting a r (controller w) Hr Ho)
    as (w1 & -> & He).
  destruct (resume_state a r w1) as (Hg & _).
  split; [exact Hg|].
  rewrite resume_effects, He, drop_app_length.
  destruct r as [data|status statusText errorText|name message];
    cbn [fold_left]; cbv zeta;
    rewrite ?deliver_complete, ?deliver_error; done.
Qed.

(** X28. The controller and the application validate the form each on
    its own copy of the data, and the copies can differ (the application
    empties its copy at a change of mode, the controller does not).  When
    the controller finds the form valid and the application does not, a
    click sends the request and the button reads Cancel, while the
    application, on hearing 'generation:start', reports its validation
    message as an error: the page is not loading, and the manager and the
    results panel both hold the message. *)
Theorem request_runs_while_the_page_shows_an_error (now : string) (w : Whole) :
  isGenerating (state (controller w)) = false →
  isValid (validateForm (state (controller w))) = true →
  microtasks (controller w) = [] →
  scaffoldFile (formData (state (controller w))) = None →
  fragmentFile (formData (state (controller w))) = None →
  nextController (controller w) ∉ aborted (controller w) →
  (∀ x, x ∈ suspended (controller w)
        → act_id x ≠ nextController (controller w)) →
  isValid (MolGPTApp.validateFormData (app (rest w))) = false →
  let a := nextController (controller w) in
  let message :=
    join "; " (errors (MolGPTApp.validateFormData (app (rest w)))) in
  let w' := turn now Click w in
  fetches (effects (controller w'))
  = fetches (effects (controller w))
    ++ [Fetch a a (buildRequestPayload (state (controller w)))]
  ∧ isGenerating (state (controller w')) = true
  ∧ textContent (element (controller w')) = "Cancel"
  ∧ MolGPTApp.isGenerating (app (rest w')) = false
  ∧ UIStateManager.loading (UIStateManager.state (ui (rest w'))) = false
  ∧ UIStateManager.error (UIStateManager.state (ui (rest w'))) = Some message
  ∧ UIStateManager.appAriaBusy (UIStateManager.page (ui (rest w')))
    = Some "false"
  ∧ ResultsDisplay.isLoading (ResultsDisplay.state (results (rest w'))) = false
  ∧ ResultsDisplay.error (ResultsDisplay.state (results (rest w')))
    = Some message
  ∧ ResultsDisplay.ariaLabel (ResultsDisplay.content (results (rest w')))
    = Some ("Error: " +:+ message).
Proof.
  intros H1 H2 H3 H4 H5 H6 H7 Hi a message w'. subst w'.
  rewrite (turn_click now w H1 H2 H3 H4 H5 H6 H7). cbn [controller rest].
  pose proof (click_on_valid_form (controller w) H1 H2 H3 H4 H5 H6 H7) as E.
  cbv zeta in E. rewrite E. clear E.
  cbn [state element effects]. fold a.
  split.
  { unfold fetches. rewrite !List.filter_app. cbn [List.filter].
    by rewrite app_nil_r. }
  split; [done|]. split; [done|].
  unfold handleGeneration. rewrite Hi. cbn [negb]. fold message.
  split_and!; done.
Qed.

(** X29. What the page shows of a generation that both the controller
    and the application find valid.  While the request is on its way the
    application is generating, the manager is loading without error, the
    title says so and the panel shows the progress with the earlier
    results dropped.  When the response arrives nothing is generating or
    loading any more: a good response is stored and dated by the panel
    and the error stays clear; a bad status or a rejection leaves its
    message in the manager and in the panel, which holds no results. *)
Theorem page_follows_the_generation (now : string) (r : Settled) (w : Whole) :
  isGenerating (state (controller w)) = false →
  isValid (validateForm (state (controller w))) = true →
  microtasks (controller w) = [] →
  scaffoldFile (formData (state (controller w))) = None →
  fragmentFile (formData (state (controller w))) = None →
  nextController (controller w) ∉ aborted (controller w) →
  (∀ x, x ∈ suspended (controller w)
        → act_id x ≠ nextController (controller w)) →
  isValid (MolGPTApp.validateFormData (app (rest w))) = true →
  let a := nextController (controller w) in
  let w1 := turn now Click w in
  let w2 := turn now (ResponseArrives a r) w1 in
  (MolGPTApp.isGenerating (app (rest w1)) = true
   ∧ UIStateManager.loading (UIStateManager.state (ui (rest w1))) = true
   ∧ UIStateManager.error (UIStateManager.state (ui (rest w1))) = None
   ∧ UIStateManager.title (UIStateManager.page (ui (rest w1)))
     = "⏳ Generating... - " +:+ UIStateManager.baseTitle
   ∧ ResultsDisplay.isLoading (ResultsDisplay.state (results (rest w1))) = true
   ∧ ResultsDisplay.results (ResultsDisplay.state (results (rest w1))) = None
   ∧ ResultsDisplay.ariaLabel (ResultsDisplay.content (results (rest w1)))
     = Some "Generating molecules... ⏳")
  ∧ isGenerating (state (controller w2)) = false
  ∧ MolGPTApp.isGenerating (app (rest w2)) = false
  ∧ UIStateManager.loading (UIStateManager.state (ui (rest w2))) = false
  ∧ ResultsDisplay.isLoading (ResultsDisplay.state (results (rest w2))) = false
  ∧ match r with
    | ResponseOk data =>
        UIStateManager.error (UIStateManager.state (ui (rest w2))) = None
        ∧ ResultsDisplay.results (ResultsDisplay.state (results (rest w2)))
          = Some data
        ∧ ResultsDisplay.error (ResultsDisplay.state (results (rest w2)))
          = None
        ∧ ResultsDisplay.lastGeneration
            (ResultsDisplay.state (results (rest w2))) = Some now
    | ResponseNotOk status statusText errorText =>
        let m := "API request failed: " +:+ status +:+ " " +:+ statusText
                 +:+ " - " +:+ errorText in
        UIStateManager.error (UIStateManager.state (ui (rest w2))) = Some m
        ∧ ResultsDisplay.error (ResultsDisplay.state (results (rest w2)))
          = Some m
        ∧ ResultsDisplay.results (ResultsDisplay.state (results (rest w2)))
          = None
    | Rejected name message =>
        let m := if bool_decide (name = "AbortError")
                 then "Generation was cancelled" else message in
        UIStateManager.error (UIStateManager.state (ui (rest w2))) = Some m
        ∧ ResultsDisplay.error (ResultsDisplay.state (results (rest w2)))
          = Some m
        ∧ ResultsDisplay.results (ResultsDisplay.state (results (rest w2)))
          = None
    end.
Proof.
  intros H1 H2 H3 H4 H5 H6 H7 Hv a w1 w2.
  assert (w1 = {| controller := step Click (controller w);
                  rest := handleGeneration (rest w) |}) as E1
    by (subst w1; by apply turn_click).
  pose proof (click_on_valid_form (controller w) H1 H2 H3 H4 H5 H6 H7) as Ec.
  cbv zeta in Ec. fold a in Ec.
  assert (isRacing a (controller w1) = true) as Hr.
  { rewrite E1. cbn [controller]. rewrite Ec. unfold isRacing.
    cbn [suspended]. rewrite existsb_app. cbn [existsb act_id act_stage].
    rewrite Nat.eqb_refl. cbn [andb orb]. apply orb_true_r. }
  assert (a ∈ map fst (outstanding (controller w1))) as Ho.
  { rewrite E1. cbn [controller]. rewrite Ec. cbn [outstanding].
    rewrite map_app. apply elem_of_app. right. cbn [map fst]. by left. }
  destruct (turn_response now a r w1 Hr Ho) as (Hg & Hrest).
  fold w2 in Hg, Hrest.
  assert (rest w1
          = {| app := Application.set_isGenerating true (app (rest w));
               ui := UIStateManager.updateState (loadingAndError true None)
                       (ui (rest w));
               results :=
                 ResultsDisplay.handleShowProgress "Generating molecules... ⏳"
                   (ResultsDisplay.handleClearResults (results (rest w))) |})
    as Er.
  { rewrite E1. cbn [rest]. unfold handleGeneration. by rewrite Hv. }
  split.
  { rewrite Er. cbn [app ui results]. split_and!; done. }
  split; [exact Hg|].
  rewrite Hrest.
  destruct r as [data|status statusText errorText|name message];
    cbv zeta; split_and!; done.
Qed.

(** X30. Cancelling shows an error.  A second click while the request is
    on its way aborts it and emits 'generation:cancelled', to which
    nothing listens; the rejection of the request then reaches the
    application as 'generation:error', so that the page ends up in the
    error state with the message Generation was cancelled, in the
    title, in the manager and in the results panel. *)
Theorem cancelling_shows_an_error (now : string) (w : Whole) :
  isGenerating (state (controller w)) = false →
  isValid (validateForm (state (controller w))) = true →
  microtasks (controller w) = [] →
  scaffoldFile (formData (state (controller w))) = None →
  fragmentFile (formData (state (controller w))) = None →
  nextController (controller w) ∉ aborted (controller w) →
  (∀ x, x ∈ suspended (controller w)
        → act_id x ≠ nextController (controller w)) →
  (∀ x, x ∈ outstanding (controller w)
        → x.2 ≠ nextController (controller w)) →
  let a := nextController (controller w) in
  let w2 := turn now Click (turn now Click w) in
  effects (controller w2)
  = effects (controller w)
    ++ [Emit "generation:start" NoPayload;
        Fetch a a (buildRequestPayload (state (controller w)));
        Abort a;
        Emit "generation:cancelled" NoPayload;
        Emit "generation:error" (Failure "Generation was cancelled");
        Emit "generation:error" (Failure "Generation was cancelled")]
  ∧ isGenerating (state (controller w2)) = false
  ∧ MolGPTApp.isGenerating (app (rest w2)) = false
  ∧ UIStateManager.loading (UIStateManager.state (ui (rest w2))) = false
  ∧ UIStateManager.error (UIStateManager.state (ui (rest w2)))
    = Some "Generation was cancelled"
  ∧ UIStateManager.title (UIStateManager.page (ui (rest w2)))
    = "❌ Error - " +:+ UIStateManager.baseTitle
  ∧ ResultsDisplay.error (ResultsDisplay.state (results (rest w2)))
    = Some "Generation was cancelled"
  ∧ ResultsDisplay.ariaLive (ResultsDisplay.content (results (rest w2)))
    = Some "assertive".
Proof.
  intros H1 H2 H3 H4 H5 H6 H7 H8 a w2. subst w2.
  rewrite (turn_click now w H1 H2 H3 H4 H5 H6 H7).
  pose proof (click_on_valid_form (controller w) H1 H2 H3 H4 H5 H6 H7) as Ec.
  cbv zeta in Ec. fold a in Ec.
  set (c1 := step Click (controller w)) in *.
  assert (isGenerating (state c1) = true) as G1 by (by rewrite Ec).
  assert (abortController (state c1) = Some a) as G2 by (by rewrite Ec).
  assert (microtasks c1 = []) as G3 by (by rewrite Ec).
  assert (List.filter (fun r => Nat.eqb (snd r) a) (outstanding c1) = [(a, a)])
    as G4.
  { rewrite Ec. cbn [outstanding]. rewrite List.filter_app.
    cbn [List.filter snd]. rewrite Nat.eqb_refl.
    assert (List.filter (fun r => Nat.eqb (snd r) a) (outstanding (controller w))
            = []) as ->; [|done].
    revert H8. generalize (outstanding (controller w)) as l.
    induction l as [|x l IH]; intros H8; [done|].
    cbn [List.filter].
    assert (Nat.eqb (snd x) a = false) as ->.
    { apply Nat.eqb_neq. apply H8. by left. }
    apply IH. intros y Hy. apply H8. by right. }
  assert (isRacing a c1 = true) as G5.
  { rewrite Ec. unfold isRacing.
    cbn [suspended]. rewrite existsb_app. cbn [existsb act_id act_stage].
    rewrite Nat.eqb_refl. cbn [andb orb]. apply orb_true_r. }
  destruct (click_while_racing a a c1 G1 G2 G3 G4 G5) as (c2 & Es & Ee & _).
  set (m := "Generation was cancelled").
  assert (turn now Click {| controller := c1; rest := handleGeneration (rest w) |}
          = {| controller :=
                 resume a (Rejected "AbortError" "The user aborted a request.") c2;
               rest := handleError m (handleError m (handleGeneration (rest w))) |})
    as ->.
  { unfold turn. cbn [controller rest]. rewrite Es. f_equal.
    rewrite resume_effects, Ee, <- app_assoc, drop_app_length.
    cbv zeta. rewrite bool_decide_true by done.
    rewrite fold_left_app. cbn [fold_left].
    by rewrite deliver_cancelled, !deliver_error. }
  cbn [controller rest].
  destruct (resume_state a (Rejected "AbortError" "The user aborted a request.") c2)
    as (Hg & _).
  rewrite resume_effects, Ee.
  assert (effects c1
          = effects (controller w)
            ++ [Emit "generation:start" NoPayload;
                Fetch a a (buildRequestPayload (state (controller w)))]) as E1.
  { rewrite Ec. cbn [effects]. by rewrite <- app_assoc. }
  split. { rewrite E1. by rewrite <- !app_assoc. }
  split; [exact Hg|].
  split_and!; done.
Qed.

End ApplicationFacts.

Section ApplicationWitnesses.
Import Js Form GenerationController Application.

Lemma request_runs_while_the_page_shows_an_error_witness :
  isValid (validateForm (state (controller (Sample.idle Sample.story)))) = true
  ∧ isValid (MolGPTApp.validateFormData (app (rest (Sample.idle Sample.story))))
    = false
  ∧ isGenerating
      (state (controller (turn "12:00:00" Click (Sample.idle Sample.story))))
    = true
  ∧ UIStateManager.error
      (UIStateManager.state
         (ui (rest (turn "12:00:00" Click (Sample.idle Sample.story)))))
    = Some (join "; "
              (errors (MolGPTApp.validateFormData
                         (app (rest (Sample.idle Sample.story)))))).
Proof.
  set (w := Sample.idle Sample.story).
  assert (isGenerating (state (controller w)) = false) as H1
    by (vm_compute; reflexivity).
  assert (isValid (validateForm (state (controller w))) = true) as H2
    by (vm_compute; reflexivity).
  assert (microtasks (controller w) = []) as H3 by (vm_compute; reflexivity).
  assert (scaffoldFile (formData (state (controller w))) = None) as H4
    by (vm_compute; reflexivity).
  assert (fragmentFile (formData (state (controller w))) = None) as H5
    by (vm_compute; reflexivity).
  assert (nextController (controller w) ∉ aborted (controller w)) as H6.
  { apply (bool_decide_unpack _). vm_compute. reflexivity. }
  assert (∀ x, x ∈ suspended (controller w)
               → act_id x ≠ nextController (controller w)) as H7.
  { intros x Hx. vm_compute in Hx. by apply elem_of_nil in Hx. }
  assert (isValid (MolGPTApp.validateFormData (app (rest w))) = false) as H8
    by (vm_compute; reflexivity).
  split; [exact H2|]. split; [exact H8|].
  destruct (request_runs_while_the_page_shows_an_error "12:00:00" w
              H1 H2 H3 H4 H5 H6 H7 H8) as (_ & Hg & _ & _ & _ & He & _).
  split; [exact Hg|exact He].
Defined.

Lemma page_follows_the_generation_witness :
  isValid (validateForm (state (controller (Sample.idle Sample.choice)))) = true
  ∧ isValid (MolGPTApp.validateFormData (app (rest (Sample.idle Sample.choice))))
    = true
  ∧ UIStateManager.loading
      (UIStateManager.state
         (ui (rest (turn "12:00:00" Click (Sample.idle Sample.choice)))))
    = true
  ∧ ResultsDisplay.results
      (ResultsDisplay.state
         (results
            (rest (turn "12:00:00" (ResponseArrives 0 (ResponseOk Sample.response))
                     (turn "12:00:00" Click (Sample.idle Sample.choice))))))
    = Some Sample.response.
Proof.
  set (w := Sample.idle Sample.choice).
  assert (isGenerating (state (controller w)) = false) as H1
    by (vm_compute; reflexivity).
  assert (isValid (validateForm (state (controller w))) = true) as H2
    by (vm_compute; reflexivity).
  assert (microtasks (controller w) = []) as H3 by (vm_compute; reflexivity).
  assert (scaffoldFile (formData (state (controller w))) = None) as H4
    by (vm_compute; reflexivity).
  assert (fragmentFile (formData (state (controller w))) = None) as H5
    by (vm_compute; reflexivity).
  assert (nextController (controller w) ∉ aborted (controller w)) as H6.
  { apply (bool_decide_unpack _). vm_compute. reflexivity. }
  assert (∀ x, x ∈ suspended (controller w)
               → act_id x ≠ nextController (controller w)) as H7.
  { intros x Hx. vm_compute in Hx. by apply elem_of_nil in Hx. }
  assert (isValid (MolGPTApp.validateFormData (app (rest w))) = true) as H8
    by (vm_compute; reflexivity).
  split; [exact H2|]. split; [exact H8|].
  destruct (page_follows_the_generation "12:00:00" (ResponseOk Sample.response)
              w H1 H2 H3 H4 H5 H6 H7 H8)
    as ((_ & Hl & _) & _ & _ & _ & _ & _ & Hres & _).
  split; [exact Hl|exact Hres].
Defined.

Lemma cancelling_shows_an_error_witness :
  isValid (validateForm (state (controller (Sample.idle Sample.choice)))) = true
  ∧ UIStateManager.error
      (UIStateManager.state
         (ui (rest (turn "12:00:00" Click
                      (turn "12:00:00" Click (Sample.idle Sample.choice))))))
    = Some "Generation was cancelled".
Proof.
  set (w := Sample.idle Sample.choice).
  assert (isGenerating (state (controller w)) = false) as H1
    by (vm_compute; reflexivity).
  assert (isValid (validateForm (state (controller w))) = true) as H2
    by (vm_compute; reflexivity).
  assert (microtasks (controller w) = []) as H3 by (vm_compute; reflexivity).
  assert (scaffoldFile (formData (state (controller w))) = None) as H4
    by (vm_compute; reflexivity).
  assert (fragmentFile (formData (state (controller w))) = None) as H5
    by (vm_compute; reflexivity).
  assert (nextController (controller w) ∉ aborted (controller w)) as H6.
  { apply (bool_decide_unpack _). vm_compute. reflexivity. }
  assert (∀ x, x ∈ suspended (controller w)
               → act_id x ≠ nextController (controller w)) as H7.
  { intros x Hx. vm_compute in Hx. by apply elem_of_nil in Hx. }
  assert (∀ x, x ∈ outstanding (controller w)
               → x.2 ≠ nextController (controller w)) as H8.
  { intros x Hx. vm_compute in Hx. by apply elem_of_nil in Hx. }
  split; [exact H2|].
  destruct (cancelling_shows_an_error "12:00:00" w H1 H2 H3 H4 H5 H6 H7 H8)
    as (_ & _ & _ & _ & He & _).
  exact He.
Defined.

End ApplicationWitnesses.
